(** * AI survey solver: a model of [main.py] and its checked properties

    [main.py] is one linear script: it configures logging, reads the API
    key, opens a Chrome session, walks through six steps on one survey
    page and closes the browser.  Everything it does to the outside
    world (file system, clock, Selenium driver, chat completion
    endpoint) is modelled as a call to a [World], which answers each
    call from the history of the calls made so far; the script itself is
    a computation in a small monad that reads that history, may raise a
    Python exception, and records the calls it makes.

    A call that raises is recorded like one that returns: an event of
    the trace stands for the invocation.  The exceptions of the model
    are those that [except Exception] catches, which is what Selenium,
    the OpenAI client and [os] raise; interrupts are not modelled. *)

From Stdlib Require Import String Ascii List Arith Bool Lia DecimalString.
From ExtLib Require Import Structures.Monad.
Import ListNotations.
Import MonadNotation.
Local Open Scope string_scope.
Local Open Scope list_scope.
Local Open Scope monad_scope.


(** ** Python strings

    A Python [str] is modelled as a [string] whose characters are the
    code points below 256. *)

Definition nl : string := String "010"%char EmptyString.
Definition dquote : string := String "034"%char EmptyString.

(** [str.isspace] on one code point below 256. *)
Definition isspace (c : ascii) : bool :=
  let n := nat_of_ascii c in
  (((9 <=? n) && (n <=? 13)) || ((28 <=? n) && (n <=? 32))
   || (n =? 133) || (n =? 160))%nat.

Fixpoint lstrip (s : string) : string :=
  match s with
  | EmptyString => EmptyString
  | String c r => if isspace c then lstrip r else s
  end.

Fixpoint rstrip (s : string) : string :=
  match s with
  | EmptyString => EmptyString
  | String c r =>
      match rstrip r with
      | EmptyString => if isspace c then EmptyString else String c EmptyString
      | r' => String c r'
      end
  end.

(** [s.strip()] *)
Definition strip (s : string) : string := rstrip (lstrip s).

(** [s.startswith(p)] *)
Fixpoint startswith (p s : string) : bool :=
  match p with
  | EmptyString => true
  | String a p' =>
      match s with
      | EmptyString => false
      | String b s' => (a =? b)%char && startswith p' s'
      end
  end.

(** [sep.join(l)] *)
Definition join (sep : string) (l : list string) : string := String.concat sep l.

(** [str(n)] for a non-negative [int]. *)
Definition str_of_nat (n : nat) : string := NilEmpty.string_of_uint (Nat.to_uint n).

(** Truth value of the result of [os.getenv] / [get_attribute]: [None]
    and the empty string are falsy. *)
Definition truthy (v : option string) : bool :=
  match v with
  | None => false
  | Some s => negb (s =? "")
  end.

(** ** Exceptions and results *)

Record exn := Exn { exn_class : string; exn_msg : string }.

(** [str(e)], as interpolated by an f-string. *)
Definition str_of_exn (e : exn) : string := exn_msg e.

Inductive outcome (A : Type) : Type :=
| Ok (a : A)
| Raised (e : exn).
Arguments Ok {A} a.
Arguments Raised {A} e.

(** ** Calls to the outside world *)

Inductive level := DEBUG | INFO | WARNING | ERROR.

(** A Selenium [WebElement] reference. *)
Definition elem := nat.

Inductive By := CSS_SELECTOR | XPATH.

Inductive event :=
| EvPathExists (path : string)
| EvMakedirs (path : string)
| EvNow
| EvFileHandler (path : string)
| EvLog (l : level) (msg : string)
| EvSleep (secs : nat)
| EvLoadDotenv
| EvGetenv (name : string)
| EvChrome
| EvMaximize
| EvGet (url : string)
| EvScript (script : string) (args : list elem)
| EvFindElement (b : By) (sel : string)
| EvFindElements (b : By) (sel : string)
| EvGetAttribute (e : elem) (name : string)
| EvText (e : elem)
| EvClick (e : elem)
| EvSaveScreenshot (file : string)
| EvChat (model : string) (messages : list (string * string))
| EvQuit.

Definition trace := list event.

(** The environment of one run.  Every field receives the calls made
    before the one it answers.  Logging and [time.sleep] have no field:
    they return nothing and do not raise. *)
Record World := {
  path_exists : trace -> string -> bool;
  makedirs : trace -> string -> outcome unit;
  (** [datetime.datetime.now().strftime('%Y%m%d_%H%M%S')] *)
  now : trace -> string;
  (** [logging.FileHandler(log_filename)] *)
  file_handler : trace -> string -> outcome unit;
  (** [os.getenv] after [load_dotenv()] *)
  getenv : string -> option string;
  (** [webdriver.Chrome(options=options)] *)
  chrome : trace -> outcome unit;
  maximize_window : trace -> outcome unit;
  driver_get : trace -> string -> outcome unit;
  (** [driver.execute_script]; the returned value as [str] renders it *)
  execute_script : trace -> string -> list elem -> outcome string;
  find_element : trace -> By -> string -> outcome elem;
  find_elements : trace -> By -> string -> outcome (list elem);
  get_attribute : trace -> elem -> string -> outcome (option string);
  elem_text : trace -> elem -> outcome string;
  elem_click : trace -> elem -> outcome unit;
  save_screenshot : trace -> string -> outcome bool;
  (** [openai.ChatCompletion.create]: the [message.content] of each of
      the returned [choices] *)
  chat_create : trace -> string -> list (string * string) -> outcome (list (option string));
  driver_quit : trace -> outcome unit
}.

(** ** The monad of the script

    A computation reads the history [h] of the calls made before it
    started, and returns its result with the calls it made itself. *)

Definition M (A : Type) : Type := trace -> outcome A * trace.

Definition mret {A} (a : A) : M A := fun _ => (Ok a, []).

Definition mbind {A B} (m : M A) (k : A -> M B) : M B :=
  fun h =>
    match m h with
    | (Ok a, d1) =>
        match k a (h ++ d1) with
        | (r, d2) => (r, d1 ++ d2)
        end
    | (Raised e, d1) => (Raised e, d1)
    end.

#[export] Instance Monad_M : Monad M := {| ret := @mret; bind := @mbind |}.

(** [raise e] *)
Definition throw {A} (e : exn) : M A := fun _ => (Raised e, []).

(** [try: m  except Exception as e: handler(e)] *)
Definition try_except {A} (m : M A) (handler : exn -> M A) : M A :=
  fun h =>
    match m h with
    | (Ok a, d1) => (Ok a, d1)
    | (Raised e, d1) =>
        match handler e (h ++ d1) with
        | (r, d2) => (r, d1 ++ d2)
        end
    end.

(** [try: m  finally: cleanup]: the clean-up runs on every path, and an
    exception of its own replaces the pending result. *)
Definition try_finally {A} (m : M A) (cleanup : M unit) : M A :=
  fun h =>
    match m h with
    | (r, d1) =>
        match cleanup (h ++ d1) with
        | (Ok _, d2) => (r, d1 ++ d2)
        | (Raised e, d2) => (Raised e, d1 ++ d2)
        end
    end.

(** One call: the world answers from the history, the call is recorded. *)
Definition call {A} (ev : event) (answer : trace -> outcome A) : M A :=
  fun h => (answer h, [ev]).

Definition emit (ev : event) : M unit := fun _ => (Ok tt, [ev]).

(** ** Script texts *)

Local Open Scope string_scope.

(** A Python triple-quoted literal, line by line. *)
Definition lines (l : list string) : string := String.concat nl l.

Definition overlay_id : string := "ai-overlay".

(** The literal passed to [execute_script] by [inject_overlay]. *)
Definition inject_overlay_script : string :=
  lines [ "";
          "    if (!document.getElementById('ai-overlay')) {";
          "        var overlay = document.createElement('div');";
          "        overlay.id = 'ai-overlay';";
          "        overlay.style.position = 'fixed';";
          "        overlay.style.top = '0';";
          "        overlay.style.left = '0';";
          "        overlay.style.width = '100%';";
          "        overlay.style.height = '100%';";
          "        overlay.style.backgroundColor = 'rgba(0, 0, 0, 0.5)';";
          "        overlay.style.color = 'white';";
          "        overlay.style.fontSize = '24px';";
          "        overlay.style.display = 'flex';";
          "        overlay.style.alignItems = 'center';";
          "        overlay.style.justifyContent = 'center';";
          "        overlay.style.zIndex = '9999';";
          "        overlay.style.pointerEvents = 'none';";
          "        document.body.appendChild(overlay);";
          "    }";
          "    " ].

(** The f-string of [update_overlay], cut around the JavaScript string
    literal that receives [text]. *)
Definition update_overlay_head : string :=
  lines [ "";
          "    var overlay = document.getElementById('ai-overlay');";
          "    if (overlay) {";
          "        overlay.innerHTML = " ].

Definition update_overlay_tail : string :=
  lines [ ";"; "    }"; "    " ].

Definition div_open : string :=
  "<div style='background: rgba(0,0,0,0.7); padding: 10px; border-radius: 5px;'>".

Definition div_close : string := "</div>".

Definition update_overlay_script (text : string) : string :=
  update_overlay_head ++ dquote ++ (div_open ++ text ++ div_close) ++ dquote
  ++ update_overlay_tail.

Definition remove_overlay_script : string :=
  lines [ "";
          "    var overlay = document.getElementById('ai-overlay');";
          "    if (overlay) {";
          "        overlay.parentNode.removeChild(overlay);";
          "    }";
          "    " ].

Definition scroll_script (pixels : nat) : string :=
  "window.scrollBy(0, " ++ str_of_nat pixels ++ ");".

Definition highlight_script (color : string) : string :=
  "arguments[0].style.border='3px solid " ++ color ++ "'".

Definition outer_html_script : string := "return document.documentElement.outerHTML;".

Definition url : string :=
  "https://www.ihdresearch.com/?cid=ddaf9592-e094-48e5-921e-3832003ba9ca&language=en".

Definition question_selector : string := "p.survey-question".
Definition radio_selector : string := "input[type='radio']".
Definition label_selector (radio_id : string) : string := "label[for='" ++ radio_id ++ "']".
Definition next_xpath : string := "//button[contains(text(), 'Next')]".

Definition no_label : string := "(no label)".
Definition no_id_label : string := "(no id/label)".

Definition system_instruction : string :=
  "You are a survey-solving AI with a custom personality.".

(** The f-string assigned to [prompt] in step 4. *)
Definition build_prompt (rendered_html question_text : string)
    (options_list : list (elem * string)) : string :=
  nl ++ "You are an AI with a custom personality designed to solve surveys." ++ nl
  ++ "Note that you do not have access to the raw page source; you only see the live rendered HTML." ++ nl
  ++ "Below is the rendered HTML of the page (as seen in the Chrome Elements panel):" ++ nl
  ++ rendered_html ++ nl
  ++ nl
  ++ "Additionally, here is the survey question and its available answer options:" ++ nl
  ++ "Survey Question: " ++ question_text ++ nl
  ++ "Options: " ++ join ", " (map snd options_list) ++ nl
  ++ nl
  ++ "Respond with the exact text of the option you would choose." ++ nl.

Definition chat_model : string := "gpt-3.5-turbo".

Definition chat_messages (prompt : string) : list (string * string) :=
  [ ("system", system_instruction); ("user", prompt) ].

Definition not_found_warning : string :=
  "AI's chosen option was not found among the available options.".

(** How the process ends. *)
Inductive termination :=
| Finished
| SysExit (code : nat)
| Uncaught (e : exn).

(** The exit status: an uncaught exception ends the interpreter with
    status 1. *)
Definition exit_code (t : termination) : nat :=
  match t with
  | Finished => 0
  | SysExit c => c
  | Uncaught _ => 1
  end.

(** ** The script *)

Section Script.

Variable w : World.

Definition log (l : level) (msg : string) : M unit := emit (EvLog l msg).

Definition sleep (secs : nat) : M unit := emit (EvSleep secs).

Definition exec_script (script : string) (args : list elem) : M string :=
  call (EvScript script args) (fun h => execute_script w h script args).

Definition driver_find_element (b : By) (sel : string) : M elem :=
  call (EvFindElement b sel) (fun h => find_element w h b sel).

Definition driver_find_elements (b : By) (sel : string) : M (list elem) :=
  call (EvFindElements b sel) (fun h => find_elements w h b sel).

Definition click (e : elem) : M unit :=
  call (EvClick e) (fun h => elem_click w h e).

Definition text_of (e : elem) : M string :=
  call (EvText e) (fun h => elem_text w h e).

(** [if not os.path.exists(d): os.makedirs(d)] *)
Definition ensure_dir (d : string) : M unit :=
  ex <- call (EvPathExists d) (fun h => Ok (path_exists w h d)) ;;
  if negb ex then call (EvMakedirs d) (fun h => makedirs w h d) else ret tt.

Definition timestamp : M string := call EvNow (fun h => Ok (now w h)).

Definition capture_screenshot (name : string) : M unit :=
  ensure_dir "screenshots" ;;
  ts <- timestamp ;;
  let filename := "screenshots/" ++ name ++ "_" ++ ts ++ ".png" in
  call (EvSaveScreenshot filename) (fun h => save_screenshot w h filename) ;;
  log INFO ("Screenshot saved: " ++ filename).

Definition update_overlay (text : string) : M unit :=
  exec_script (update_overlay_script text) [] ;;
  ret tt.

Definition inject_overlay (text : string) : M unit :=
  exec_script inject_overlay_script [] ;;
  update_overlay text.

Definition remove_overlay : M unit :=
  exec_script remove_overlay_script [] ;;
  ret tt.

Definition scroll_page (pixels : nat) (overlay_text : string) : M unit :=
  update_overlay overlay_text ;;
  exec_script (scroll_script pixels) [] ;;
  sleep 2 ;;
  capture_screenshot "after_scroll".

Definition highlight (element : elem) (color : string) : M unit :=
  exec_script (highlight_script color) [element] ;;
  log DEBUG ("Element highlighted with color " ++ color ++ ".").

(** Lines 14-24: the log directory and the log file. *)
Definition logging_setup : M unit :=
  ensure_dir "logs" ;;
  ts <- timestamp ;;
  let log_filename := "logs/debug_log_" ++ ts ++ ".log" in
  call (EvFileHandler log_filename) (fun h => file_handler w h log_filename).

(** Lines 90-91. *)
Definition load_api_key : M (option string) :=
  emit EvLoadDotenv ;;
  call (EvGetenv "OPENAI_API_KEY") (fun _ => Ok (getenv w "OPENAI_API_KEY")).

(** Lines 99-103. *)
Definition launch_browser : M unit :=
  call EvChrome (chrome w) ;;
  call EvMaximize (maximize_window w).

(** Step 1, lines 112-120. *)
Definition step1_open_page : M unit :=
  log INFO ("Navigating to URL: " ++ url) ;;
  call (EvGet url) (fun h => driver_get w h url) ;;
  sleep 3 ;;
  capture_screenshot "page_loaded" ;;
  inject_overlay "Page Loaded" ;;
  scroll_page 300 "Scrolling down to load content...".

(** Step 2, lines 124-128. *)
Definition step2_rendered_html : M string :=
  rendered_html <- exec_script outer_html_script [] ;;
  log INFO "Rendered HTML retrieved from live DOM." ;;
  update_overlay "Rendered HTML extracted" ;;
  capture_screenshot "rendered_html_retrieved" ;;
  sleep 2 ;;
  ret rendered_html.

(** Step 3, lines 132-137: the question. *)
Definition step3_question : M string :=
  question_element <- driver_find_element CSS_SELECTOR question_selector ;;
  t <- text_of question_element ;;
  let question_text := strip t in
  highlight question_element "orange" ;;
  log INFO ("Survey Question: " ++ question_text) ;;
  capture_screenshot "question_highlighted" ;;
  sleep 2 ;;
  ret question_text.

(** The body of the loop of lines 141-152, for one control. *)
Definition extract_option (radio_input : elem) : M (elem * string) :=
  radio_id <- call (EvGetAttribute radio_input "id")
                   (fun h => get_attribute w h radio_input "id") ;;
  option_text <-
    match radio_id with
    | Some id =>
        if truthy radio_id then
          try_except
            (label_element <- driver_find_element CSS_SELECTOR (label_selector id) ;;
             t <- text_of label_element ;;
             ret (strip t))
            (fun e =>
               log WARNING ("Label for radio ID " ++ id ++ " not found: " ++ str_of_exn e) ;;
               ret no_label)
        else ret no_id_label
    | None => ret no_id_label
    end ;;
  ret (radio_input, option_text).

(** Lines 140-152. *)
Fixpoint extract_options (option_inputs : list elem) : M (list (elem * string)) :=
  match option_inputs with
  | [] => ret []
  | radio_input :: rest =>
      o <- extract_option radio_input ;;
      options_list <- extract_options rest ;;
      ret (o :: options_list)
  end.

Definition option_line (idx : nat) (text : string) : string :=
  "Option " ++ str_of_nat idx ++ ": " ++ text.

(** Lines 155-158, the body of the loop for one option. *)
Definition report_option (idx : nat) (radio_input : elem) (text : string) : M unit :=
  log INFO (option_line idx text) ;;
  highlight radio_input "blue" ;;
  capture_screenshot ("option_" ++ str_of_nat idx ++ "_highlighted") ;;
  sleep 1.

(** Lines 154-158: [for idx, (radio_input, text) in enumerate(options_list, start=idx)]. *)
Fixpoint report_options (options_list : list (elem * string)) (idx : nat) : M unit :=
  match options_list with
  | [] => ret tt
  | (radio_input, text) :: rest =>
      report_option idx radio_input text ;;
      report_options rest (S idx)
  end.

(** [response['choices'][0]['message']['content'].strip()] *)
Definition first_choice (choices : list (option string)) : M string :=
  match choices with
  | [] => throw (Exn "IndexError" "list index out of range")
  | None :: _ => throw (Exn "AttributeError" "'NoneType' object has no attribute 'strip'")
  | Some content :: _ => ret (strip content)
  end.

(** The decision client, lines 161-183. *)
Definition decision_client (rendered_html question_text : string)
    (options_list : list (elem * string)) : M string :=
  let prompt := build_prompt rendered_html question_text options_list in
  log INFO "Sending prompt to OpenAI." ;;
  log DEBUG ("Prompt: " ++ prompt) ;;
  update_overlay "Processing Survey Question..." ;;
  response <- call (EvChat chat_model (chat_messages prompt))
                   (fun h => chat_create w h chat_model (chat_messages prompt)) ;;
  first_choice response.

(** Step 4, lines 161-187. *)
Definition step4_decide (rendered_html question_text : string)
    (options_list : list (elem * string)) : M string :=
  chosen_option <- decision_client rendered_html question_text options_list ;;
  log INFO ("AI Chose: " ++ chosen_option) ;;
  update_overlay ("AI Chose: " ++ chosen_option) ;;
  capture_screenshot "ai_choice_received" ;;
  sleep 2 ;;
  ret chosen_option.

(** Lines 193-198, the branch taken at a match: [found = True; break]. *)
Definition choose_option (radio_input : elem) : M bool :=
  highlight radio_input "green" ;;
  capture_screenshot "chosen_option_highlighted" ;;
  click radio_input ;;
  log INFO "Clicked on the chosen option." ;;
  ret true.

(** The loop of lines 190-198; the result is [found]. *)
Fixpoint match_option (options_list : list (elem * string)) (chosen_option : string) : M bool :=
  match options_list with
  | [] => ret false
  | (radio_input, text) :: rest =>
      if text =? chosen_option then choose_option radio_input
      else match_option rest chosen_option
  end.

(** Step 5, lines 190-202. *)
Definition step5_click_option (options_list : list (elem * string)) (chosen_option : string) : M unit :=
  found <- match_option options_list chosen_option ;;
  if negb found then
    log WARNING not_found_warning ;;
    update_overlay "Chosen option not found!"
  else ret tt.

(** Step 6, lines 205-214. *)
Definition step6_click_next : M unit :=
  try_except
    (next_button <- driver_find_element XPATH next_xpath ;;
     highlight next_button "purple" ;;
     capture_screenshot "next_button_highlighted" ;;
     update_overlay "Clicking Next..." ;;
     click next_button ;;
     log INFO "Clicked the Next button.")
    (fun e =>
       log WARNING ("Could not find the Next button: " ++ str_of_exn e) ;;
       update_overlay "Next button not found!").

(** The action executor: steps 5 and 6. *)
Definition action_executor (options_list : list (elem * string)) (chosen_option : string) : M unit :=
  step5_click_option options_list chosen_option ;;
  step6_click_next.

(** The body of the top-level [try], lines 111-218. *)
Definition workflow : M unit :=
  step1_open_page ;;
  rendered_html <- step2_rendered_html ;;
  question_text <- step3_question ;;
  option_inputs <- driver_find_elements CSS_SELECTOR radio_selector ;;
  options_list <- extract_options option_inputs ;;
  report_options options_list 1 ;;
  chosen_option <- step4_decide rendered_html question_text options_list ;;
  action_executor options_list chosen_option ;;
  sleep 3 ;;
  capture_screenshot "final_state" ;;
  update_overlay "Process Completed".

(** The [except Exception] clause, lines 220-223. *)
Definition on_error (e : exn) : M unit :=
  log ERROR "An error occurred during execution:" ;;
  update_overlay "An error occurred!" ;;
  sleep 3.

(** The [finally] clause, lines 224-226. *)
Definition cleanup : M unit :=
  log INFO "Closing browser..." ;;
  call EvQuit (driver_quit w).

(** Lines 110-226. *)
Definition session : M unit :=
  try_finally (try_except workflow on_error) cleanup.

Definition missing_key_error : string :=
  "OpenAI API key not found. Please set it in the .env file.".

(** The whole module, run on the history [h]. *)
Definition main (h : trace) : termination * trace :=
  match (logging_setup ;; load_api_key) h with
  | (Raised e, d) => (Uncaught e, d)
  | (Ok api_key, d) =>
      if truthy api_key then
        match (launch_browser ;; session) (h ++ d)%list with
        | (Ok _, d') => (Finished, (d ++ d')%list)
        | (Raised e, d') => (Uncaught e, (d ++ d')%list)
        end
      else (SysExit 1, (d ++ [EvLog ERROR missing_key_error])%list)
  end.

End Script.

(** One run of the program in the world [w]. *)
Definition run (w : World) : termination * trace := main w [].

(** ** The overlay scripts in the browser

    The three scripts of [inject_overlay], [update_overlay] and
    [remove_overlay] are JavaScript; their meaning is given here on a
    model of the page.  [update_overlay] builds its script by pasting
    [text] between two double quotes, so the script the browser reads
    depends on how that text lexes as the body of a JavaScript string
    literal. *)

Module JS.

#[local] Unset Elimination Schemes.

Inductive node :=
| TextNode (data : string)
| Element (tag id : string) (style : list (string * string)) (children : list node).

#[local] Set Elimination Schemes.

(** The children of the document node. *)
Definition document := list node.

(** Induction on a node, with the property for the children of an
    element. *)
Fixpoint node_induction (P : node -> Prop)
    (on_text : forall data, P (TextNode data))
    (on_element : forall tag id style children,
        Forall P children -> P (Element tag id style children))
    (n : node) : P n :=
  match n with
  | TextNode data => on_text data
  | Element tag id style children =>
      on_element tag id style children
        ((fix all (l : list node) : Forall P l :=
            match l with
            | [] => Forall_nil P
            | x :: r => Forall_cons x (node_induction P on_text on_element x) (all r)
            end) children)
  end.

(** How a script ends. *)
Inductive completion :=
| Normal (d : document)
| Throw (error : string).

Definition first_some {A B} (f : A -> option B) : list A -> option B :=
  fix go l :=
    match l with
    | [] => None
    | x :: r => match f x with Some y => Some y | None => go r end
    end.

(** Rewrites the first element of the list on which [f] applies. *)
Definition rewrite_first {A} (f : A -> option A) : list A -> option (list A) :=
  fix go l :=
    match l with
    | [] => None
    | x :: r =>
        match f x with
        | Some x' => Some (x' :: r)
        | None => option_map (cons x) (go r)
        end
    end.

Definition has_id (i : string) (n : node) : bool :=
  match n with
  | TextNode _ => false
  | Element _ id _ _ => id =? i
  end.

(** The first element with identifier [i] in document order, in the
    subtree of [n]. *)
Fixpoint find_in_node (i : string) (n : node) : option node :=
  match n with
  | TextNode _ => None
  | Element _ id _ children =>
      if id =? i then Some n else first_some (find_in_node i) children
  end.

(** [document.getElementById(i)] *)
Definition getElementById (d : document) (i : string) : option node :=
  first_some (find_in_node i) d.

(** Gives the first element with identifier [i] in the subtree of [n]
    the children [new]. *)
Fixpoint set_children_in_node (i : string) (new : list node) (n : node) : option node :=
  match n with
  | TextNode _ => None
  | Element tag id style children =>
      if id =? i then Some (Element tag id style new)
      else option_map (Element tag id style)
             (rewrite_first (set_children_in_node i new) children)
  end.

Definition set_children (i : string) (new : list node) (d : document) : option document :=
  rewrite_first (set_children_in_node i new) d.

(** Removes from a list of siblings, or from below one of them, the
    first element with identifier [i] in document order. *)
Definition remove_among (i : string) (below : node -> option node) : list node -> option (list node) :=
  fix go l :=
    match l with
    | [] => None
    | x :: r =>
        if has_id i x then Some r
        else match below x with
             | Some x' => Some (x' :: r)
             | None => option_map (cons x) (go r)
             end
    end.

Fixpoint remove_below (i : string) (n : node) : option node :=
  match n with
  | TextNode _ => None
  | Element tag id style children =>
      option_map (Element tag id style) (remove_among i (remove_below i) children)
  end.

(** [n.parentNode.removeChild(n)] for the [n] that [getElementById(i)]
    returns. *)
Definition remove_element (i : string) (d : document) : option document :=
  remove_among i (remove_below i) d.

Definition is_body (n : node) : bool :=
  match n with
  | TextNode _ => false
  | Element tag _ _ _ => (tag =? "body") || (tag =? "frameset")
  end.

Definition append_child (child : node) (n : node) : option node :=
  match n with
  | TextNode _ => None
  | Element tag id style children => Some (Element tag id style (children ++ [child])%list)
  end.

(** [document.body.appendChild(child)]: the body is the first [body] or
    [frameset] child of the [html] document element; [None] when
    [document.body] is [null]. *)
Definition append_to_body (child : node) (d : document) : option document :=
  rewrite_first
    (fun root =>
       match root with
       | Element "html" id style children =>
           option_map (Element "html" id style)
             (rewrite_first
                (fun n => if is_body n then append_child child n else None)
                children)
       | _ => None
       end)
    d.

(** The element built by the script of [inject_overlay]. *)
Definition overlay_element : node :=
  Element "div" overlay_id
    [ ("position", "fixed"); ("top", "0"); ("left", "0");
      ("width", "100%"); ("height", "100%");
      ("backgroundColor", "rgba(0, 0, 0, 0.5)"); ("color", "white");
      ("fontSize", "24px"); ("display", "flex"); ("alignItems", "center");
      ("justifyContent", "center"); ("zIndex", "9999");
      ("pointerEvents", "none") ]
    [].

(** The result of lexing the body of a double-quoted string literal:
    its value and what follows the closing quote, or the reason why the
    literal has no value here.  A line terminator inside the literal is
    a syntax error; escape sequences are outside this model. *)
Inductive literal_scan :=
| Closed (value rest : string)
| LineBreak
| Escape
| Unterminated.

Fixpoint scan_literal (s : string) : literal_scan :=
  match s with
  | EmptyString => Unterminated
  | String c r =>
      if (c =? "034")%char then Closed "" r
      else if ((c =? "010") || (c =? "013"))%char then LineBreak
      else if (c =? "092")%char then Escape
      else match scan_literal r with
           | Closed value rest => Closed (String c value) rest
           | other => other
           end
  end.

(** A text that the string literal of [update_overlay] receives as it
    is: no double quote, backslash or line terminator. *)
Fixpoint literal_safe (s : string) : bool :=
  match s with
  | EmptyString => true
  | String c r =>
      negb ((c =? "034") || (c =? "010") || (c =? "013") || (c =? "092"))%char
      && literal_safe r
  end.

Fixpoint strip_prefix (p s : string) : option string :=
  match p with
  | EmptyString => Some s
  | String a p' =>
      match s with
      | EmptyString => None
      | String b s' => if (a =? b)%char then strip_prefix p' s' else None
      end
  end.

Section Browser.

(** The browser's HTML fragment parser, which [innerHTML] applies. *)
Variable parse_html : string -> list node.

(** The script of [inject_overlay]. *)
Definition inject_overlay_js (d : document) : completion :=
  match getElementById d overlay_id with
  | Some _ => Normal d
  | None =>
      match append_to_body overlay_element d with
      | Some d' => Normal d'
      | None => Throw "TypeError"
      end
  end.

(** The script of [update_overlay], once its string literal has the
    value [html]. *)
Definition update_overlay_js (html : string) (d : document) : completion :=
  match getElementById d overlay_id with
  | Some _ =>
      match set_children overlay_id (parse_html html) d with
      | Some d' => Normal d'
      | None => Normal d
      end
  | None => Normal d
  end.

(** The script of [remove_overlay]. *)
Definition remove_overlay_js (d : document) : completion :=
  match getElementById d overlay_id with
  | Some _ =>
      match remove_element overlay_id d with
      | Some d' => Normal d'
      | None => Normal d
      end
  | None => Normal d
  end.

(** What the browser does with a script text of the overlay functions;
    [None] for a text outside this model. *)
Definition run_script (script : string) (d : document) : option completion :=
  if script =? inject_overlay_script then Some (inject_overlay_js d)
  else if script =? remove_overlay_script then Some (remove_overlay_js d)
  else
    match strip_prefix (update_overlay_head ++ dquote) script with
    | Some body =>
        match scan_literal body with
        | Closed html rest =>
            if rest =? update_overlay_tail then Some (update_overlay_js html d) else None
        | LineBreak | Unterminated => Some (Throw "SyntaxError")
        | Escape => None
        end
    | None => None
    end.

(** The page after the scripts of the history [h], from the page [d0]. *)
Definition page_after (d0 : document) (h : trace) : document :=
  fold_left
    (fun d ev =>
       match ev with
       | EvScript script _ =>
           match run_script script d with
           | Some (Normal d') => d'
           | _ => d
           end
       | _ => d
       end)
    h d0.

(** The world [base] with a browser that runs the overlay scripts on the
    page, starting from [d0]; a script that throws makes
    [execute_script] raise. *)
Definition with_page (base : World) (d0 : document) : World := {|
  path_exists := path_exists base;
  makedirs := makedirs base;
  now := now base;
  file_handler := file_handler base;
  getenv := getenv base;
  chrome := chrome base;
  maximize_window := maximize_window base;
  driver_get := driver_get base;
  execute_script := fun h script args =>
    match run_script script (page_after d0 h) with
    | Some (Normal _) => Ok "None"
    | Some (Throw error) => Raised (Exn "JavascriptException" error)
    | None => execute_script base h script args
    end;
  find_element := find_element base;
  find_elements := find_elements base;
  get_attribute := get_attribute base;
  elem_text := elem_text base;
  elem_click := elem_click base;
  save_screenshot := save_screenshot base;
  chat_create := chat_create base;
  driver_quit := driver_quit base
|}.

End Browser.

End JS.

(** ** Concrete worlds *)

Module Worlds.

Definition no_such_element : exn :=
  Exn "NoSuchElementException" "no such element: Unable to locate element".

Definition webdriver_exception : exn :=
  Exn "WebDriverException" "invalid session id".

(** The page of the end-to-end scenario: the question "Pick a color",
    three radio buttons labelled Red, Green and Blue, a Next button; the
    model answers Green. *)
Definition colors : World := {|
  path_exists := fun _ _ => true;
  makedirs := fun _ _ => Ok tt;
  now := fun _ => "20240101_120000";
  file_handler := fun _ _ => Ok tt;
  getenv := fun _ => Some "sk-test";
  chrome := fun _ => Ok tt;
  maximize_window := fun _ => Ok tt;
  driver_get := fun _ _ => Ok tt;
  execute_script := fun _ s _ =>
    Ok (if s =? outer_html_script then "<html><body></body></html>" else "None");
  find_element := fun _ _ sel =>
    if sel =? question_selector then Ok 100
    else if sel =? label_selector "c1" then Ok 11
    else if sel =? label_selector "c2" then Ok 12
    else if sel =? label_selector "c3" then Ok 13
    else if sel =? next_xpath then Ok 200
    else Raised no_such_element;
  find_elements := fun _ _ _ => Ok [1; 2; 3];
  get_attribute := fun _ e _ =>
    Ok (match e with
        | 1 => Some "c1"
        | 2 => Some "c2"
        | 3 => Some "c3"
        | _ => None
        end);
  elem_text := fun _ e =>
    Ok (match e with
        | 100 => "Pick a color"
        | 11 => "Red"
        | 12 => " Green "
        | 13 => "Blue"
        | _ => ""
        end);
  elem_click := fun _ _ => Ok tt;
  save_screenshot := fun _ _ => Ok true;
  chat_create := fun _ _ _ => Ok [Some ("Green" ++ nl)];
  driver_quit := fun _ => Ok tt
|}.

(** The same page, on which the model answers [content]. *)
Definition answering (content : string) : World := {|
  path_exists := path_exists colors;
  makedirs := makedirs colors;
  now := now colors;
  file_handler := file_handler colors;
  getenv := getenv colors;
  chrome := chrome colors;
  maximize_window := maximize_window colors;
  driver_get := driver_get colors;
  execute_script := execute_script colors;
  find_element := find_element colors;
  find_elements := find_elements colors;
  get_attribute := get_attribute colors;
  elem_text := elem_text colors;
  elem_click := elem_click colors;
  save_screenshot := save_screenshot colors;
  chat_create := fun _ _ _ => Ok [Some content];
  driver_quit := driver_quit colors
|}.

(** No API key in the environment. *)
Definition no_key : World := {|
  path_exists := path_exists colors;
  makedirs := makedirs colors;
  now := now colors;
  file_handler := file_handler colors;
  getenv := fun _ => None;
  chrome := chrome colors;
  maximize_window := maximize_window colors;
  driver_get := driver_get colors;
  execute_script := execute_script colors;
  find_element := find_element colors;
  find_elements := find_elements colors;
  get_attribute := get_attribute colors;
  elem_text := elem_text colors;
  elem_click := elem_click colors;
  save_screenshot := save_screenshot colors;
  chat_create := chat_create colors;
  driver_quit := driver_quit colors
|}.

(** The browser starts, and then every call to the driver but
    [quit()] raises: the session is lost right after the launch. *)
Definition lost_session : World := {|
  path_exists := path_exists colors;
  makedirs := makedirs colors;
  now := now colors;
  file_handler := file_handler colors;
  getenv := getenv colors;
  chrome := chrome colors;
  maximize_window := maximize_window colors;
  driver_get := fun _ _ => Raised webdriver_exception;
  execute_script := fun _ _ _ => Raised webdriver_exception;
  find_element := fun _ _ _ => Raised webdriver_exception;
  find_elements := fun _ _ _ => Raised webdriver_exception;
  get_attribute := fun _ _ _ => Raised webdriver_exception;
  elem_text := fun _ _ => Raised webdriver_exception;
  elem_click := fun _ _ => Raised webdriver_exception;
  save_screenshot := fun _ _ => Raised webdriver_exception;
  chat_create := chat_create colors;
  driver_quit := driver_quit colors
|}.

(** Three controls: the first has a label, the second an identifier
    without label element, the third no identifier. *)
Definition unlabeled : World := {|
  path_exists := path_exists colors;
  makedirs := makedirs colors;
  now := now colors;
  file_handler := file_handler colors;
  getenv := getenv colors;
  chrome := chrome colors;
  maximize_window := maximize_window colors;
  driver_get := driver_get colors;
  execute_script := execute_script colors;
  find_element := fun _ _ sel =>
    if sel =? question_selector then Ok 100
    else if sel =? label_selector "c1" then Ok 11
    else if sel =? next_xpath then Ok 200
    else Raised no_such_element;
  find_elements := find_elements colors;
  get_attribute := fun _ e _ =>
    Ok (match e with
        | 1 => Some "c1"
        | 2 => Some "c2"
        | _ => None
        end);
  elem_text := elem_text colors;
  elem_click := elem_click colors;
  save_screenshot := save_screenshot colors;
  chat_create := chat_create colors;
  driver_quit := driver_quit colors
|}.

(** Four options, two of them with the same label. *)
Definition palette : list (elem * string) :=
  [ (1, "Red"); (2, "Green"); (3, "Blue"); (4, "Green") ].

(** A fragment parser that keeps the markup as one text node. *)
Definition text_only (html : string) : list JS.node := [JS.TextNode html].

(** The survey page as a document. *)
Definition survey_page : JS.document :=
  [ JS.Element "html" "" []
      [ JS.Element "head" "" [] [];
        JS.Element "body" "" []
          [ JS.Element "p" "" [] [JS.TextNode "Pick a color"];
            JS.Element "input" "c1" [] [];
            JS.Element "label" "" [] [JS.TextNode "Red"];
            JS.Element "input" "c2" [] [];
            JS.Element "label" "" [] [JS.TextNode "Green"];
            JS.Element "input" "c3" [] [];
            JS.Element "label" "" [] [JS.TextNode "Blue"];
            JS.Element "button" "" [] [JS.TextNode "Next"] ] ] ].

(** An answer in two lines. *)
Definition two_lines : string := "Green" ++ nl ++ "It is the calmest color.".

(** The survey page in a browser that runs the overlay scripts, with a
    model that answers in two lines. *)
Definition chatty : World := JS.with_page text_only (answering two_lines) survey_page.

(** The same browser, with the model that answers Green. *)
Definition scripted : World := JS.with_page text_only colors survey_page.

(** The browser starts, and its window cannot be maximized. *)
Definition stuck_window : World := {|
  path_exists := path_exists colors;
  makedirs := makedirs colors;
  now := now colors;
  file_handler := file_handler colors;
  getenv := getenv colors;
  chrome := chrome colors;
  maximize_window := fun _ => Raised webdriver_exception;
  driver_get := driver_get colors;
  execute_script := execute_script colors;
  find_element := find_element colors;
  find_elements := find_elements colors;
  get_attribute := get_attribute colors;
  elem_text := elem_text colors;
  elem_click := elem_click colors;
  save_screenshot := save_screenshot colors;
  chat_create := chat_create colors;
  driver_quit := driver_quit colors
|}.

(** A page without question element. *)
Definition no_question : World := {|
  path_exists := path_exists colors;
  makedirs := makedirs colors;
  now := now colors;
  file_handler := file_handler colors;
  getenv := getenv colors;
  chrome := chrome colors;
  maximize_window := maximize_window colors;
  driver_get := driver_get colors;
  execute_script := execute_script colors;
  find_element := fun _ _ sel =>
    if sel =? question_selector then Raised no_such_element
    else find_element colors [] CSS_SELECTOR sel;
  find_elements := find_elements colors;
  get_attribute := get_attribute colors;
  elem_text := elem_text colors;
  elem_click := elem_click colors;
  save_screenshot := save_screenshot colors;
  chat_create := chat_create colors;
  driver_quit := driver_quit colors
|}.

(** The completion service returns no choice. *)
Definition silent_model : World := {|
  path_exists := path_exists colors;
  makedirs := makedirs colors;
  now := now colors;
  file_handler := file_handler colors;
  getenv := getenv colors;
  chrome := chrome colors;
  maximize_window := maximize_window colors;
  driver_get := driver_get colors;
  execute_script := execute_script colors;
  find_element := find_element colors;
  find_elements := find_elements colors;
  get_attribute := get_attribute colors;
  elem_text := elem_text colors;
  elem_click := elem_click colors;
  save_screenshot := save_screenshot colors;
  chat_create := fun _ _ _ => Ok [];
  driver_quit := driver_quit colors
|}.

(** A page without Next control. *)
Definition no_next : World := {|
  path_exists := path_exists colors;
  makedirs := makedirs colors;
  now := now colors;
  file_handler := file_handler colors;
  getenv := getenv colors;
  chrome := chrome colors;
  maximize_window := maximize_window colors;
  driver_get := driver_get colors;
  execute_script := execute_script colors;
  find_element := fun _ _ sel =>
    if sel =? next_xpath then Raised no_such_element
    else find_element colors [] CSS_SELECTOR sel;
  find_elements := find_elements colors;
  get_attribute := get_attribute colors;
  elem_text := elem_text colors;
  elem_click := elem_click colors;
  save_screenshot := save_screenshot colors;
  chat_create := chat_create colors;
  driver_quit := driver_quit colors
|}.

(** The screenshot cannot be written: [save_screenshot] returns [False]. *)
Definition full_disk : World := {|
  path_exists := path_exists colors;
  makedirs := makedirs colors;
  now := now colors;
  file_handler := file_handler colors;
  getenv := getenv colors;
  chrome := chrome colors;
  maximize_window := maximize_window colors;
  driver_get := driver_get colors;
  execute_script := execute_script colors;
  find_element := find_element colors;
  find_elements := find_elements colors;
  get_attribute := get_attribute colors;
  elem_text := elem_text colors;
  elem_click := elem_click colors;
  save_screenshot := fun _ _ => Ok false;
  chat_create := chat_create colors;
  driver_quit := driver_quit colors
|}.

(** No screenshot directory, and none can be created. *)
Definition read_only_disk : World := {|
  path_exists := fun _ _ => false;
  makedirs := fun _ _ => Raised (Exn "PermissionError" "[Errno 13] Permission denied");
  now := now colors;
  file_handler := file_handler colors;
  getenv := getenv colors;
  chrome := chrome colors;
  maximize_window := maximize_window colors;
  driver_get := driver_get colors;
  execute_script := execute_script colors;
  find_element := find_element colors;
  find_elements := find_elements colors;
  get_attribute := get_attribute colors;
  elem_text := elem_text colors;
  elem_click := elem_click colors;
  save_screenshot := save_screenshot colors;
  chat_create := chat_create colors;
  driver_quit := driver_quit colors
|}.

(** The survey page once the overlay is injected. *)
Definition survey_page_with_overlay : JS.document :=
  match JS.inject_overlay_js survey_page with
  | JS.Normal d => d
  | JS.Throw _ => survey_page
  end.

End Worlds.

(** ** Reading a trace *)

Local Open Scope list_scope.

(** The elements on which [click()] was invoked, in order. *)
Definition clicked (d : trace) : list elem :=
  flat_map (fun ev => match ev with EvClick e => [e] | _ => [] end) d.

Definition is_quit (ev : event) : bool :=
  match ev with EvQuit => true | _ => false end.

(** The number of invocations of [driver.quit()]. *)
Definition quits (d : trace) : nat := length (filter is_quit d).

(** The calls that go to the Selenium driver. *)
Definition is_driver_event (ev : event) : bool :=
  match ev with
  | EvChrome | EvMaximize | EvGet _ | EvScript _ _ | EvFindElement _ _
  | EvFindElements _ _ | EvGetAttribute _ _ | EvText _ | EvClick _
  | EvSaveScreenshot _ | EvQuit => true
  | _ => false
  end.

Definition is_chat (ev : event) : bool :=
  match ev with EvChat _ _ => true | _ => false end.

(** The chat completion requests, in order. *)
Definition chats (d : trace) : list event := filter is_chat d.

(** The elements given a border of [color] by [highlight], in order. *)
Definition highlighted (color : string) (d : trace) : list elem :=
  flat_map
    (fun ev =>
       match ev with
       | EvScript script [e] => if (script =? highlight_script color)%string then [e] else []
       | _ => []
       end)
    d.

(** The [Option idx: text] lines logged, in order. *)
Definition reported (d : trace) : list string :=
  flat_map
    (fun ev =>
       match ev with
       | EvLog INFO msg => if startswith "Option " msg then [msg] else []
       | _ => []
       end)
    d.

(** The lines that the loop of lines 154-158 is to log for a list of
    options, numbered from [idx]. *)
Fixpoint option_lines (options_list : list (elem * string)) (idx : nat) : list string :=
  match options_list with
  | [] => []
  | (_, text) :: rest => option_line idx text :: option_lines rest (S idx)
  end.

(** The result of the [try] body in the run of [w], when the run gets
    there. *)
Definition workflow_result (w : World) : option (outcome unit * trace) :=
  match (logging_setup w ;; load_api_key w) [] with
  | (Ok api_key, d) =>
      if truthy api_key then
        match launch_browser w d with
        | (Ok _, d') => Some (workflow w (d ++ d'))
        | (Raised _, _) => None
        end
      else None
  | (Raised _, _) => None
  end.

(** ** Conditions on a world *)

(** The attribute read of a control always returns. *)
Definition readable (w : World) (radio : elem) : Prop :=
  forall h, exists v, get_attribute w h radio "id" = Ok v.

(** The control has no identifier: the attribute is [None] or empty. *)
Definition without_id (w : World) (radio : elem) : Prop :=
  forall h, exists v, get_attribute w h radio "id" = Ok v /\ truthy v = false.

(** The control has an identifier, and no label element for it is
    found. *)
Definition id_without_label (w : World) (radio : elem) : Prop :=
  exists id,
    id <> ""%string
    /\ (forall h, get_attribute w h radio "id" = Ok (Some id))
    /\ (forall h, exists e, find_element w h CSS_SELECTOR (label_selector id) = Raised e).

(** The log directory and the log file can be set up. *)
Definition logging_starts (w : World) : Prop := fst (logging_setup w []) = Ok tt.

(** The Chrome session starts and its window can be maximized. *)
Definition driver_starts (w : World) : Prop :=
  forall h, chrome w h = Ok tt /\ maximize_window w h = Ok tt.

(** The overlay update of the [except] clause does not raise. *)
Definition error_banner_succeeds (w : World) : Prop :=
  forall h, exists v,
    execute_script w h (update_overlay_script "An error occurred!") [] = Ok v.

(** [driver.quit()] does not raise. *)
Definition quit_succeeds (w : World) : Prop := forall h, driver_quit w h = Ok tt.

(** The scripts of the three overlay functions. *)
Definition overlay_script (s : string) : Prop :=
  s = inject_overlay_script \/ s = remove_overlay_script
  \/ exists text, s = update_overlay_script text.

(** [m] stops at a script without arguments that raises, with that
    exception, unless the script is the overlay update of step 6, which
    sits inside the [try] of that step. *)
Definition stops_at_failed_script (w : World) {A} (m : M A) : Prop :=
  forall h d' s d'' e,
    snd (m h) = d' ++ EvScript s [] :: d'' ->
    execute_script w (h ++ d') s [] = Raised e ->
    (d'' = [] /\ fst (m h) = Raised e)
    \/ s = update_overlay_script "Clicking Next...".

Definition not_plain_script (ev : event) : Prop := forall s, ev <> EvScript s [].

Definition plain_script_is_next_banner (ev : event) : Prop :=
  forall s, ev = EvScript s [] -> s = update_overlay_script "Clicking Next...".

(** [emits P m]: whatever the history and the world's answers, [m]
    makes only calls that satisfy [P]. *)
Definition emits {A} (P : event -> Prop) (m : M A) : Prop :=
  forall h, Forall P (snd (m h)).

(** ** Counting calls *)

Definition is_get (ev : event) : bool :=
  match ev with EvGet _ => true | _ => false end.

Definition is_click (ev : event) : bool :=
  match ev with EvClick _ => true | _ => false end.

(** The addresses given to [driver.get], in order. *)
Definition navigations (d : trace) : list string :=
  flat_map (fun ev => match ev with EvGet u => [u] | _ => [] end) d.

(** The number of calls of a kind in a trace. *)
Definition calls (kind : event -> bool) (d : trace) : nat := length (filter kind d).

(** [m] makes at most [n] calls of a kind, whatever the world answers. *)
Definition at_most (kind : event -> bool) (n : nat) {A} (m : M A) : Prop :=
  forall h, calls kind (snd (m h)) <= n.

(** The calls that only read the page or write the log. *)
Definition is_lookup (ev : event) : bool :=
  match ev with
  | EvGetAttribute _ _ | EvFindElement _ _ | EvText _ | EvLog _ _ => true
  | _ => false
  end.

(** No element matches the selector of the question. *)
Definition question_missing (w : World) : Prop :=
  forall h, exists e, find_element w h CSS_SELECTOR question_selector = Raised e.

(** The completion service never returns a first choice with a content. *)
Definition no_usable_choice (w : World) : Prop :=
  forall h model messages content rest,
    chat_create w h model messages <> Ok (Some content :: rest).

(** The overlay update of the handler of step 6 does not raise. *)
Definition next_banner_succeeds (w : World) : Prop :=
  forall h, exists v,
    execute_script w h (update_overlay_script "Next button not found!") [] = Ok v.

(** A navigation, if the call is one, goes to the survey. *)
Definition only_survey_url (ev : event) : Prop := forall u, ev = EvGet u -> u = url.

(** [m] ends with an exception, whatever the history. *)
Definition never_returns {A} (m : M A) : Prop :=
  forall h, exists e, fst (m h) = Raised e.

(** The controls whose [id] attribute was read, in order. *)
Definition attribute_reads (d : trace) : list elem :=
  flat_map (fun ev => match ev with EvGetAttribute e _ => [e] | _ => [] end) d.

(** The window of the browser cannot be maximized. *)
Definition maximize_fails (w : World) (e : exn) : Prop :=
  (forall h, chrome w h = Ok tt) /\ (forall h, maximize_window w h = Raised e).

(** The call is neither a completion request nor a click. *)
Definition no_chat_no_click (ev : event) : Prop :=
  is_chat ev = false /\ is_click ev = false.

(** The label lookups of the extraction, in order. *)
Definition label_lookups (d : trace) : list string :=
  flat_map (fun ev => match ev with EvFindElement CSS_SELECTOR sel => [sel] | _ => [] end) d.

(** [m] returns, whatever the history. *)
Definition returns {A} (m : M A) : Prop :=
  forall h, exists a d, m h = (Ok a, d).

(** A world in which the run meets no failure: the file system, the
    driver and the completion service answer every call, the question
    and the Next control are found, and the service returns a first
    choice with a content.  Label lookups may still fail. *)
Record cooperates (w : World) : Prop := {
  coop_makedirs : forall h p, makedirs w h p = Ok tt;
  coop_file_handler : forall h p, file_handler w h p = Ok tt;
  coop_chrome : forall h, chrome w h = Ok tt;
  coop_maximize : forall h, maximize_window w h = Ok tt;
  coop_get : forall h u, driver_get w h u = Ok tt;
  coop_script : forall h s args, exists v, execute_script w h s args = Ok v;
  coop_question : forall h, exists e, find_element w h CSS_SELECTOR question_selector = Ok e;
  coop_next : forall h, exists e, find_element w h XPATH next_xpath = Ok e;
  coop_controls : forall h b sel, exists l, find_elements w h b sel = Ok l;
  coop_attribute : forall h e name, exists v, get_attribute w h e name = Ok v;
  coop_text : forall h e, exists t, elem_text w h e = Ok t;
  coop_click : forall h e, elem_click w h e = Ok tt;
  coop_screenshot : forall h file, exists b, save_screenshot w h file = Ok b;
  coop_chat : forall h model messages,
      exists content rest, chat_create w h model messages = Ok (Some content :: rest);
  coop_quit : forall h, driver_quit w h = Ok tt
}.

(** The call is not a click. *)
Definition no_click (ev : event) : Prop := forall e, ev <> EvClick e.

(** [m] returns [a], whatever the history. *)
Definition returns_value {A} (a : A) (m : M A) : Prop :=
  forall h, exists d, m h = (Ok a, d).

(** ** General facts about computations *)

Lemma run_bind {A B} (m : M A) (k : A -> M B) (h : trace) :
  (x <- m ;; k x) h =
  match m h with
  | (Ok a, d1) => let (r, d2) := k a (h ++ d1) in (r, d1 ++ d2)
  | (Raised e, d1) => (Raised e, d1)
  end.
Proof. reflexivity. Qed.

Arguments clicked : simpl never.
Arguments quits : simpl never.
Arguments highlighted : simpl never.
Arguments reported : simpl never.

Lemma clicked_app d1 d2 : clicked (d1 ++ d2) = clicked d1 ++ clicked d2.
Proof. apply flat_map_app. Qed.

Section Emits.

Variable P : event -> Prop.

Lemma emits_ret {A} (a : A) : emits P (ret a).
Proof. intros h. constructor. Qed.

Lemma emits_throw {A} (e : exn) : emits P (@throw A e).
Proof. intros h. constructor. Qed.

Lemma emits_call {A} ev (f : trace -> outcome A) : P ev -> emits P (call ev f).
Proof. intros H h. repeat constructor. exact H. Qed.

Lemma emits_emit ev : P ev -> emits P (emit ev).
Proof. intros H h. repeat constructor. exact H. Qed.

Lemma emits_bind {A B} (m : M A) (k : A -> M B) :
  emits P m -> (forall a, emits P (k a)) -> emits P (x <- m ;; k x).
Proof.
  intros Hm Hk h. rewrite run_bind. specialize (Hm h).
  destruct (m h) as [[a|e] d1]; simpl in *; auto.
  specialize (Hk a (h ++ d1)). destruct (k a (h ++ d1)) as [r d2]; simpl in *.
  apply Forall_app; auto.
Qed.

Lemma emits_try_except {A} (m : M A) (handler : exn -> M A) :
  emits P m -> (forall e, emits P (handler e)) -> emits P (try_except m handler).
Proof.
  intros Hm Hk h. unfold try_except. specialize (Hm h).
  destruct (m h) as [[a|e] d1]; simpl in *; auto.
  specialize (Hk e (h ++ d1)). destruct (handler e (h ++ d1)) as [r d2]; simpl in *.
  apply Forall_app; auto.
Qed.

Lemma emits_try_finally {A} (m : M A) (c : M unit) :
  emits P m -> emits P c -> emits P (try_finally m c).
Proof.
  intros Hm Hc h. unfold try_finally. specialize (Hm h).
  destruct (m h) as [r d1]; simpl in *.
  specialize (Hc (h ++ d1)). destruct (c (h ++ d1)) as [[u|e] d2]; simpl in *;
    apply Forall_app; auto.
Qed.

End Emits.

Create HintDb script.

#[export] Hint Unfold log sleep exec_script driver_find_element driver_find_elements
  click text_of ensure_dir timestamp capture_screenshot update_overlay
  inject_overlay remove_overlay scroll_page highlight logging_setup load_api_key
  launch_browser step1_open_page step2_rendered_html step3_question
  extract_option report_option first_choice decision_client step4_decide choose_option
  step5_click_option step6_click_next action_executor on_error cleanup : script.

(** Reduces [emits P m], for an [m] without loops, to [P] of each call
    that [m] can make. *)
Ltac emits_tac :=
  repeat first
    [ apply emits_ret | apply emits_throw
    | apply emits_bind; [| intros ?]
    | apply emits_try_except; [| intros ?]
    | apply emits_try_finally
    | apply emits_call | apply emits_emit
    | match goal with
      | |- emits _ (if ?b then _ else _) => destruct b
      | |- emits _ (match ?x with _ => _ end) => destruct x
      end
    | progress autounfold with script ].

(** Unfolds one more [match] on an answer of the world. *)
Ltac answer_cases :=
  repeat match goal with
         | |- context [match ?x with _ => _ end] =>
             lazymatch x with
             | context [match _ with _ => _ end] => fail
             | _ => destruct x eqn:?
             end; simpl
         end.

(** ** The action executor *)

Section Executor.

Variable w : World.

Lemma match_option_skip pre rest chosen_option :
  Forall (fun o : elem * string => snd o <> chosen_option) pre ->
  match_option w (pre ++ rest) chosen_option = match_option w rest chosen_option.
Proof.
  induction 1 as [|[radio text] pre Hne _ IH]; simpl; [reflexivity|].
  destruct (String.eqb_spec text chosen_option) as [->|_]; [now elim Hne|exact IH].
Qed.

Lemma match_option_first pre radio post chosen_option :
  Forall (fun o : elem * string => snd o <> chosen_option) pre ->
  match_option w (pre ++ (radio, chosen_option) :: post) chosen_option
  = choose_option w radio.
Proof.
  intros H. rewrite match_option_skip by exact H. simpl.
  now rewrite String.eqb_refl.
Qed.

Lemma match_option_none options_list chosen_option :
  ~ In chosen_option (map snd options_list) ->
  match_option w options_list chosen_option = ret false.
Proof.
  intros H. rewrite <- (app_nil_r options_list), match_option_skip; [reflexivity|].
  apply Forall_forall. intros o Ho E. apply H, in_map_iff. now exists o.
Qed.

Lemma first_occurrence (options_list : list (elem * string)) chosen_option :
  In chosen_option (map snd options_list) ->
  exists pre radio post,
    options_list = pre ++ (radio, chosen_option) :: post
    /\ Forall (fun o : elem * string => snd o <> chosen_option) pre.
Proof.
  induction options_list as [|[radio text] rest IH]; simpl; [tauto|].
  intros H. destruct (String.eqb_spec text chosen_option) as [->|Hne].
  - exists [], radio, rest. split; [reflexivity|constructor].
  - destruct IH as (pre & r & post & -> & Hpre); [destruct H; [contradiction|assumption]|].
    exists ((radio, text) :: pre), r, post. split; [reflexivity|].
    constructor; assumption.
Qed.

Lemma capture_screenshot_clicked name h :
  clicked (snd (capture_screenshot w name h)) = [].
Proof.
  unfold capture_screenshot, ensure_dir, timestamp, log, call, emit.
  simpl. unfold mbind. simpl. answer_cases; reflexivity.
Qed.

Lemma highlight_clicked e color h :
  clicked (snd (highlight w e color h)) = [].
Proof.
  unfold highlight, exec_script, log, call, emit. simpl. unfold mbind.
  answer_cases; reflexivity.
Qed.

Lemma update_overlay_run text h :
  update_overlay w text h
  = (match execute_script w h (update_overlay_script text) [] with
     | Ok _ => Ok tt
     | Raised e => Raised e
     end,
     [EvScript (update_overlay_script text) []]).
Proof.
  unfold update_overlay, exec_script, call. simpl. unfold mbind.
  destruct (execute_script w h _ _); reflexivity.
Qed.

Lemma choose_option_clicked radio h :
  clicked (snd (choose_option w radio h)) = []
  \/ clicked (snd (choose_option w radio h)) = [radio].
Proof.
  unfold choose_option. rewrite run_bind.
  pose proof (highlight_clicked radio "green" h) as Hh.
  destruct (highlight w radio "green" h) as [[[]|e] d1]; cbn [fst snd] in *;
    [|left; exact Hh].
  rewrite run_bind.
  pose proof (capture_screenshot_clicked "chosen_option_highlighted" (h ++ d1)) as Hc.
  destruct (capture_screenshot w _ (h ++ d1)) as [[[]|e] d2]; cbn [fst snd] in *;
    [|left; now rewrite clicked_app, Hh, Hc].
  right. unfold click, log, call, emit. rewrite !run_bind.
  destruct (elem_click w _ radio) as [[]|e]; simpl;
    rewrite !clicked_app, Hh, Hc; reflexivity.
Qed.

Lemma choose_option_clicks radio h d0 :
  (highlight w radio "green" ;; capture_screenshot w "chosen_option_highlighted") h
  = (Ok tt, d0) ->
  clicked (snd (choose_option w radio h)) = [radio].
Proof.
  unfold choose_option. rewrite !run_bind.
  pose proof (highlight_clicked radio "green" h) as Hh.
  destruct (highlight w radio "green" h) as [[[]|e] d1]; cbn [fst snd] in *;
    [|discriminate].
  pose proof (capture_screenshot_clicked "chosen_option_highlighted" (h ++ d1)) as Hc.
  rewrite run_bind.
  destruct (capture_screenshot w _ (h ++ d1)) as [[[]|e] d2]; cbn [fst snd] in *;
    [|discriminate].
  intros _. unfold click, log, call, emit. rewrite !run_bind.
  destruct (elem_click w _ radio) as [[]|e]; simpl;
    rewrite !clicked_app, Hh, Hc; reflexivity.
Qed.

Lemma clicked_In d e : In e (clicked d) <-> In (EvClick e) d.
Proof.
  unfold clicked. rewrite in_flat_map. split.
  - intros (ev & Hev & He). destruct ev; simpl in He; try contradiction.
    destruct He as [->|[]]. exact Hev.
  - intros H. exists (EvClick e). split; [exact H|now left].
Qed.

Lemma no_click_clicked d :
  Forall (fun ev => forall e, ev <> EvClick e) d -> clicked d = [].
Proof.
  intros H. destruct (clicked d) as [|e l] eqn:E; [reflexivity|].
  assert (Hin : In e (clicked d)) by (rewrite E; now left).
  apply clicked_In in Hin. rewrite Forall_forall in H. now elim (H _ Hin e).
Qed.

Lemma step6_click_next_shape h :
  exists d6,
    snd (step6_click_next w h) = EvFindElement XPATH next_xpath :: d6
    /\ (forall e, In e (clicked d6) -> find_element w h XPATH next_xpath = Ok e).
Proof.
  unfold step6_click_next, try_except. rewrite run_bind.
  unfold driver_find_element at 1, call.
  destruct (find_element w h XPATH next_xpath) as [b|e0] eqn:Efind.
  - set (P := fun ev => forall e, ev = EvClick e -> e = b).
    assert (Hbody : emits P
              (highlight w b "purple" ;;
               capture_screenshot w "next_button_highlighted" ;;
               update_overlay w "Clicking Next..." ;;
               click w b ;;
               log INFO "Clicked the Next button."))
      by (emits_tac; subst P; simpl; congruence).
    specialize (Hbody (h ++ [EvFindElement XPATH next_xpath])).
    match type of Hbody with Forall _ (snd ?x) => destruct x as [[[]|e1] d2] end;
      simpl in Hbody.
    + exists d2. split; [reflexivity|].
      intros e He. apply clicked_In in He. rewrite Forall_forall in Hbody.
      now rewrite (Hbody _ He e eq_refl).
    + assert (Hh : emits P
                (log WARNING ("Could not find the Next button: " ++ str_of_exn e1)%string ;;
                 update_overlay w "Next button not found!"))
        by (emits_tac; subst P; simpl; congruence).
      specialize (Hh (h ++ [EvFindElement XPATH next_xpath] ++ d2)).
      match type of Hh with Forall _ (snd ?x) => destruct x as [r3 d3] end.
      simpl in Hh. exists (d2 ++ d3). split; [reflexivity|].
      intros e He. apply clicked_In in He.
      assert (Hall : Forall P (d2 ++ d3)) by (apply Forall_app; now split).
      rewrite Forall_forall in Hall.
      now rewrite (Hall _ He e eq_refl).
  - assert (Hh : emits (fun ev => forall e, ev <> EvClick e)
              (log WARNING ("Could not find the Next button: " ++ str_of_exn e0)%string ;;
               update_overlay w "Next button not found!"))
      by (emits_tac; simpl; congruence).
    specialize (Hh (h ++ [EvFindElement XPATH next_xpath])).
    match type of Hh with Forall _ (snd ?x) => destruct x as [r3 d3] end.
    simpl in Hh. exists d3. split; [reflexivity|].
    intros e He. rewrite (no_click_clicked _ Hh) in He. destruct He.
Qed.

Lemma choose_option_found radio h found d :
  choose_option w radio h = (Ok found, d) -> found = true.
Proof.
  unfold choose_option. rewrite run_bind.
  destruct (highlight w radio "green" h) as [[[]|e] d1]; [|discriminate].
  rewrite run_bind.
  destruct (capture_screenshot w _ (h ++ d1)) as [[[]|e] d2]; [|discriminate].
  rewrite run_bind. unfold click, call.
  destruct (elem_click w _ radio) as [[]|e]; [|discriminate].
  now intros [= <- _].
Qed.

(** Step 5 at a match: the body of the loop at the first matching
    option, and no warning. *)
Lemma step5_at_match pre radio post chosen_option h :
  Forall (fun o : elem * string => snd o <> chosen_option) pre ->
  step5_click_option w (pre ++ (radio, chosen_option) :: post) chosen_option h
  = (match fst (choose_option w radio h) with
     | Ok _ => Ok tt
     | Raised e => Raised e
     end,
     snd (choose_option w radio h)).
Proof.
  intros Hpre. unfold step5_click_option.
  rewrite run_bind, (match_option_first _ _ _ _ Hpre).
  destruct (choose_option w radio h) as [[found|e] d] eqn:E; [|reflexivity].
  apply choose_option_found in E. subst found. simpl. now rewrite app_nil_r.
Qed.

Lemma choose_option_trace radio h d0 :
  (highlight w radio "green" ;; capture_screenshot w "chosen_option_highlighted") h
  = (Ok tt, d0) ->
  exists d5, snd (choose_option w radio h) = d0 ++ EvClick radio :: d5.
Proof.
  unfold choose_option. rewrite !run_bind.
  destruct (highlight w radio "green" h) as [[[]|e] d1]; [|discriminate].
  rewrite !run_bind.
  destruct (capture_screenshot w _ (h ++ d1)) as [[[]|e] d2]; [|discriminate].
  intros [= <-]. rewrite run_bind. unfold click, log, call, emit.
  destruct (elem_click w _ radio) as [[]|e]; simpl; rewrite app_assoc;
    now eexists.
Qed.

(** What the executor does after step 5: nothing when step 5 raised,
    step 6 otherwise, whose clicks are on the control that its lookup
    returned. *)
Lemma executor_after_step5 options_list chosen_option h :
  exists d6,
    snd (action_executor w options_list chosen_option h)
    = snd (step5_click_option w options_list chosen_option h) ++ d6
    /\ (forall e, In e (clicked d6) ->
                  find_element w (h ++ snd (step5_click_option w options_list chosen_option h))
                    XPATH next_xpath = Ok e).
Proof.
  unfold action_executor. rewrite run_bind.
  destruct (step5_click_option w options_list chosen_option h) as [[[]|e5] d5]; simpl.
  - destruct (step6_click_next_shape (h ++ d5)) as (d6 & E6 & Hc).
    destruct (step6_click_next w (h ++ d5)) as [r6 d6']. simpl in *. subst d6'.
    exists (EvFindElement XPATH next_xpath :: d6). split; [reflexivity|].
    intros b He. apply Hc. apply clicked_In in He. apply clicked_In.
    destruct He as [He|He]; [discriminate He|exact He].
  - exists []. rewrite app_nil_r. split; [reflexivity|]. intros e [].
Qed.

Lemma step6_click_next_found h b d :
  find_element w h XPATH next_xpath = Ok b ->
  (highlight w b "purple" ;;
   capture_screenshot w "next_button_highlighted" ;;
   update_overlay w "Clicking Next...") (h ++ [EvFindElement XPATH next_xpath])
  = (Ok tt, d) ->
  (exists rest,
      snd (step6_click_next w h) = EvFindElement XPATH next_xpath :: d ++ EvClick b :: rest)
  /\ clicked (snd (step6_click_next w h)) = [b].
Proof.
  intros Hfind Hbody.
  assert (Hq : emits no_click (highlight w b "purple" ;;
                               capture_screenshot w "next_button_highlighted" ;;
                               update_overlay w "Clicking Next..."))
    by (emits_tac; intros e; discriminate).
  specialize (Hq (h ++ [EvFindElement XPATH next_xpath])). rewrite Hbody in Hq.
  simpl in Hq. apply no_click_clicked in Hq.
  assert (E : (highlight w b "purple" ;;
               capture_screenshot w "next_button_highlighted" ;;
               update_overlay w "Clicking Next..." ;;
               click w b ;;
               log INFO "Clicked the Next button.")
                (h ++ [EvFindElement XPATH next_xpath])
              = match elem_click w ((h ++ [EvFindElement XPATH next_xpath]) ++ d) b with
                | Ok _ => (Ok tt, d ++ [EvClick b; EvLog INFO "Clicked the Next button."])
                | Raised e => (Raised e, d ++ [EvClick b])
                end).
  { revert Hbody. rewrite !run_bind.
    destruct (highlight w b "purple" _) as [[[]|e] da]; [|discriminate].
    rewrite !run_bind.
    destruct (capture_screenshot w _ _) as [[[]|e] db]; [|discriminate].
    rewrite !run_bind.
    destruct (update_overlay w _ _) as [[[]|e] dc]; [|discriminate].
    intros [= <-]. unfold click, log, call, emit. rewrite run_bind.
    rewrite <- !app_assoc.
    destruct (elem_click w _ b) as [[]|e]; simpl; reflexivity. }
  destruct (elem_click w _ b) as [[]|e].
  - assert (E6 : snd (step6_click_next w h)
                 = [EvFindElement XPATH next_xpath]
                   ++ d ++ [EvClick b; EvLog INFO "Clicked the Next button."]).
    { unfold step6_click_next, try_except. rewrite run_bind.
      unfold driver_find_element at 1, call. rewrite Hfind, E. reflexivity. }
    rewrite E6. split; [now eexists|].
    rewrite !clicked_app, Hq. reflexivity.
  - assert (E6 : snd (step6_click_next w h)
                 = [EvFindElement XPATH next_xpath]
                   ++ (d ++ [EvClick b])
                   ++ [ EvLog WARNING
                          ("Could not find the Next button: " ++ str_of_exn e)%string;
                        EvScript (update_overlay_script "Next button not found!") [] ]).
    { unfold step6_click_next, try_except. rewrite run_bind.
      unfold driver_find_element at 1, call. rewrite Hfind, E.
      rewrite run_bind. unfold log, emit. rewrite update_overlay_run. reflexivity. }
    rewrite E6. split.
    + rewrite <- app_assoc. now eexists.
    + rewrite !clicked_app, Hq. reflexivity.
Qed.

Lemma step6_click_next_missing h e :
  find_element w h XPATH next_xpath = Raised e ->
  snd (step6_click_next w h)
  = [ EvFindElement XPATH next_xpath;
      EvLog WARNING ("Could not find the Next button: " ++ str_of_exn e)%string;
      EvScript (update_overlay_script "Next button not found!") [] ].
Proof.
  intros He. unfold step6_click_next, try_except. rewrite run_bind.
  unfold driver_find_element at 1, call. rewrite He.
  rewrite run_bind. unfold log, emit. rewrite update_overlay_run. reflexivity.
Qed.

(** C1. When the response equals the label text of at least one option,
    step 5 of the action executor behaves as the body of its loop at
    the first such option in list order, whatever follows that option
    in the list: it stops scanning there, and with duplicate labels the
    first occurrence wins.  Step 5 clicks nothing or that control, never
    another one, and it clicks that control, right after the green
    highlight and the screenshot of the loop body, whenever these two do
    not raise.  The executor as a whole adds to the calls of step 5
    only those of step 6, whose clicks are on the control that the
    lookup of the Next control returned. *)
Theorem first_match_is_clicked (h : trace) (options_list : list (elem * string))
    (chosen_option : string) :
  In chosen_option (map snd options_list) ->
  exists pre radio post,
    options_list = pre ++ (radio, chosen_option) :: post
    /\ Forall (fun o : elem * string => snd o <> chosen_option) pre
    /\ (forall post',
          step5_click_option w (pre ++ (radio, chosen_option) :: post') chosen_option h
          = step5_click_option w options_list chosen_option h)
    /\ step5_click_option w options_list chosen_option h
       = (match fst (choose_option w radio h) with
          | Ok _ => Ok tt
          | Raised e => Raised e
          end,
          snd (choose_option w radio h))
    /\ (clicked (snd (step5_click_option w options_list chosen_option h)) = []
        \/ clicked (snd (step5_click_option w options_list chosen_option h)) = [radio])
    /\ (exists d6,
          snd (action_executor w options_list chosen_option h)
          = snd (step5_click_option w options_list chosen_option h) ++ d6
          /\ (forall e, In e (clicked d6) ->
                find_element w
                  (h ++ snd (step5_click_option w options_list chosen_option h))
                  XPATH next_xpath = Ok e))
    /\ (forall d0,
          (highlight w radio "green" ;; capture_screenshot w "chosen_option_highlighted") h
          = (Ok tt, d0) ->
          (exists d5,
              snd (step5_click_option w options_list chosen_option h)
              = d0 ++ EvClick radio :: d5)
          /\ clicked (snd (step5_click_option w options_list chosen_option h)) = [radio]).
Proof.
  intros Hin. destruct (first_occurrence _ _ Hin) as (pre & radio & post & -> & Hpre).
  exists pre, radio, post. split; [reflexivity|]. split; [exact Hpre|].
  split; [intros post'; now rewrite !step5_at_match|].
  split; [now apply step5_at_match|].
  split; [rewrite (step5_at_match _ _ _ _ _ Hpre); apply choose_option_clicked|].
  split; [apply executor_after_step5|].
  intros d0 H0. rewrite (step5_at_match _ _ _ _ _ Hpre). cbn [snd]. split.
  - now apply choose_option_trace.
  - now apply choose_option_clicks with d0.
Qed.

(** C2. When the response equals none of the label texts, step 5 makes
    exactly two calls, the warning and the overlay update, so it clicks
    no option control.  Whenever that overlay update does not raise,
    the executor goes on to step 6: its next call looks the Next
    control up; when the control is found and the highlight, the
    screenshot and the overlay update that precede the click do not
    raise, the executor clicks that control, and it alone; when the
    lookup raises, the executor ends with a warning and an overlay
    update, without a click. *)
Theorem no_match_warns_and_tries_next (h : trace) (options_list : list (elem * string))
    (chosen_option : string) :
  ~ In chosen_option (map snd options_list) ->
  let warned := [ EvLog WARNING not_found_warning;
                  EvScript (update_overlay_script "Chosen option not found!") [] ] in
  let executed := snd (action_executor w options_list chosen_option h) in
  snd (step5_click_option w options_list chosen_option h) = warned
  /\ clicked (snd (step5_click_option w options_list chosen_option h)) = []
  /\ (forall v,
        execute_script w (h ++ [EvLog WARNING not_found_warning])
          (update_overlay_script "Chosen option not found!") [] = Ok v ->
        fst (step5_click_option w options_list chosen_option h) = Ok tt
        /\ (exists d6,
              executed = warned ++ EvFindElement XPATH next_xpath :: d6
              /\ (forall e, In e (clicked d6) ->
                            find_element w (h ++ warned) XPATH next_xpath = Ok e))
        /\ (forall b d,
              find_element w (h ++ warned) XPATH next_xpath = Ok b ->
              (highlight w b "purple" ;;
               capture_screenshot w "next_button_highlighted" ;;
               update_overlay w "Clicking Next...")
                ((h ++ warned) ++ [EvFindElement XPATH next_xpath])
              = (Ok tt, d) ->
              (exists rest,
                  executed
                  = warned ++ EvFindElement XPATH next_xpath :: d ++ EvClick b :: rest)
              /\ clicked executed = [b])
        /\ (forall e,
              find_element w (h ++ warned) XPATH next_xpath = Raised e ->
              executed
              = warned
                ++ [ EvFindElement XPATH next_xpath;
                     EvLog WARNING
                       ("Could not find the Next button: " ++ str_of_exn e)%string;
                     EvScript (update_overlay_script "Next button not found!") [] ])).
Proof.
  intros Hno warned executed.
  assert (E5 : step5_click_option w options_list chosen_option h
               = (match execute_script w (h ++ [EvLog WARNING not_found_warning])
                          (update_overlay_script "Chosen option not found!") [] with
                  | Ok _ => Ok tt
                  | Raised e => Raised e
                  end, warned)).
  { unfold step5_click_option. rewrite (match_option_none _ _ Hno).
    rewrite run_bind. simpl. rewrite run_bind. unfold log, emit.
    rewrite update_overlay_run, app_nil_r. reflexivity. }
  rewrite E5. split; [reflexivity|]. split; [reflexivity|].
  intros v Hv. rewrite Hv. split; [reflexivity|].
  assert (Ex : executed = warned ++ snd (step6_click_next w (h ++ warned))).
  { unfold executed, action_executor. rewrite run_bind, E5, Hv.
    now destruct (step6_click_next w (h ++ warned)). }
  split; [|split].
  - destruct (step6_click_next_shape (h ++ warned)) as (d6 & E6 & Hc).
    exists d6. split; [|exact Hc]. now rewrite Ex, E6.
  - intros b d Hb Hd.
    destruct (step6_click_next_found _ _ _ Hb Hd) as ((rest & E6) & Hc).
    rewrite Ex. split; [exists rest; now rewrite E6|].
    now rewrite clicked_app, Hc.
  - intros e He. now rewrite Ex, (step6_click_next_missing _ _ He).
Qed.

End Executor.

(** ** The extractor *)

Section Extractor.

Variable w : World.

Lemma truthy_some id : id <> ""%string -> truthy (Some id) = true.
Proof.
  intros H. simpl. destruct (String.eqb_spec id ""); [contradiction|reflexivity].
Qed.

Lemma extract_option_no_id radio h v :
  get_attribute w h radio "id" = Ok v -> truthy v = false ->
  extract_option w radio h = (Ok (radio, no_id_label), [EvGetAttribute radio "id"]).
Proof.
  intros Hget Hv. unfold extract_option. rewrite run_bind. unfold call at 1.
  rewrite Hget. destruct v as [id|]; [rewrite Hv|]; reflexivity.
Qed.

Lemma extract_option_no_label radio h id e :
  get_attribute w h radio "id" = Ok (Some id) -> id <> ""%string ->
  find_element w (h ++ [EvGetAttribute radio "id"]) CSS_SELECTOR (label_selector id)
  = Raised e ->
  extract_option w radio h
  = (Ok (radio, no_label),
     [ EvGetAttribute radio "id";
       EvFindElement CSS_SELECTOR (label_selector id);
       EvLog WARNING ("Label for radio ID " ++ id ++ " not found: " ++ str_of_exn e)%string ]).
Proof.
  intros Hget Hid Hfind. unfold extract_option. rewrite run_bind. unfold call at 1.
  rewrite Hget, (truthy_some _ Hid). rewrite run_bind.
  unfold try_except. rewrite run_bind. unfold driver_find_element, call.
  rewrite Hfind. reflexivity.
Qed.

(** One control never aborts the extraction once its attribute is
    read: a failed label lookup, or a failed read of the label's text,
    is caught. *)
Lemma extract_option_returns radio h v :
  get_attribute w h radio "id" = Ok v ->
  exists text d, extract_option w radio h = (Ok (radio, text), d).
Proof.
  intros Hget. unfold extract_option. rewrite run_bind. unfold call at 1.
  rewrite Hget. destruct v as [id|]; [|eexists; eexists; reflexivity].
  destruct (truthy (Some id)); [|eexists; eexists; reflexivity].
  rewrite run_bind. unfold try_except. rewrite run_bind.
  unfold driver_find_element, text_of, call.
  destruct (find_element w _ _ _) as [label|e]; [|eexists; eexists; reflexivity].
  rewrite run_bind. destruct (elem_text w _ _); eexists; eexists; reflexivity.
Qed.

Lemma extract_option_control radio h o d :
  extract_option w radio h = (Ok o, d) -> fst o = radio.
Proof.
  unfold extract_option. rewrite run_bind. unfold call at 1.
  destruct (get_attribute w h radio "id") as [v|e]; [|discriminate].
  rewrite run_bind.
  match goal with
  | |- context [match ?m ?h' with pair _ _ => _ end] =>
      destruct (m h') as [[t|e] d2]
  end; [intros [= <- _]; reflexivity|discriminate].
Qed.

Lemma extract_options_controls option_inputs : forall h options_list d,
  extract_options w option_inputs h = (Ok options_list, d) ->
  map fst options_list = option_inputs.
Proof.
  induction option_inputs as [|radio rest IH]; simpl; intros h options_list d.
  - intros [= <- _]. reflexivity.
  - rewrite run_bind.
    pose proof (extract_option_control radio h) as Hfst.
    destruct (extract_option w radio h) as [[o|e] d1]; [|discriminate].
    rewrite run_bind. specialize (IH (h ++ d1)).
    destruct (extract_options w rest (h ++ d1)) as [[l|e] d2]; [|discriminate].
    intros [= <- _]. simpl. f_equal; [now apply Hfst with d1|now apply IH with d2].
Qed.

(** C9. A control with an identifier whose label lookup raises gets the
    text "(no label)", after the attribute read, the lookup and a
    warning; a control without identifier gets "(no id/label)" after
    the attribute read alone, so that no label lookup is attempted; and
    the two placeholders differ. *)
Theorem placeholders_distinguish (radio : elem) (h : trace) :
  (forall id e,
      get_attribute w h radio "id" = Ok (Some id) -> id <> ""%string ->
      find_element w (h ++ [EvGetAttribute radio "id"]) CSS_SELECTOR (label_selector id)
      = Raised e ->
      extract_option w radio h
      = (Ok (radio, "(no label)"%string),
         [ EvGetAttribute radio "id";
           EvFindElement CSS_SELECTOR (label_selector id);
           EvLog WARNING
             ("Label for radio ID " ++ id ++ " not found: " ++ str_of_exn e)%string ]))
  /\ (forall v,
        get_attribute w h radio "id" = Ok v -> truthy v = false ->
        extract_option w radio h
        = (Ok (radio, "(no id/label)"%string), [EvGetAttribute radio "id"]))
  /\ no_label <> no_id_label.
Proof.
  split; [intros id e; apply extract_option_no_label|].
  split; [intros v; apply extract_option_no_id|discriminate].
Qed.

(** C5. When the attribute of every control can be read, the extraction
    returns one pair per control, in the order of the controls, however
    many label lookups fail; in the result a control whose identifier
    has no label element has the placeholder "(no label)", and a control
    without identifier has the placeholder "(no id/label)". *)
Theorem extraction_survives_missing_labels (option_inputs : list elem) (h : trace) :
  Forall (readable w) option_inputs ->
  exists options_list d,
    extract_options w option_inputs h = (Ok options_list, d)
    /\ map fst options_list = option_inputs
    /\ (forall radio text,
          In (radio, text) options_list ->
          (id_without_label w radio -> text = "(no label)"%string)
          /\ (without_id w radio -> text = "(no id/label)"%string)).
Proof.
  intros Hall. revert h.
  induction Hall as [|radio rest Hr _ IH]; intros h.
  - exists [], []. repeat split; simpl in *; contradiction.
  - destruct (Hr h) as (v & Hget).
    destruct (extract_option_returns radio h v Hget) as (text & d1 & E1).
    destruct (IH (h ++ d1)) as (l & d2 & E2 & Hmap & Htexts).
    exists ((radio, text) :: l), (d1 ++ d2 ++ []).
    split; [simpl; rewrite run_bind, E1, run_bind, E2; reflexivity|].
    split; [simpl; now rewrite Hmap|].
    intros r t [[= <- <-]|Hin]; [|now apply Htexts].
    split.
    + intros (id & Hid & Hattr & Hlabel).
      destruct (Hlabel (h ++ [EvGetAttribute radio "id"])) as (e & Hfind).
      rewrite (extract_option_no_label radio h id e (Hattr h) Hid Hfind) in E1.
      now injection E1 as <- _.
    + intros Hnone. destruct (Hnone h) as (v' & Hget' & Hv').
      rewrite (extract_option_no_id radio h v' Hget' Hv') in E1.
      now injection E1 as <- _.
Qed.

End Extractor.

(** ** One order for extraction, reporting and matching *)

Section Order.

Variable w : World.

Lemma highlighted_app color d1 d2 :
  highlighted color (d1 ++ d2) = highlighted color d1 ++ highlighted color d2.
Proof. apply flat_map_app. Qed.

Lemma reported_app d1 d2 : reported (d1 ++ d2) = reported d1 ++ reported d2.
Proof. apply flat_map_app. Qed.

Lemma report_option_trace idx radio text h :
  highlighted "blue" (snd (report_option w idx radio text h)) = [radio]
  /\ reported (snd (report_option w idx radio text h)) = [option_line idx text].
Proof.
  unfold report_option, highlight, capture_screenshot, ensure_dir, timestamp,
    exec_script, log, sleep, call, emit.
  simpl. unfold mbind. simpl.
  answer_cases; split; unfold highlighted, reported, option_line; simpl; reflexivity.
Qed.

Lemma report_options_trace options_list : forall idx h,
  exists k,
    highlighted "blue" (snd (report_options w options_list idx h))
    = firstn k (map fst options_list)
    /\ reported (snd (report_options w options_list idx h))
       = firstn k (option_lines options_list idx)
    /\ (fst (report_options w options_list idx h) = Ok tt -> k = length options_list).
Proof.
  induction options_list as [|[radio text] rest IH]; intros idx h.
  - exists 0. repeat split.
  - simpl report_options. rewrite run_bind.
    destruct (report_option_trace idx radio text h) as [Hh Hr].
    destruct (report_option w idx radio text h) as [[[]|e] d1]; simpl in Hh, Hr.
    + destruct (IH (S idx) (h ++ d1)) as (k & Hk1 & Hk2 & Hk3).
      destruct (report_options w rest (S idx) (h ++ d1)) as [r d2]. simpl in *.
      exists (S k). rewrite highlighted_app, reported_app, Hh, Hr, Hk1, Hk2.
      repeat split. intros Hok. now rewrite Hk3.
    + exists 1. simpl. rewrite Hh, Hr. repeat split; [now destruct rest..|discriminate].
Qed.

Lemma option_lines_length options_list : forall idx,
  length (option_lines options_list idx) = length options_list.
Proof.
  induction options_list as [|[radio text] rest IH]; intros idx; simpl;
    [reflexivity|now rewrite IH].
Qed.


End Order.

(** ** The decision client *)

Section Decision.

Variable w : World.

Lemma decision_client_run rendered_html question_text options_list h :
  let prompt := build_prompt rendered_html question_text options_list in
  let started := [ EvLog INFO "Sending prompt to OpenAI.";
                   EvLog DEBUG ("Prompt: " ++ prompt)%string;
                   EvScript (update_overlay_script "Processing Survey Question...") [] ] in
  decision_client w rendered_html question_text options_list h
  = match execute_script w
            (h ++ [ EvLog INFO "Sending prompt to OpenAI.";
                    EvLog DEBUG ("Prompt: " ++ prompt)%string ])
            (update_overlay_script "Processing Survey Question...") [] with
    | Raised e => (Raised e, started)
    | Ok _ =>
        (match chat_create w (h ++ started) chat_model (chat_messages prompt) with
         | Ok choices => fst (first_choice choices (h ++ started ++ [EvChat chat_model (chat_messages prompt)]))
         | Raised e => Raised e
         end,
         started ++ [EvChat chat_model (chat_messages prompt)])
    end.
Proof.
  intros prompt started. unfold decision_client. fold prompt.
  unfold log, emit. rewrite !run_bind. rewrite update_overlay_run.
  rewrite <- !app_assoc. simpl app.
  destruct (execute_script w _ _ _) as [v|e]; [|reflexivity].
  rewrite run_bind. unfold call. fold started.
  replace (h ++ started) with
    (h ++ [EvLog INFO "Sending prompt to OpenAI."; EvLog DEBUG ("Prompt: " ++ prompt)%string;
           EvScript (update_overlay_script "Processing Survey Question...") []])
    by reflexivity.
  destruct (chat_create w _ _ _) as [choices|e]; [|reflexivity].
  rewrite <- !app_assoc. simpl app.
  destruct choices as [|[content|] rest]; reflexivity.
Qed.

(** C8. The decision client makes at most one chat call, and a chat
    call it makes is to the fixed model with two messages: the fixed
    system instruction, and the user prompt, which embeds the rendered
    HTML, the question text and the labels joined by a comma and a
    space.  When the overlay update that precedes the request does not
    raise, the client makes exactly that one call, and when the service
    answers with a first choice of content [content], the client returns
    [content] trimmed. *)
Theorem decision_client_exchange (rendered_html question_text : string)
    (options_list : list (elem * string)) (h : trace) :
  let prompt := build_prompt rendered_html question_text options_list in
  let request :=
    EvChat "gpt-3.5-turbo"
      [ ("system", "You are a survey-solving AI with a custom personality.");
        ("user", prompt) ]%string in
  let started := [ EvLog INFO "Sending prompt to OpenAI.";
                   EvLog DEBUG ("Prompt: " ++ prompt)%string;
                   EvScript (update_overlay_script "Processing Survey Question...") [] ] in
  let result := decision_client w rendered_html question_text options_list h in
  (exists before middle, exists after : string,
      prompt = (before ++ rendered_html ++ middle ++ "Survey Question: " ++ question_text
                ++ nl ++ "Options: " ++ join ", " (map snd options_list) ++ after)%string)
  /\ (chats (snd result) = [] \/ chats (snd result) = [request])
  /\ (forall v,
        execute_script w
          (h ++ [ EvLog INFO "Sending prompt to OpenAI.";
                  EvLog DEBUG ("Prompt: " ++ prompt)%string ])
          (update_overlay_script "Processing Survey Question...") [] = Ok v ->
        snd result = started ++ [request]
        /\ chats (snd result) = [request]
        /\ (forall content rest,
              chat_create w (h ++ started) "gpt-3.5-turbo"
                [ ("system", "You are a survey-solving AI with a custom personality.");
                  ("user", prompt) ]%string
              = Ok (Some content :: rest) ->
              fst result = Ok (strip content))).
Proof.
  intros prompt request started result.
  split.
  { exists (nl ++ "You are an AI with a custom personality designed to solve surveys." ++ nl
            ++ "Note that you do not have access to the raw page source; you only see the live rendered HTML." ++ nl
            ++ "Below is the rendered HTML of the page (as seen in the Chrome Elements panel):" ++ nl)%string.
    exists (nl ++ nl
            ++ "Additionally, here is the survey question and its available answer options:" ++ nl)%string.
    exists (nl ++ nl ++ "Respond with the exact text of the option you would choose." ++ nl)%string.
    reflexivity. }
  subst result. rewrite decision_client_run. fold prompt.
  change (EvChat chat_model (chat_messages prompt)) with request.
  destruct (execute_script w _ _ _) as [v|e]; simpl snd.
  - split; [right; reflexivity|].
    intros _ _. split; [reflexivity|]. split; [reflexivity|].
    intros content rest Hc. cbn [fst].
    match goal with
    | |- match ?x with _ => _ end = _ =>
        replace x with (Ok (Some content :: rest) : outcome (list (option string)))
          by (symmetry; exact Hc)
    end.
    reflexivity.
  - split; [left; reflexivity|]. intros v. discriminate.
Qed.

End Decision.

(** ** The whole run *)

Section Run.

Variable w : World.

Lemma quits_app d1 d2 : quits (d1 ++ d2) = quits d1 + quits d2.
Proof. unfold quits. now rewrite filter_app, length_app. Qed.

Lemma no_quit_quits d : Forall (fun ev => ev <> EvQuit) d -> quits d = 0.
Proof.
  unfold quits. induction 1 as [|ev d Hev _ IH]; [reflexivity|].
  simpl. destruct ev; simpl; try exact IH. now elim Hev.
Qed.

Section Loops.

Variable P : event -> Prop.
Hypothesis P_loop : forall ev, ev <> EvQuit -> (forall s, ev <> EvScript s []) -> P ev.

Lemma emits_extract_options option_inputs : emits P (extract_options w option_inputs).
Proof.
  induction option_inputs as [|radio rest IH]; simpl; emits_tac;
    try assumption; apply P_loop; intros; discriminate.
Qed.

Lemma emits_report_options options_list : forall idx,
  emits P (report_options w options_list idx).
Proof.
  induction options_list as [|[radio text] rest IH]; intros idx; simpl; emits_tac;
    try apply IH; apply P_loop; intros; discriminate.
Qed.

Lemma emits_match_option options_list chosen_option :
  emits P (match_option w options_list chosen_option).
Proof.
  induction options_list as [|[radio text] rest IH]; simpl; emits_tac;
    try assumption; apply P_loop; intros; discriminate.
Qed.

Hypothesis P_script : forall s, P (EvScript s []).

Lemma emits_workflow : emits P (workflow w).
Proof.
  unfold workflow. emits_tac;
    try apply emits_extract_options; try apply emits_report_options;
    try apply emits_match_option;
    first [apply P_script | apply P_loop; intros; discriminate].
Qed.

Lemma emits_on_error e : emits P (on_error w e).
Proof. emits_tac; first [apply P_script | apply P_loop; intros; discriminate]. Qed.

End Loops.

Lemma setup_emits_no_driver_event :
  emits (fun ev => is_driver_event ev = false) (logging_setup w ;; load_api_key w).
Proof. emits_tac; reflexivity. Qed.

Lemma launch_browser_emits_no_quit : emits (fun ev => ev <> EvQuit) (launch_browser w).
Proof. emits_tac; discriminate. Qed.

Lemma load_api_key_run h :
  load_api_key w h = (Ok (getenv w "OPENAI_API_KEY"), [EvLoadDotenv; EvGetenv "OPENAI_API_KEY"]).
Proof. reflexivity. Qed.

(** The [finally] clause always makes the same two calls. *)
Lemma session_run h :
  exists r d1,
    try_except (workflow w) (on_error w) h = (r, d1)
    /\ Forall (fun ev => ev <> EvQuit) d1
    /\ session w h
       = (match driver_quit w (h ++ d1 ++ [EvLog INFO "Closing browser..."]) with
          | Ok _ => r
          | Raised e => Raised e
          end,
          d1 ++ [EvLog INFO "Closing browser..."; EvQuit]).
Proof.
  assert (Hd : emits (fun ev => ev <> EvQuit) (try_except (workflow w) (on_error w))).
  { apply emits_try_except; [apply emits_workflow|intros e; apply emits_on_error];
      first [intros ev H _; exact H | intros s; discriminate]. }
  specialize (Hd h). unfold session, try_finally.
  destruct (try_except (workflow w) (on_error w) h) as [r d1]. simpl in Hd.
  exists r, d1. split; [reflexivity|]. split; [exact Hd|].
  unfold cleanup, log, emit, call. rewrite run_bind. rewrite <- app_assoc.
  destruct (driver_quit w _); reflexivity.
Qed.

Lemma session_quits h : quits (snd (session w h)) = 1.
Proof.
  destruct (session_run h) as (r & d1 & _ & Hd & ->). simpl.
  rewrite quits_app, (no_quit_quits _ Hd). reflexivity.
Qed.

Lemma session_ends_with_quit h :
  exists before, snd (session w h) = before ++ [EvLog INFO "Closing browser..."; EvQuit].
Proof.
  destruct (session_run h) as (r & d1 & _ & _ & ->). now exists d1.
Qed.

Lemma on_error_run e h :
  on_error w e h
  = match execute_script w (h ++ [EvLog ERROR "An error occurred during execution:"])
            (update_overlay_script "An error occurred!") [] with
    | Ok _ =>
        (Ok tt, [ EvLog ERROR "An error occurred during execution:";
                  EvScript (update_overlay_script "An error occurred!") [];
                  EvSleep 3 ])
    | Raised e' =>
        (Raised e', [ EvLog ERROR "An error occurred during execution:";
                      EvScript (update_overlay_script "An error occurred!") [] ])
    end.
Proof.
  unfold on_error, log, sleep, emit. rewrite !run_bind, update_overlay_run.
  destruct (execute_script w _ _ _); reflexivity.
Qed.

(** What a run that reaches the [try] statement looks like. *)
Lemma run_with_session api_key d0 d1 :
  (logging_setup w ;; load_api_key w) [] = (Ok api_key, d0) ->
  truthy api_key = true ->
  launch_browser w d0 = (Ok tt, d1) ->
  workflow_result w = Some (workflow w (d0 ++ d1))
  /\ fst (run w) = match fst (session w (d0 ++ d1)) with
                   | Ok _ => Finished
                   | Raised e => Uncaught e
                   end
  /\ snd (run w) = d0 ++ d1 ++ snd (session w (d0 ++ d1)).
Proof.
  intros Hs Hk Hl. unfold workflow_result, run, main. rewrite Hs, Hk, Hl.
  split; [reflexivity|]. rewrite run_bind. simpl app. rewrite Hl.
  destruct (session w (d0 ++ d1)) as [[[]|e] d2]; split; reflexivity.
Qed.

Lemma workflow_result_reached res :
  workflow_result w = Some res ->
  exists api_key d0 d1,
    (logging_setup w ;; load_api_key w) [] = (Ok api_key, d0)
    /\ truthy api_key = true
    /\ launch_browser w d0 = (Ok tt, d1).
Proof.
  unfold workflow_result.
  destruct ((logging_setup w ;; load_api_key w) []) as [[api_key|e] d0] eqn:Hs;
    [|discriminate].
  destruct (truthy api_key) eqn:Hk; [|discriminate].
  destruct (launch_browser w d0) as [[[]|e] d1] eqn:Hl; [|discriminate].
  intros _. now exists api_key, d0, d1.
Qed.

(** C4. In every run whose main workflow raises an exception, whatever
    the step that raised it, [driver.quit()] is invoked exactly once,
    and it is the last call of the run. *)
Theorem quit_once_after_error (e : exn) (d : trace) :
  workflow_result w = Some (Raised e, d) ->
  quits (snd (run w)) = 1
  /\ exists before, snd (run w) = before ++ [EvLog INFO "Closing browser..."; EvQuit].
Proof.
  intros Hres.
  destruct (workflow_result_reached _ Hres) as (api_key & d0 & d1 & Hs & Hk & Hl).
  destruct (run_with_session _ _ _ Hs Hk Hl) as (_ & _ & ->).
  split.
  - rewrite !quits_app, session_quits.
    assert (H0 : quits d0 = 0).
    { apply no_quit_quits.
      pose proof (setup_emits_no_driver_event []) as H. rewrite Hs in H. simpl in H.
      eapply Forall_impl; [|exact H]. intros ev Hev ->. discriminate. }
    assert (H1 : quits d1 = 0).
    { apply no_quit_quits.
      pose proof (launch_browser_emits_no_quit d0) as H. now rewrite Hl in H. }
    now rewrite H0, H1.
  - destruct (session_ends_with_quit (d0 ++ d1)) as (before & ->).
    exists (d0 ++ d1 ++ before). now rewrite <- !app_assoc.
Qed.

Lemma try_except_recovers h :
  error_banner_succeeds w ->
  fst (try_except (workflow w) (on_error w) h) = Ok tt.
Proof.
  intros Hb. unfold try_except.
  destruct (workflow w h) as [[[]|e] d1]; [reflexivity|].
  rewrite on_error_run.
  destruct (Hb ((h ++ d1) ++ [EvLog ERROR "An error occurred during execution:"]))
    as (v & ->).
  reflexivity.
Qed.

(** C3, as the code has it.  Without a usable API key (the variable is
    unset or empty) the exit code is 1 and no call reaches the driver:
    no browser is launched and nothing is navigated.  With a key, once
    logging is set up and the browser has started, [driver.quit()] is
    invoked exactly once, and the run finishes with exit code 0,
    whether or not the main workflow raised, as long as neither the
    overlay update of the [except] clause nor [driver.quit()] raises. *)
Theorem exit_code_of_run :
  (truthy (getenv w "OPENAI_API_KEY") = false ->
   exit_code (fst (run w)) = 1
   /\ Forall (fun ev => is_driver_event ev = false) (snd (run w)))
  /\ (truthy (getenv w "OPENAI_API_KEY") = true ->
      logging_starts w -> driver_starts w ->
      quits (snd (run w)) = 1
      /\ (error_banner_succeeds w -> quit_succeeds w ->
          fst (run w) = Finished /\ exit_code (fst (run w)) = 0)).
Proof.
  split.
  - intros Hk. unfold run, main. rewrite run_bind.
    pose proof (setup_emits_no_driver_event []) as Hs. rewrite run_bind in Hs.
    destruct (logging_setup w []) as [[[]|e] d0]; [|split; [reflexivity|exact Hs]].
    rewrite load_api_key_run in *. rewrite Hk. simpl in *.
    split; [reflexivity|]. apply Forall_app. split; [exact Hs|]. repeat constructor.
  - intros Hk Hlog Hdrv.
    assert (Hs : exists d0,
               (logging_setup w ;; load_api_key w) []
               = (Ok (getenv w "OPENAI_API_KEY"), d0)
               /\ Forall (fun ev => ev <> EvQuit) d0).
    { pose proof (setup_emits_no_driver_event []) as Hs. rewrite run_bind in *.
      unfold logging_starts in Hlog.
      destruct (logging_setup w []) as [[[]|e] d0]; [|discriminate].
      rewrite load_api_key_run in *. simpl in *. eexists. split; [reflexivity|].
      eapply Forall_impl; [|exact Hs]. intros ev Hev ->. discriminate. }
    destruct Hs as (d0 & Hs & Hd0).
    assert (Hl : launch_browser w d0 = (Ok tt, [EvChrome; EvMaximize])).
    { unfold launch_browser, call. rewrite run_bind.
      destruct (Hdrv d0) as [-> _]. destruct (Hdrv (d0 ++ [EvChrome])) as [_ ->].
      reflexivity. }
    destruct (run_with_session _ _ _ Hs Hk Hl) as (_ & Hfst & Hsnd).
    split.
    + rewrite Hsnd, !quits_app, session_quits, (no_quit_quits _ Hd0). reflexivity.
    + intros Hb Hq. rewrite Hfst.
      destruct (session_run (d0 ++ [EvChrome; EvMaximize])) as (r & d1 & Ht & _ & ->).
      pose proof (try_except_recovers (d0 ++ [EvChrome; EvMaximize]) Hb) as Hr.
      rewrite Ht in Hr. simpl in Hr. subst r. rewrite Hq. split; reflexivity.
Qed.

End Run.

(** ** Failures of the overlay operations *)

Section OverlayFailures.

Variable w : World.

Lemma stops_of_emits {A} (m : M A) : emits not_plain_script m -> stops_at_failed_script w m.
Proof.
  intros Hm h d' s d'' e Hd _. specialize (Hm h). rewrite Hd in Hm.
  apply Forall_app in Hm. destruct Hm as [_ Hm]. inversion Hm as [|? ? Hev _].
  now elim (Hev s).
Qed.

Lemma stops_ret {A} (a : A) : stops_at_failed_script w (ret a).
Proof. apply stops_of_emits, emits_ret. Qed.

Lemma stops_throw {A} (e : exn) : stops_at_failed_script w (@throw A e).
Proof. apply stops_of_emits, emits_throw. Qed.

Lemma stops_emit ev : not_plain_script ev -> stops_at_failed_script w (emit ev).
Proof. intros H. now apply stops_of_emits, emits_emit. Qed.

Lemma stops_call {A} ev (f : trace -> outcome A) :
  not_plain_script ev -> stops_at_failed_script w (call ev f).
Proof. intros H. now apply stops_of_emits, emits_call. Qed.

Lemma singleton_split {A} (x y : A) d' d'' :
  [x] = d' ++ y :: d'' -> d' = [] /\ d'' = [] /\ x = y.
Proof.
  destruct d' as [|a d']; simpl.
  - intros [= -> <-]. auto.
  - intros [= _ H]. now destruct d'.
Qed.

Lemma stops_exec_script script args :
  stops_at_failed_script w (exec_script w script args).
Proof.
  intros h d' s d'' e Hd He. unfold exec_script, call in *. simpl in *.
  apply singleton_split in Hd. destruct Hd as (-> & -> & [= -> ->]).
  rewrite app_nil_r in He. left. now split.
Qed.

Lemma app_split {A} (d1 d2 d' : list A) (x : A) (d'' : list A) :
  d1 ++ d2 = d' ++ x :: d'' ->
  (exists t, d1 = d' ++ x :: t /\ d'' = t ++ d2)
  \/ (exists t, d' = d1 ++ t /\ d2 = t ++ x :: d'').
Proof.
  revert d'. induction d1 as [|a d1 IH]; intros d' H.
  - right. now exists d'.
  - destruct d' as [|b d']; simpl in H; injection H as -> H.
    + left. now exists d1.
    + destruct (IH _ H) as [(t & -> & ->)|(t & -> & ->)].
      * left. now exists t.
      * right. now exists t.
Qed.

Lemma stops_bind {A B} (m : M A) (k : A -> M B) :
  stops_at_failed_script w m -> (forall a, stops_at_failed_script w (k a)) ->
  stops_at_failed_script w (x <- m ;; k x).
Proof.
  intros Hm Hk h d' s d'' e. rewrite run_bind. specialize (Hm h).
  destruct (m h) as [[a|e1] d1]; simpl in Hm.
  2:{ simpl. intros Hd He. destruct (Hm d' s d'' e Hd He) as [[-> [= ->]]|Hs];
        [left; now split|now right]. }
  specialize (Hk a (h ++ d1)). destruct (k a (h ++ d1)) as [r2 d2]. simpl in *.
  intros Hd He. apply app_split in Hd. destruct Hd as [(t & -> & ->)|(t & -> & ->)].
  - destruct (Hm d' s t e eq_refl He) as [[_ [=]]|Hs]. now right.
  - apply (Hk t s d'' e); [reflexivity|now rewrite <- app_assoc].
Qed.

Lemma stops_try_except {A} (m : M A) (handler : exn -> M A) :
  emits plain_script_is_next_banner m ->
  (forall e, stops_at_failed_script w (handler e)) ->
  stops_at_failed_script w (try_except m handler).
Proof.
  intros Hm Hk h d' s d'' e. unfold try_except. specialize (Hm h).
  destruct (m h) as [[a|e1] d1]; simpl in Hm |- *.
  - intros Hd _. right. rewrite Hd in Hm. apply Forall_app in Hm.
    destruct Hm as [_ Hm]. inversion Hm as [|? ? Hev _]. now apply Hev.
  - specialize (Hk e1 (h ++ d1)). destruct (handler e1 (h ++ d1)) as [r2 d2].
    simpl in *. intros Hd He. apply app_split in Hd.
    destruct Hd as [(t & -> & ->)|(t & -> & ->)].
    + right. apply Forall_app in Hm.
      destruct Hm as [_ Hm]. inversion Hm as [|? ? Hev _]. now apply Hev.
    + apply (Hk t s d'' e); [reflexivity|now rewrite <- app_assoc].
Qed.

(** Reduces [stops_at_failed_script w m], for an [m] without loops. *)
Ltac stops_tac :=
  repeat first
    [ apply stops_ret | apply stops_throw
    | apply stops_bind; [| intros ?]
    | apply stops_exec_script
    | apply stops_try_except; [| intros ?]
    | apply stops_call | apply stops_emit
    | match goal with
      | |- stops_at_failed_script _ (if ?b then _ else _) => destruct b
      | |- stops_at_failed_script _ (match ?x with _ => _ end) => destruct x
      end
    | progress autounfold with script ].

Ltac plain_script_goal :=
  match goal with
  | |- not_plain_script _ => intros ?; discriminate
  | |- plain_script_is_next_banner _ =>
      let H := fresh in
      intros ? H; first [discriminate H | injection H as <-; reflexivity]
  end.

Lemma stops_workflow : stops_at_failed_script w (workflow w).
Proof.
  unfold workflow. stops_tac; try plain_script_goal.
  - apply stops_of_emits, emits_extract_options. intros ev _ H. exact H.
  - apply stops_of_emits, emits_report_options. intros ev _ H. exact H.
  - apply stops_of_emits, emits_match_option. intros ev _ H. exact H.
  - emits_tac; plain_script_goal.
Qed.

Lemma session_after_error h e d :
  workflow w h = (Raised e, d) ->
  exists rest,
    snd (session w h)
    = d ++ EvLog ERROR "An error occurred during execution:"
        :: EvScript (update_overlay_script "An error occurred!") [] :: rest
    /\ (rest = [EvLog INFO "Closing browser..."; EvQuit]
        \/ rest = [EvSleep 3; EvLog INFO "Closing browser..."; EvQuit]).
Proof.
  intros Hw. destruct (session_run w h) as (r & d1 & Ht & _ & ->).
  unfold try_except in Ht. rewrite Hw, on_error_run in Ht. simpl snd.
  destruct (execute_script w _ _ _); injection Ht as <- <-; rewrite <- app_assoc;
    eexists; (split; [reflexivity|]); [right|left]; reflexivity.
Qed.

(** C7, as the code has it.  The overlay functions handle no error: an
    exception of their script is raised to the caller.  In the main
    workflow a raising overlay script, other than the update of step 6
    that sits inside the [try] of that step, is the last call of the
    workflow, which ends with that exception; the [except] clause then
    logs the error and updates the overlay once more, and the browser is
    closed. *)
Theorem overlay_failure_ends_workflow :
  (forall text h e,
      execute_script w h (update_overlay_script text) [] = Raised e ->
      update_overlay w text h = (Raised e, [EvScript (update_overlay_script text) []]))
  /\ (forall text h e,
        execute_script w h inject_overlay_script [] = Raised e ->
        inject_overlay w text h = (Raised e, [EvScript inject_overlay_script []]))
  /\ (forall h e,
        execute_script w h remove_overlay_script [] = Raised e ->
        remove_overlay w h = (Raised e, [EvScript remove_overlay_script []]))
  /\ (forall h d' s d'' e,
        overlay_script s ->
        s <> update_overlay_script "Clicking Next..." ->
        snd (workflow w h) = d' ++ EvScript s [] :: d'' ->
        execute_script w (h ++ d') s [] = Raised e ->
        d'' = []
        /\ fst (workflow w h) = Raised e
        /\ exists rest,
             snd (session w h)
             = d' ++ EvScript s []
                 :: EvLog ERROR "An error occurred during execution:"
                 :: EvScript (update_overlay_script "An error occurred!") [] :: rest
             /\ (rest = [EvLog INFO "Closing browser..."; EvQuit]
                 \/ rest = [EvSleep 3; EvLog INFO "Closing browser..."; EvQuit])).
Proof.
  split; [|split; [|split]].
  - intros text h e He. now rewrite update_overlay_run, He.
  - intros text h e He. unfold inject_overlay, exec_script, call.
    now rewrite run_bind, He.
  - intros h e He. unfold remove_overlay, exec_script, call.
    now rewrite run_bind, He.
  - intros h d' s d'' e _ Hs Hd He.
    destruct (stops_workflow h d' s d'' e Hd He) as [[-> Hr]|]; [|contradiction].
    split; [reflexivity|]. split; [exact Hr|].
    destruct (workflow w h) as [r d] eqn:Hw. simpl in Hd, Hr. subst r d.
    destruct (session_after_error _ _ _ Hw) as (rest & E & Hrest).
    exists rest. split; [|exact Hrest]. rewrite E, <- app_assoc. reflexivity.
Qed.

End OverlayFailures.

(** ** The overlay scripts on a page without overlay *)

Section OverlayAbsent.

Variable parse_html : string -> list JS.node.

Lemma strip_prefix_app p s : JS.strip_prefix p (p ++ s)%string = Some s.
Proof.
  induction p as [|a p IH]; simpl; [reflexivity|]. now rewrite Ascii.eqb_refl.
Qed.

Lemma literal_safe_app a b :
  JS.literal_safe (a ++ b)%string = JS.literal_safe a && JS.literal_safe b.
Proof.
  induction a as [|c a IH]; simpl; [reflexivity|]. now rewrite IH, andb_assoc.
Qed.

Lemma scan_literal_safe s rest :
  JS.literal_safe s = true ->
  JS.scan_literal (s ++ String "034" rest)%string = JS.Closed s rest.
Proof.
  induction s as [|c s IH]; simpl; [reflexivity|].
  intros H. apply andb_prop in H. destruct H as [Hc Hs].
  apply negb_true_iff in Hc. repeat (apply orb_false_elim in Hc; destruct Hc as [Hc ?]).
  rewrite Hc. replace ((c =? "010") || (c =? "013"))%char with false
    by (symmetry; apply orb_false_intro; assumption).
  replace (c =? "092")%char with false by (symmetry; assumption).
  now rewrite (IH Hs).
Qed.

Lemma run_script_remove d :
  JS.run_script parse_html remove_overlay_script d = Some (JS.remove_overlay_js d).
Proof. reflexivity. Qed.

Lemma run_script_update text d :
  JS.literal_safe text = true ->
  JS.run_script parse_html (update_overlay_script text) d
  = Some (JS.update_overlay_js parse_html (div_open ++ text ++ div_close)%string d).
Proof.
  intros Hsafe. unfold JS.run_script.
  replace (update_overlay_script text =? inject_overlay_script)%string with false
    by reflexivity.
  replace (update_overlay_script text =? remove_overlay_script)%string with false
    by reflexivity.
  change (update_overlay_script text)
    with ((update_overlay_head ++ dquote)
          ++ ((div_open ++ text ++ div_close) ++ String "034" update_overlay_tail))%string.
  rewrite strip_prefix_app, scan_literal_safe.
  - now rewrite String.eqb_refl.
  - rewrite !literal_safe_app, Hsafe. reflexivity.
Qed.

Lemma page_after_snoc d0 h script args :
  JS.page_after parse_html d0 (h ++ [EvScript script args])
  = match JS.run_script parse_html script (JS.page_after parse_html d0 h) with
    | Some (JS.Normal d') => d'
    | _ => JS.page_after parse_html d0 h
    end.
Proof. unfold JS.page_after. rewrite fold_left_app. reflexivity. Qed.

(** X18.  On a page without overlay element the script of
    [remove_overlay] ends normally and leaves the page as it is, and so
    does the script of [update_overlay] for a text without double
    quote, backslash or line terminator; in a browser that runs these
    scripts, [remove_overlay] and, for such a text, [update_overlay]
    make their one call, do not raise and leave the page unchanged. *)
Theorem overlay_absent_no_effect (d : JS.document) :
  JS.getElementById d overlay_id = None ->
  JS.run_script parse_html remove_overlay_script d = Some (JS.Normal d)
  /\ (forall text,
        JS.literal_safe text = true ->
        JS.run_script parse_html (update_overlay_script text) d = Some (JS.Normal d))
  /\ (forall base d0 h,
        JS.page_after parse_html d0 h = d ->
        let w := JS.with_page parse_html base d0 in
        (remove_overlay w h = (Ok tt, [EvScript remove_overlay_script []])
         /\ JS.page_after parse_html d0 (h ++ snd (remove_overlay w h)) = d)
        /\ (forall text,
              JS.literal_safe text = true ->
              update_overlay w text h = (Ok tt, [EvScript (update_overlay_script text) []])
              /\ JS.page_after parse_html d0 (h ++ snd (update_overlay w text h)) = d)).
Proof.
  intros Habs.
  assert (Hrem : JS.run_script parse_html remove_overlay_script d = Some (JS.Normal d)).
  { rewrite run_script_remove. unfold JS.remove_overlay_js. now rewrite Habs. }
  assert (Hupd : forall text, JS.literal_safe text = true ->
            JS.run_script parse_html (update_overlay_script text) d = Some (JS.Normal d)).
  { intros text Hsafe. rewrite (run_script_update _ _ Hsafe).
    unfold JS.update_overlay_js. now rewrite Habs. }
  split; [exact Hrem|]. split; [exact Hupd|].
  intros base d0 h Hpage w.
  assert (Er : remove_overlay w h = (Ok tt, [EvScript remove_overlay_script []])).
  { unfold remove_overlay, exec_script, call. rewrite run_bind.
    unfold w at 1. cbn [execute_script JS.with_page]. now rewrite Hpage, Hrem. }
  split.
  - split; [exact Er|]. rewrite Er. cbn [snd]. now rewrite page_after_snoc, Hpage, Hrem.
  - intros text Hsafe.
    assert (Eu : update_overlay w text h
                 = (Ok tt, [EvScript (update_overlay_script text) []])).
    { rewrite update_overlay_run. unfold w. cbn [execute_script JS.with_page].
      now rewrite Hpage, (Hupd _ Hsafe). }
    split; [exact Eu|]. rewrite Eu. cbn [snd].
    now rewrite page_after_snoc, Hpage, (Hupd _ Hsafe).
Qed.

End OverlayAbsent.

(** ** The theorems on concrete worlds *)

Import Worlds.

(** Green is the label of the second and of the fourth option: step 5
    clicks the second control, and it alone, and the executor clicks
    nothing else but the Next control. *)
Lemma first_match_is_clicked_witness :
  In "Green"%string (map snd palette)
  /\ fst ((highlight colors 2 "green" ;;
           capture_screenshot colors "chosen_option_highlighted") []) = Ok tt
  /\ step5_click_option colors [(1, "Red"%string); (2, "Green"%string)] "Green" []
     = step5_click_option colors palette "Green" []
  /\ clicked (snd (step5_click_option colors palette "Green" [])) = [2]
  /\ (forall e, In e (clicked (snd (action_executor colors palette "Green" []))) ->
                e = 2 \/ e = 200).
Proof.
  assert (Hin : In "Green"%string (map snd palette)) by (simpl; tauto).
  split; [exact Hin|]. split; [reflexivity|].
  destruct (first_match_is_clicked colors [] palette "Green" Hin)
    as (pre & radio & post & E & Hpre & Hstop & _ & _ & (d6 & Hexec & Hnext) & Hclick).
  assert (Hradio : radio = 2 /\ pre = [(1, "Red"%string)]).
  { destruct pre as [|p1 pre]; [discriminate E|].
    injection E as <- E. destruct pre as [|p2 pre].
    - injection E as <- _. now split.
    - injection E as <- _. inversion Hpre as [|? ? _ Hpre']. inversion Hpre' as [|? ? Hne _].
      now elim Hne. }
  destruct Hradio as [-> ->].
  assert (H0 : (highlight colors 2 "green" ;;
                capture_screenshot colors "chosen_option_highlighted") []
               = (Ok tt,
                  snd ((highlight colors 2 "green" ;;
                        capture_screenshot colors "chosen_option_highlighted") [])))
    by reflexivity.
  destruct (Hclick _ H0) as [_ Hc].
  split; [exact (Hstop [])|]. split; [exact Hc|].
  intros e He. rewrite Hexec, clicked_app, Hc in He.
  destruct He as [<-|He]; [now left|right].
  specialize (Hnext e He). now injection Hnext as <-.
Defined.

(** Purple is no label: a warning, an overlay update, the lookup of the
    Next control and a click on it. *)
Lemma no_match_warns_and_tries_next_witness :
  let warned := [ EvLog WARNING not_found_warning;
                  EvScript (update_overlay_script "Chosen option not found!") [] ] in
  let prepared :=
    snd ((highlight colors 200 "purple" ;;
          capture_screenshot colors "next_button_highlighted" ;;
          update_overlay colors "Clicking Next...")
           (([] ++ warned) ++ [EvFindElement XPATH next_xpath])) in
  ~ In "Purple"%string (map snd palette)
  /\ execute_script colors ([] ++ [EvLog WARNING not_found_warning])
       (update_overlay_script "Chosen option not found!") [] = Ok "None"%string
  /\ find_element colors ([] ++ warned) XPATH next_xpath = Ok 200
  /\ step5_click_option colors palette "Purple" [] = (Ok tt, warned)
  /\ clicked (snd (step5_click_option colors palette "Purple" [])) = []
  /\ (exists rest,
         snd (action_executor colors palette "Purple" [])
         = warned ++ EvFindElement XPATH next_xpath :: prepared ++ EvClick 200 :: rest)
  /\ clicked (snd (action_executor colors palette "Purple" [])) = [200]
  /\ snd (action_executor no_next palette "Purple" [])
     = warned
       ++ [ EvFindElement XPATH next_xpath;
            EvLog WARNING
              ("Could not find the Next button: " ++ str_of_exn no_such_element)%string;
            EvScript (update_overlay_script "Next button not found!") [] ].
Proof.
  intros warned prepared.
  assert (H : ~ In "Purple"%string (map snd palette))
    by (simpl; intros [H|[H|[H|[H|[]]]]]; discriminate H).
  split; [exact H|]. split; [reflexivity|]. split; [reflexivity|].
  destruct (no_match_warns_and_tries_next colors [] palette "Purple" H)
    as (Hsnd & Hclicked & Hnext).
  destruct (Hnext "None"%string eq_refl) as (Hfst & _ & Hfound & _).
  destruct (no_match_warns_and_tries_next no_next [] palette "Purple" H)
    as (_ & _ & Hnext').
  destruct (Hnext' "None"%string eq_refl) as (_ & _ & _ & Hmissing).
  split.
  { destruct (step5_click_option colors palette "Purple" []) as [r d].
    simpl in Hsnd, Hfst. now subst r d. }
  split; [exact Hclicked|].
  assert (H0 : (highlight colors 200 "purple" ;;
                capture_screenshot colors "next_button_highlighted" ;;
                update_overlay colors "Clicking Next...")
                 (([] ++ warned) ++ [EvFindElement XPATH next_xpath])
               = (Ok tt, prepared))
    by reflexivity.
  destruct (Hfound 200 prepared eq_refl H0) as [Htrace Hc].
  split; [exact Htrace|]. split; [exact Hc|].
  exact (Hmissing no_such_element eq_refl).
Defined.

(** Without key the run stops before the browser; with the key and a
    page that answers, it finishes with exit code 0. *)
Lemma exit_code_of_run_witness :
  (truthy (getenv no_key "OPENAI_API_KEY") = false
   /\ exit_code (fst (run no_key)) = 1
   /\ Forall (fun ev => is_driver_event ev = false) (snd (run no_key)))
  /\ (truthy (getenv colors "OPENAI_API_KEY") = true
      /\ logging_starts colors /\ driver_starts colors
      /\ error_banner_succeeds colors /\ quit_succeeds colors
      /\ quits (snd (run colors)) = 1
      /\ fst (run colors) = Finished
      /\ exit_code (fst (run colors)) = 0).
Proof.
  split.
  - split; [reflexivity|].
    exact (proj1 (exit_code_of_run no_key) eq_refl).
  - assert (Hl : logging_starts colors) by reflexivity.
    assert (Hd : driver_starts colors) by (intros h; split; reflexivity).
    assert (Hb : error_banner_succeeds colors) by (intros h; eexists; reflexivity).
    assert (Hq : quit_succeeds colors) by (intros h; reflexivity).
    destruct (proj2 (exit_code_of_run colors) eq_refl Hl Hd) as [Hquits Hexit].
    destruct (Hexit Hb Hq) as [Hfin Hcode].
    repeat split; assumption.
Defined.

(** With a session lost after the launch, [driver.get] raises and
    [driver.quit()] is still invoked, once. *)
Lemma quit_once_after_error_witness :
  workflow_result lost_session
  = Some (Raised webdriver_exception,
          [EvLog INFO ("Navigating to URL: " ++ url)%string; EvGet url])
  /\ quits (snd (run lost_session)) = 1
  /\ exists before,
       snd (run lost_session) = before ++ [EvLog INFO "Closing browser..."; EvQuit].
Proof.
  split; [vm_compute; reflexivity|].
  apply (quit_once_after_error lost_session webdriver_exception
           [EvLog INFO ("Navigating to URL: " ++ url)%string; EvGet url]).
  vm_compute. reflexivity.
Defined.

(** Three controls, of which one has no label and one no identifier. *)
Lemma extraction_survives_missing_labels_witness :
  Forall (readable unlabeled) [1; 2; 3]
  /\ id_without_label unlabeled 2
  /\ without_id unlabeled 3
  /\ exists options_list d,
       extract_options unlabeled [1; 2; 3] [] = (Ok options_list, d)
       /\ map fst options_list = [1; 2; 3]
       /\ (forall radio text,
             In (radio, text) options_list ->
             (id_without_label unlabeled radio -> text = "(no label)"%string)
             /\ (without_id unlabeled radio -> text = "(no id/label)"%string)).
Proof.
  split; [repeat constructor; intros h; eexists; reflexivity|].
  split.
  { exists "c2"%string. split; [discriminate|].
    split; intros h; [reflexivity|eexists; reflexivity]. }
  split; [intros h; eexists; split; reflexivity|].
  apply (extraction_survives_missing_labels unlabeled [1; 2; 3] []).
  repeat constructor; intros h; eexists; reflexivity.
Defined.

(** The second control has the identifier c2 and no label, the third
    has no identifier. *)
Lemma placeholders_distinguish_witness :
  (get_attribute unlabeled [] 2 "id" = Ok (Some "c2"%string)
   /\ find_element unlabeled ([] ++ [EvGetAttribute 2 "id"]) CSS_SELECTOR (label_selector "c2")
      = Raised no_such_element
   /\ fst (extract_option unlabeled 2 []) = Ok (2, "(no label)"%string))
  /\ (get_attribute unlabeled [] 3 "id" = Ok None
      /\ extract_option unlabeled 3 []
         = (Ok (3, "(no id/label)"%string), [EvGetAttribute 3 "id"])).
Proof.
  destruct (placeholders_distinguish unlabeled 2 []) as (Hlabel & _ & _).
  destruct (placeholders_distinguish unlabeled 3 []) as (_ & Hid & _).
  split.
  - split; [reflexivity|]. split; [reflexivity|].
    rewrite (Hlabel "c2"%string no_such_element eq_refl); [reflexivity|discriminate|reflexivity].
  - split; [reflexivity|]. exact (Hid None eq_refl eq_refl).
Defined.


(** The model answers Green followed by a line feed: one request, and
    Green is returned. *)
Lemma decision_client_exchange_witness :
  let prompt := build_prompt "<html></html>" "Pick a color" palette in
  let started := [ EvLog INFO "Sending prompt to OpenAI.";
                   EvLog DEBUG ("Prompt: " ++ prompt)%string;
                   EvScript (update_overlay_script "Processing Survey Question...") [] ] in
  execute_script colors
    ([] ++ [ EvLog INFO "Sending prompt to OpenAI.";
             EvLog DEBUG ("Prompt: " ++ prompt)%string ])
    (update_overlay_script "Processing Survey Question...") [] = Ok "None"%string
  /\ chat_create colors ([] ++ started) "gpt-3.5-turbo"
       [ ("system", "You are a survey-solving AI with a custom personality.");
         ("user", prompt) ]%string
     = Ok [Some ("Green" ++ nl)%string]
  /\ fst (decision_client colors "<html></html>" "Pick a color" palette [])
     = Ok "Green"%string
  /\ chats (snd (decision_client colors "<html></html>" "Pick a color" palette []))
     = [ EvChat "gpt-3.5-turbo"
           [ ("system", "You are a survey-solving AI with a custom personality.");
             ("user", prompt) ]%string ].
Proof.
  intros prompt started.
  destruct (decision_client_exchange colors "<html></html>" "Pick a color" palette [])
    as (_ & _ & H).
  destruct (H "None"%string eq_refl) as (_ & Hchats & Hret).
  split; [reflexivity|]. split; [reflexivity|].
  split; [exact (Hret ("Green" ++ nl)%string [] eq_refl)|exact Hchats].
Defined.

(** With a lost session each overlay function raises what its script
    raised; with a two-line answer the overlay update that shows it is
    the last call of the workflow. *)
Lemma overlay_failure_ends_workflow_witness :
  let s := update_overlay_script ("AI Chose: " ++ two_lines) in
  let d' := removelast (snd (workflow chatty [])) in
  (execute_script lost_session [] (update_overlay_script "Page Loaded") []
   = Raised webdriver_exception
   /\ update_overlay lost_session "Page Loaded" []
      = (Raised webdriver_exception, [EvScript (update_overlay_script "Page Loaded") []]))
  /\ (execute_script lost_session [] inject_overlay_script [] = Raised webdriver_exception
      /\ inject_overlay lost_session "Page Loaded" []
         = (Raised webdriver_exception, [EvScript inject_overlay_script []]))
  /\ (execute_script lost_session [] remove_overlay_script [] = Raised webdriver_exception
      /\ remove_overlay lost_session []
         = (Raised webdriver_exception, [EvScript remove_overlay_script []]))
  /\ (overlay_script s
      /\ s <> update_overlay_script "Clicking Next..."
      /\ snd (workflow chatty []) = d' ++ EvScript s [] :: []
      /\ execute_script chatty ([] ++ d') s [] = Raised (Exn "JavascriptException" "SyntaxError")
      /\ fst (workflow chatty []) = Raised (Exn "JavascriptException" "SyntaxError")).
Proof.
  intros s d'.
  destruct (overlay_failure_ends_workflow lost_session) as (Hu & Hi & Hr & _).
  destruct (overlay_failure_ends_workflow chatty) as (_ & _ & _ & Hw).
  split; [split; [reflexivity|exact (Hu "Page Loaded"%string [] _ eq_refl)]|].
  split; [split; [reflexivity|exact (Hi "Page Loaded"%string [] _ eq_refl)]|].
  split; [split; [reflexivity|exact (Hr [] _ eq_refl)]|].
  assert (Hs : overlay_script s) by (right; right; now exists ("AI Chose: " ++ two_lines)%string).
  assert (Hn : s <> update_overlay_script "Clicking Next...")
    by (intros E; apply String.eqb_eq in E; vm_compute in E; discriminate E).
  assert (Hd : snd (workflow chatty []) = d' ++ EvScript s [] :: [])
    by (vm_compute; reflexivity).
  assert (He : execute_script chatty ([] ++ d') s []
               = Raised (Exn "JavascriptException" "SyntaxError"))
    by (vm_compute; reflexivity).
  destruct (Hw [] d' s [] _ Hs Hn Hd He) as (_ & Hres & _).
  repeat split; assumption.
Defined.

(** The survey page has no overlay before [inject_overlay]. *)
Lemma overlay_absent_no_effect_witness :
  JS.getElementById survey_page overlay_id = None
  /\ JS.run_script text_only remove_overlay_script survey_page = Some (JS.Normal survey_page)
  /\ JS.run_script text_only (update_overlay_script "Page Loaded") survey_page
     = Some (JS.Normal survey_page)
  /\ remove_overlay scripted [] = (Ok tt, [EvScript remove_overlay_script []])
  /\ update_overlay scripted "Page Loaded" []
     = (Ok tt, [EvScript (update_overlay_script "Page Loaded") []]).
Proof.
  destruct (overlay_absent_no_effect text_only survey_page eq_refl) as (Hr & Hu & Hw).
  destruct (Hw colors survey_page [] eq_refl) as ((Hrem & _) & Hupd).
  split; [reflexivity|]. split; [exact Hr|].
  split; [exact (Hu "Page Loaded"%string eq_refl)|].
  split; [exact Hrem|exact (proj1 (Hupd "Page Loaded"%string eq_refl))].
Defined.

(** ** Where the specification and the code part *)

(** C3, counterexample.  With the API key set, a session lost right
    after the launch makes [driver.get] raise; the [except] clause then
    raises in its own overlay update, [driver.quit()] still runs, and
    the process ends on the uncaught exception with exit code 1. *)
Lemma exit_code_1_with_api_key :
  getenv lost_session "OPENAI_API_KEY" = Some "sk-test"%string
  /\ workflow_result lost_session
     = Some (Raised webdriver_exception,
             [EvLog INFO ("Navigating to URL: " ++ url)%string; EvGet url])
  /\ quits (snd (run lost_session)) = 1
  /\ fst (run lost_session) = Uncaught webdriver_exception
  /\ exit_code (fst (run lost_session)) = 1
  /\ ~ (forall w : World,
          exit_code (fst (run w)) = 1 <-> getenv w "OPENAI_API_KEY" = None).
Proof.
  split; [reflexivity|]. split; [vm_compute; reflexivity|].
  split; [vm_compute; reflexivity|]. split; [vm_compute; reflexivity|].
  split; [vm_compute; reflexivity|].
  intros H. assert (E : exit_code (fst (run lost_session)) = 1) by (vm_compute; reflexivity).
  apply (H lost_session) in E. discriminate E.
Qed.

(** C7, counterexample.  The model answers in two lines; the overlay
    update that shows the answer pastes the line break into a
    JavaScript string literal, the script is rejected and
    [execute_script] raises.  The workflow ends there: nothing is
    clicked and the Next control is never looked up, although with the
    same answers and scripts that run the workflow goes on to look it
    up. *)
Lemma overlay_failure_aborts_run :
  let s := update_overlay_script ("AI Chose: " ++ two_lines) in
  let before := firstn 80 (snd (run chatty)) in
  snd (run chatty)
  = before ++ [ EvScript s [];
                EvLog ERROR "An error occurred during execution:";
                EvScript (update_overlay_script "An error occurred!") [];
                EvSleep 3;
                EvLog INFO "Closing browser...";
                EvQuit ]
  /\ overlay_script s
  /\ execute_script chatty before s [] = Raised (Exn "JavascriptException" "SyntaxError")
  /\ (exists d, workflow_result chatty
                = Some (Raised (Exn "JavascriptException" "SyntaxError"), d))
  /\ clicked (snd (run chatty)) = []
  /\ ~ In (EvFindElement XPATH next_xpath) (snd (run chatty))
  /\ In (EvFindElement XPATH next_xpath) (snd (run (answering two_lines))).
Proof.
  intros s before.
  split; [vm_compute; reflexivity|].
  split; [right; right; now exists ("AI Chose: " ++ two_lines)%string|].
  split; [vm_compute; reflexivity|].
  split; [eexists; vm_compute; reflexivity|].
  split; [vm_compute; reflexivity|].
  split.
  - assert (H : forallb (fun ev => match ev with
                                   | EvFindElement XPATH _ => false
                                   | _ => true
                                   end) (snd (run chatty)) = true)
      by (vm_compute; reflexivity).
    rewrite forallb_forall in H. intros Hin. specialize (H _ Hin). discriminate H.
  - assert (H : existsb (fun ev => match ev with
                                   | EvFindElement XPATH sel => (sel =? next_xpath)%string
                                   | _ => false
                                   end) (snd (run (answering two_lines))) = true)
      by (vm_compute; reflexivity).
    apply existsb_exists in H. destruct H as (ev & Hin & Hev).
    destruct ev; try discriminate Hev. destruct b; try discriminate Hev.
    apply String.eqb_eq in Hev. now subst sel.
Qed.

(** C10.  The code parts from the claim for [update_overlay]: on the
    survey page, which has no overlay element, [remove_overlay] makes
    its one call and returns, but [update_overlay] with a text that is
    one line feed raises.  Line 67 pastes the text unescaped between the
    double quotes of a string literal of the script; the line feed ends
    that literal early, the script is a syntax error, and the guard on
    the overlay element is never evaluated. *)
Lemma update_overlay_raises_on_line_break :
  JS.getElementById survey_page overlay_id = None
  /\ remove_overlay scripted [] = (Ok tt, [EvScript remove_overlay_script []])
  /\ JS.run_script text_only (update_overlay_script nl) survey_page
     = Some (JS.Throw "SyntaxError")
  /\ update_overlay scripted nl []
     = (Raised (Exn "JavascriptException" "SyntaxError"),
        [EvScript (update_overlay_script nl) []]).
Proof. repeat split; vm_compute; reflexivity. Qed.

(** * Further properties of the script *)

(** ** How many calls a run makes *)

Section Counting.

Variable kind : event -> bool.

Lemma calls_app d1 d2 : calls kind (d1 ++ d2) = calls kind d1 + calls kind d2.
Proof. unfold calls. now rewrite filter_app, length_app. Qed.

Lemma calls_none d : Forall (fun ev => kind ev = false) d -> calls kind d = 0.
Proof.
  unfold calls. induction 1 as [|ev d Hev _ IH]; [reflexivity|].
  simpl. now rewrite Hev.
Qed.

Lemma at_most_zero {A} (m : M A) :
  emits (fun ev => kind ev = false) m -> at_most kind 0 m.
Proof. intros H h. now rewrite (calls_none _ (H h)). Qed.

Lemma at_most_le {A} (m : M A) n k : at_most kind n m -> n <= k -> at_most kind k m.
Proof. intros H Hle h. specialize (H h). lia. Qed.

Lemma at_most_call {A} ev (f : trace -> outcome A) : at_most kind 1 (call ev f).
Proof. intros h. unfold calls. simpl. destruct (kind ev); simpl; lia. Qed.

Lemma at_most_bind {A B} (m : M A) (k : A -> M B) n1 n2 :
  at_most kind n1 m -> (forall a, at_most kind n2 (k a)) ->
  at_most kind (n1 + n2) (x <- m ;; k x).
Proof.
  intros Hm Hk h. rewrite run_bind. specialize (Hm h).
  destruct (m h) as [[a|e] d1]; simpl in *; [|lia].
  specialize (Hk a (h ++ d1)). destruct (k a (h ++ d1)) as [r d2]; simpl in *.
  rewrite calls_app. lia.
Qed.

Lemma at_most_try_except {A} (m : M A) (handler : exn -> M A) n1 n2 :
  at_most kind n1 m -> (forall e, at_most kind n2 (handler e)) ->
  at_most kind (n1 + n2) (try_except m handler).
Proof.
  intros Hm Hk h. unfold try_except. specialize (Hm h).
  destruct (m h) as [[a|e] d1]; simpl in *; [lia|].
  specialize (Hk e (h ++ d1)). destruct (handler e (h ++ d1)) as [r d2]; simpl in *.
  rewrite calls_app. lia.
Qed.

Lemma at_most_try_finally {A} (m : M A) (c : M unit) n1 n2 :
  at_most kind n1 m -> at_most kind n2 c -> at_most kind (n1 + n2) (try_finally m c).
Proof.
  intros Hm Hc h. unfold try_finally. specialize (Hm h).
  destruct (m h) as [r d1]; simpl in *.
  specialize (Hc (h ++ d1)). destruct (c (h ++ d1)) as [[u|e] d2]; simpl in *;
    rewrite calls_app; lia.
Qed.

End Counting.

(** Splits a sequence whose first part makes no call of the kind. *)
Ltac skip_quiet :=
  eapply at_most_bind;
    [apply at_most_zero; emits_tac; try reflexivity | intros ?].

Section RunCounts.

Variable w : World.

Section QuietLoops.

Variable P : event -> Prop.
Hypothesis P_quiet :
  forall ev, is_chat ev = false -> is_get ev = false -> is_quit ev = false ->
             is_click ev = false -> P ev.

Lemma quiet_extract_options option_inputs : emits P (extract_options w option_inputs).
Proof.
  induction option_inputs as [|radio rest IH]; simpl; emits_tac;
    try assumption; apply P_quiet; reflexivity.
Qed.

Lemma quiet_report_options options_list : forall idx,
  emits P (report_options w options_list idx).
Proof.
  induction options_list as [|[radio text] rest IH]; intros idx; simpl; emits_tac;
    try apply IH; apply P_quiet; reflexivity.
Qed.

Hypothesis P_click : forall e, P (EvClick e).

Lemma quiet_match_option options_list chosen_option :
  emits P (match_option w options_list chosen_option).
Proof.
  induction options_list as [|[radio text] rest IH]; simpl; emits_tac;
    try assumption; first [apply P_click | apply P_quiet; reflexivity].
Qed.

End QuietLoops.

(** The trace of a run: the set-up, then nothing, the error line, or
    the launch and the session. *)
Lemma run_trace :
  exists d d',
    snd (run w) = d ++ d'
    /\ d = snd ((logging_setup w ;; load_api_key w) [])
    /\ (d' = [] \/ d' = [EvLog ERROR missing_key_error]
        \/ d' = snd ((launch_browser w ;; session w) d)).
Proof.
  unfold run, main.
  destruct ((logging_setup w ;; load_api_key w) []) as [[api_key|e] d].
  - destruct (truthy api_key).
    + simpl app.
      destruct ((launch_browser w ;; session w) d) as [r d'] eqn:E.
      exists d, d'. split; [destruct r as [[]|e]; reflexivity|].
      split; [reflexivity|]. right. right. now rewrite E.
    + exists d, [EvLog ERROR missing_key_error]. simpl. auto.
  - exists d, []. rewrite app_nil_r. simpl. auto.
Qed.

Lemma run_at_most kind n :
  kind (EvLog ERROR missing_key_error) = false ->
  at_most kind 0 (logging_setup w ;; load_api_key w) ->
  at_most kind n (launch_browser w ;; session w) ->
  calls kind (snd (run w)) <= n.
Proof.
  intros Hlog Hs Hl. destruct run_trace as (d & d' & -> & Hd & Hd').
  rewrite calls_app. specialize (Hs []). rewrite <- Hd in Hs.
  destruct Hd' as [ -> | [ -> | -> ] ].
  - unfold calls at 2. simpl. lia.
  - unfold calls at 2. simpl. rewrite Hlog. simpl. lia.
  - specialize (Hl d). lia.
Qed.

Lemma decision_client_one_request rendered_html question_text options_list :
  at_most is_chat 1 (decision_client w rendered_html question_text options_list).
Proof.
  unfold decision_client. eapply at_most_le.
  - do 3 skip_quiet. eapply at_most_bind; [apply at_most_call|intros ?].
    apply at_most_zero. emits_tac.
  - simpl. lia.
Qed.

Lemma workflow_one_request : at_most is_chat 1 (workflow w).
Proof.
  unfold workflow. eapply at_most_le.
  - do 4 skip_quiet.
    eapply at_most_bind;
      [apply at_most_zero, quiet_extract_options; intros; assumption|intros ?].
    eapply at_most_bind;
      [apply at_most_zero, quiet_report_options; intros; assumption|intros ?].
    eapply at_most_bind; [|intros ?].
    + unfold step4_decide.
      eapply at_most_bind; [apply decision_client_one_request|intros ?].
      apply at_most_zero. emits_tac; reflexivity.
    + apply at_most_zero. emits_tac; try reflexivity.
      apply quiet_match_option; [intros; assumption|reflexivity].
  - simpl. lia.
Qed.

(** X1. A run sends at most one request to the completion service. *)
Theorem run_sends_at_most_one_request : length (chats (snd (run w))) <= 1.
Proof.
  change (calls is_chat (snd (run w)) <= 1). apply run_at_most; [reflexivity|..].
  - apply at_most_zero. emits_tac; reflexivity.
  - eapply at_most_le.
    + eapply at_most_bind; [apply at_most_zero; emits_tac; reflexivity|intros ?].
      unfold session. apply at_most_try_finally.
      * apply at_most_try_except; [apply workflow_one_request|intros e].
        apply at_most_zero. emits_tac; reflexivity.
      * apply at_most_zero. emits_tac; reflexivity.
    + simpl. lia.
Qed.

Lemma match_option_one_click options_list chosen_option :
  at_most is_click 1 (match_option w options_list chosen_option).
Proof.
  induction options_list as [|[radio text] rest IH]; simpl.
  - eapply at_most_le; [apply at_most_zero; emits_tac|lia].
  - destruct (text =? chosen_option)%string; [|exact IH].
    unfold choose_option. eapply at_most_le.
    + do 2 skip_quiet. eapply at_most_bind; [apply at_most_call|intros ?].
      apply at_most_zero. emits_tac; reflexivity.
    + simpl. lia.
Qed.

Lemma action_executor_two_clicks options_list chosen_option :
  at_most is_click 2 (action_executor w options_list chosen_option).
Proof.
  unfold action_executor, step5_click_option, step6_click_next. eapply at_most_le.
  - eapply at_most_bind; [|intros ?].
    + eapply at_most_bind; [apply match_option_one_click|intros ?].
      apply at_most_zero. emits_tac; reflexivity.
    + apply at_most_try_except; [|intros e; apply at_most_zero; emits_tac; reflexivity].
      do 4 skip_quiet. eapply at_most_bind; [apply at_most_call|intros ?].
      apply at_most_zero. emits_tac; reflexivity.
  - simpl. lia.
Qed.

(** X2. A run clicks at most twice: the loop of step 5 clicks at most
    one option control and step 6 clicks at most once. *)
Theorem run_clicks_at_most_twice :
  length (clicked (snd (run w))) <= 2
  /\ (forall options_list chosen_option h,
        length (clicked (snd (match_option w options_list chosen_option h))) <= 1).
Proof.
  assert (Hlen : forall d, length (clicked d) = calls is_click d).
  { induction d as [|ev d IH]; [reflexivity|].
    change (ev :: d) with ([ev] ++ d). rewrite clicked_app, calls_app, length_app, IH.
    now destruct ev. }
  split.
  - rewrite Hlen. apply run_at_most; [reflexivity|..].
    + apply at_most_zero. emits_tac; reflexivity.
    + eapply at_most_le.
      * eapply at_most_bind; [apply at_most_zero; emits_tac; reflexivity|intros ?].
        unfold session. apply at_most_try_finally.
        -- apply at_most_try_except;
             [|intros e; apply at_most_zero; emits_tac; reflexivity].
           unfold workflow. do 4 skip_quiet.
           eapply at_most_bind;
             [apply at_most_zero, quiet_extract_options; intros; assumption|intros ?].
           eapply at_most_bind;
             [apply at_most_zero, quiet_report_options; intros; assumption|intros ?].
           skip_quiet.
           eapply at_most_bind; [apply action_executor_two_clicks|intros ?].
           apply at_most_zero. emits_tac; reflexivity.
        -- apply at_most_zero. emits_tac; reflexivity.
      * simpl. lia.
  - intros options_list chosen_option h. rewrite Hlen.
    apply match_option_one_click.
Qed.

Lemma navigations_app d1 d2 : navigations (d1 ++ d2) = navigations d1 ++ navigations d2.
Proof. apply flat_map_app. Qed.

Lemma navigations_bounded d :
  calls is_get d <= 1 -> Forall only_survey_url d ->
  navigations d = [] \/ navigations d = [url].
Proof.
  induction d as [|ev d IH]; [now left|].
  change (ev :: d) with ([ev] ++ d). rewrite calls_app, navigations_app.
  intros Hc Hall. inversion Hall as [|? ? Hev Hd]. subst.
  destruct ev; simpl in *; try (apply IH; [lia|assumption]).
  right. rewrite (Hev url0 eq_refl). unfold calls in Hc. simpl in Hc.
  destruct (IH ltac:(unfold calls; lia) Hd) as [E|E]; rewrite E.
  - reflexivity.
  - exfalso. clear - Hc E. induction d as [|ev d IH]; [discriminate|].
    destruct ev; simpl in *; try (apply IH; [lia|assumption]). lia.
Qed.

Ltac url_goal :=
  let H := fresh in
  intros ? H; first [discriminate H | injection H as <-; reflexivity].

Lemma only_survey_url_quiet ev : is_get ev = false -> only_survey_url ev.
Proof. intros H u ->. discriminate H. Qed.

(** X3. A run navigates at most once, and only to the address of the
    survey. *)
Theorem run_navigates_to_survey_only :
  navigations (snd (run w)) = [] \/ navigations (snd (run w)) = [url].
Proof.
  apply navigations_bounded.
  - apply run_at_most; [reflexivity|..].
    + apply at_most_zero. emits_tac; reflexivity.
    + eapply at_most_le.
      * eapply at_most_bind; [apply at_most_zero; emits_tac; reflexivity|intros ?].
        unfold session. apply at_most_try_finally.
        -- apply at_most_try_except;
             [|intros e; apply at_most_zero; emits_tac; reflexivity].
           unfold workflow, step1_open_page.
           eapply at_most_bind; [|intros ?].
           ++ skip_quiet. eapply at_most_bind; [apply at_most_call|intros ?].
              apply at_most_zero. emits_tac; reflexivity.
           ++ do 3 skip_quiet.
              eapply at_most_bind;
                [apply at_most_zero, quiet_extract_options; intros; assumption|intros ?].
              eapply at_most_bind;
                [apply at_most_zero, quiet_report_options; intros; assumption|intros ?].
              apply at_most_zero. emits_tac; try reflexivity.
              apply quiet_match_option; [intros; assumption|reflexivity].
        -- apply at_most_zero. emits_tac; reflexivity.
      * simpl. lia.
  - destruct run_trace as (d & d' & -> & Hd & Hd'). apply Forall_app. split.
    + rewrite Hd.
      assert (H : emits only_survey_url (logging_setup w ;; load_api_key w))
        by (emits_tac; url_goal).
      apply H.
    + destruct Hd' as [ -> | [ -> | -> ] ].
      * constructor.
      * repeat constructor. url_goal.
      * assert (H : emits only_survey_url (launch_browser w ;; session w)).
        { unfold session, workflow. emits_tac; try url_goal.
          - apply quiet_extract_options. intros ev _ H _ _.
            now apply only_survey_url_quiet.
          - apply quiet_report_options. intros ev _ H _ _.
            now apply only_survey_url_quiet.
          - apply quiet_match_option; [|intros e; url_goal].
            intros ev _ H _ _. now apply only_survey_url_quiet. }
        apply H.
Qed.

End RunCounts.

(** ** Where a run stops *)

Section Stops.

Variable w : World.

Lemma quit_position (x : trace) before after :
  Forall (fun ev => ev <> EvQuit) x ->
  x ++ [EvQuit] = before ++ EvQuit :: after -> after = [].
Proof.
  intros Hx E. apply app_split in E. destruct E as [(t & -> & _)|(t & -> & E)].
  - apply Forall_app in Hx. destruct Hx as [_ Hx]. inversion Hx as [|? ? Hq _].
    now elim Hq.
  - apply singleton_split in E. tauto.
Qed.

Lemma setup_no_quit : Forall (fun ev => ev <> EvQuit) (snd ((logging_setup w ;; load_api_key w) [])).
Proof.
  eapply Forall_impl; [|apply (setup_emits_no_driver_event w [])].
  intros ev Hev ->. discriminate Hev.
Qed.

(** The trace of a run, around [driver.quit()]. *)
Lemma run_quit_shape :
  (workflow_result w = None /\ Forall (fun ev => ev <> EvQuit) (snd (run w)))
  \/ (workflow_result w <> None
      /\ exists x, Forall (fun ev => ev <> EvQuit) x /\ snd (run w) = x ++ [EvQuit]).
Proof.
  pose proof setup_no_quit as Hs.
  unfold workflow_result, run, main in *.
  destruct ((logging_setup w ;; load_api_key w) []) as [[api_key|e] d0];
    [|left; split; [reflexivity|exact Hs]].
  simpl in Hs. destruct (truthy api_key).
  - rewrite run_bind. simpl app.
    pose proof (launch_browser_emits_no_quit w d0) as Hl.
    destruct (launch_browser w d0) as [[[]|e] d1]; simpl in Hl.
    + right. split; [discriminate|].
      destruct (session_run w (d0 ++ d1)) as (r & dt & _ & Ht & ->).
      exists (d0 ++ d1 ++ dt ++ [EvLog INFO "Closing browser..."]). split.
      * repeat (apply Forall_app; split; try assumption). repeat constructor. discriminate.
      * destruct (driver_quit w _) as [[]|e], r as [[]|e']; simpl;
          now rewrite <- !app_assoc.
    + left. split; [reflexivity|]. simpl. apply Forall_app. now split.
  - left. split; [reflexivity|]. simpl. apply Forall_app. split; [exact Hs|].
    repeat constructor. discriminate.
Qed.

(** X4. [driver.quit()] is invoked in the runs that enter the [try]
    statement, once, and in no other run; when it is invoked it is the
    last call of the run, so that nothing uses the driver after it. *)
Theorem quit_is_final :
  (workflow_result w = None -> quits (snd (run w)) = 0)
  /\ (workflow_result w <> None -> quits (snd (run w)) = 1)
  /\ (forall before after, snd (run w) = before ++ EvQuit :: after -> after = []).
Proof.
  destruct run_quit_shape as [[Hn Hall]|[Hs (x & Hx & E)]].
  - split; [intros _; now apply no_quit_quits|]. split; [intros H; now elim H|].
    intros before after E. rewrite E in Hall. apply Forall_app in Hall.
    destruct Hall as [_ Hall]. inversion Hall as [|? ? Hq _]. now elim Hq.
  - split; [intros H; now elim Hs|]. split.
    + intros _. rewrite E, quits_app, (no_quit_quits _ Hx). reflexivity.
    + intros before after E'. rewrite E in E'. now apply quit_position in E'.
Qed.

(** X5. When the browser starts and its window cannot be maximized, the
    exception is not caught: the process ends with exit code 1, and the
    browser that was launched is never closed. *)
Theorem maximize_failure_leaves_browser (e : exn) :
  truthy (getenv w "OPENAI_API_KEY") = true ->
  logging_starts w ->
  maximize_fails w e ->
  fst (run w) = Uncaught e
  /\ exit_code (fst (run w)) = 1
  /\ In EvChrome (snd (run w))
  /\ quits (snd (run w)) = 0.
Proof.
  intros Hk Hlog [Hc Hm]. unfold logging_starts in Hlog.
  pose proof setup_no_quit as Hq.
  assert (Hl : forall d0, launch_browser w d0 = (Raised e, [EvChrome; EvMaximize])).
  { intros d0. unfold launch_browser, call. now rewrite run_bind, Hc, Hm. }
  unfold run, main.
  destruct ((logging_setup w ;; load_api_key w) []) as [r d0] eqn:Hs.
  assert (Hr : r = Ok (getenv w "OPENAI_API_KEY")).
  { rewrite run_bind in Hs. destruct (logging_setup w []) as [[[]|e0] d]; [|discriminate].
    rewrite load_api_key_run in Hs. now injection Hs as <- _. }
  subst r. rewrite Hk, run_bind. simpl app. rewrite Hl. simpl in *.
  split; [reflexivity|]. split; [reflexivity|]. split.
  - apply in_or_app. right. now left.
  - rewrite quits_app, (no_quit_quits _ Hq). reflexivity.
Qed.

Lemma never_bind_left {A B} (m : M A) (k : A -> M B) :
  never_returns m -> never_returns (x <- m ;; k x).
Proof.
  intros Hm h. rewrite run_bind. destruct (Hm h) as (e & He).
  destruct (m h) as [[a|e'] d]; simpl in He; [discriminate|]. now exists e'.
Qed.

Lemma never_bind_right {A B} (m : M A) (k : A -> M B) :
  (forall a, never_returns (k a)) -> never_returns (x <- m ;; k x).
Proof.
  intros Hk h. rewrite run_bind. destruct (m h) as [[a|e] d]; [|now exists e].
  destruct (Hk a (h ++ d)) as (e & He). destruct (k a (h ++ d)) as [r d2].
  simpl in *. now exists e.
Qed.

Lemma emits_bind_never {A B} (P : event -> Prop) (m : M A) (k : A -> M B) :
  emits P m -> never_returns m -> emits P (x <- m ;; k x).
Proof.
  intros Hm Hn h. rewrite run_bind. specialize (Hm h). destruct (Hn h) as (e & He).
  destruct (m h) as [[a|e'] d]; simpl in *; [discriminate|exact Hm].
Qed.

Lemma step3_never_returns : question_missing w -> never_returns (step3_question w).
Proof.
  intros Hq. apply never_bind_left. intros h. unfold driver_find_element, call.
  destruct (Hq h) as (e & ->). now exists e.
Qed.

Lemma decision_client_never_returns rendered_html question_text options_list :
  no_usable_choice w ->
  never_returns (decision_client w rendered_html question_text options_list).
Proof.
  intros Hc. unfold decision_client. do 3 (apply never_bind_right; intros ?).
  intros h. rewrite run_bind. unfold call.
  destruct (chat_create w h _ _) as [[|[content|] rest]|e] eqn:E; simpl.
  - eexists. reflexivity.
  - now elim (Hc _ _ _ _ _ E).
  - eexists. reflexivity.
  - now exists e.
Qed.

Lemma no_chat_no_click_traces d :
  Forall no_chat_no_click d -> chats d = [] /\ clicked d = [].
Proof.
  induction 1 as [|ev d [Hc Hk] _ [IH1 IH2]]; [now split|].
  unfold chats in *. simpl. rewrite Hc. split; [exact IH1|].
  change (ev :: d) with ([ev] ++ d). rewrite clicked_app, IH2.
  now destruct ev.
Qed.

(** X6. When no element matches the selector of the question, the
    workflow ends with an exception at the latest at that lookup: the
    completion service is not called and nothing is clicked. *)
Theorem missing_question_is_fatal (h : trace) :
  question_missing w ->
  (exists e, fst (workflow w h) = Raised e)
  /\ chats (snd (workflow w h)) = []
  /\ clicked (snd (workflow w h)) = [].
Proof.
  intros Hq. pose proof (step3_never_returns Hq) as Hn. split.
  - apply (never_bind_right (step1_open_page w)). intros ?.
    apply never_bind_right. intros ?. now apply never_bind_left.
  - apply no_chat_no_click_traces.
    assert (H : emits no_chat_no_click (workflow w)).
    { unfold workflow. apply emits_bind; [emits_tac; split; reflexivity|intros ?].
      apply emits_bind; [emits_tac; split; reflexivity|intros ?].
      apply emits_bind_never; [emits_tac; split; reflexivity|exact Hn]. }
    apply H.
Qed.

(** X7. When the completion service raises or returns no first choice
    with a content, the workflow ends with an exception and clicks
    nothing, neither an option nor the Next control. *)
Theorem unusable_answer_is_fatal (h : trace) :
  no_usable_choice w ->
  (exists e, fst (workflow w h) = Raised e)
  /\ clicked (snd (workflow w h)) = [].
Proof.
  intros Hc.
  assert (Hn : forall rendered_html question_text options_list,
             never_returns (step4_decide w rendered_html question_text options_list)).
  { intros. apply never_bind_left. now apply decision_client_never_returns. }
  split.
  - apply (never_bind_right (step1_open_page w)). intros ?.
    do 5 (apply never_bind_right; intros ?). now apply never_bind_left.
  - apply no_click_clicked.
    assert (H : emits (fun ev => forall e, ev <> EvClick e) (workflow w)).
    { unfold workflow. apply emits_bind; [emits_tac; discriminate|intros ?].
      do 3 (apply emits_bind; [emits_tac; discriminate|intros ?]).
      apply emits_bind;
        [apply quiet_extract_options; intros ev _ _ _ H e ->; discriminate H|intros ?].
      apply emits_bind;
        [apply quiet_report_options; intros ev _ _ _ H e ->; discriminate H|intros ?].
      apply emits_bind_never; [emits_tac; discriminate|apply Hn]. }
    apply H.
Qed.

End Stops.

(** ** Steps that degrade without stopping the run *)

Section Degrading.

Variable w : World.

(** X8. Step 6 raises only when the overlay update of its own handler
    raises: when that update succeeds, step 6 returns whatever happens
    to the Next control.  When the lookup of the control raises, the
    step makes three calls: the lookup, a warning with the text of the
    exception, and the overlay update; it clicks nothing. *)
Theorem next_button_is_optional (h : trace) :
  (next_banner_succeeds w -> fst (step6_click_next w h) = Ok tt)
  /\ (forall e,
        find_element w h XPATH next_xpath = Raised e ->
        snd (step6_click_next w h)
        = [ EvFindElement XPATH next_xpath;
            EvLog WARNING ("Could not find the Next button: " ++ str_of_exn e)%string;
            EvScript (update_overlay_script "Next button not found!") [] ]).
Proof.
  split.
  - intros Hb. unfold step6_click_next, try_except.
    match goal with |- context [match ?m h with _ => _ end] => destruct (m h) as [[[]|e] d1] end;
      [reflexivity|].
    rewrite run_bind. unfold log, emit. rewrite update_overlay_run.
    destruct (Hb ((h ++ d1) ++ [EvLog WARNING ("Could not find the Next button: " ++ str_of_exn e)%string]))
      as (v & ->).
    reflexivity.
  - intros e He. unfold step6_click_next, try_except. rewrite run_bind.
    unfold driver_find_element at 1, call. rewrite He.
    rewrite run_bind. unfold log, emit. rewrite update_overlay_run.
    reflexivity.
Qed.


End Degrading.

(** ** Trimmed texts *)

Section Trimmed.

Lemma lstrip_head s :
  lstrip s = EmptyString \/ exists c r, lstrip s = String c r /\ isspace c = false.
Proof.
  induction s as [|c s IH]; simpl; [now left|].
  destruct (isspace c) eqn:E; [exact IH|]. right. now exists c, s.
Qed.

Lemma rstrip_idempotent s : rstrip (rstrip s) = rstrip s.
Proof.
  induction s as [|c s IH]; simpl; [reflexivity|].
  destruct (rstrip s) as [|c' r'] eqn:E.
  - destruct (isspace c) eqn:Ec; simpl; [reflexivity|now rewrite Ec].
  - change (rstrip (String c (String c' r'))
            = String c (String c' r')).
    change (rstrip (String c (String c' r')))
      with (match rstrip (String c' r') with
            | EmptyString => if isspace c then EmptyString else String c EmptyString
            | String a b => String c (String a b)
            end).
    now rewrite IH.
Qed.

Lemma rstrip_keeps_head c r :
  isspace c = false -> exists r', rstrip (String c r) = String c r'.
Proof.
  intros Hc. simpl. destruct (rstrip r); [rewrite Hc|]; now eexists.
Qed.

Lemma strip_trimmed s : lstrip (strip s) = strip s /\ rstrip (strip s) = strip s.
Proof.
  unfold strip. split; [|apply rstrip_idempotent].
  destruct (lstrip_head s) as [->|(c & r & -> & Hc)]; [reflexivity|].
  destruct (rstrip_keeps_head c r Hc) as (r' & ->). simpl. now rewrite Hc.
Qed.

Lemma strip_idempotent s : strip (strip s) = strip s.
Proof.
  destruct (strip_trimmed s) as [Hl Hr]. unfold strip at 1. now rewrite Hl.
Qed.

Variable w : World.

Lemma extract_option_trimmed radio h o d :
  extract_option w radio h = (Ok o, d) -> strip (snd o) = snd o.
Proof.
  unfold extract_option. rewrite run_bind. unfold call at 1.
  destruct (get_attribute w h radio "id") as [[id|]|e]; [| |discriminate].
  - destruct (truthy (Some id)); [|intros [= <- _]; reflexivity].
    rewrite run_bind. unfold try_except. rewrite run_bind.
    unfold driver_find_element, text_of, call.
    destruct (find_element w _ _ _) as [label|e]; [|intros [= <- _]; reflexivity].
    rewrite run_bind. destruct (elem_text w _ _) as [t|e]; intros [= <- _];
      [apply strip_idempotent|reflexivity].
  - intros [= <- _]. reflexivity.
Qed.

(** X10. Every string that the executor compares is trimmed: the texts
    of an extracted list, placeholders included, and the answer that
    the decision client returns are unchanged by [strip()], which is
    idempotent. *)
Theorem compared_texts_are_trimmed :
  (forall s, strip (strip s) = strip s)
  /\ (forall option_inputs h options_list d,
        extract_options w option_inputs h = (Ok options_list, d) ->
        forall radio text, In (radio, text) options_list -> strip text = text)
  /\ (forall rendered_html question_text options_list h chosen_option d,
        decision_client w rendered_html question_text options_list h
        = (Ok chosen_option, d) ->
        strip chosen_option = chosen_option).
Proof.
  split; [exact strip_idempotent|]. split.
  - induction option_inputs as [|radio0 rest IH]; simpl; intros h options_list d.
    + intros [= <- _] radio text [].
    + rewrite run_bind.
      pose proof (extract_option_trimmed radio0 h) as Ht.
      destruct (extract_option w radio0 h) as [[o|e] d1]; [|discriminate].
      rewrite run_bind. specialize (IH (h ++ d1)).
      destruct (extract_options w rest (h ++ d1)) as [[l|e] d2]; [|discriminate].
      intros [= <- _] radio text [E|Hin].
      * specialize (Ht _ _ eq_refl). now rewrite E in Ht.
      * exact (IH _ _ eq_refl _ _ Hin).
  - intros rendered_html question_text options_list h chosen_option d.
    rewrite decision_client_run.
    destruct (execute_script w _ _ _) as [v|e]; [|discriminate].
    destruct (chat_create w _ _ _) as [[|[content|] rest]|e]; try discriminate.
    intros [= <- _]. apply strip_idempotent.
Qed.

Lemma attribute_reads_app d1 d2 :
  attribute_reads (d1 ++ d2) = attribute_reads d1 ++ attribute_reads d2.
Proof. apply flat_map_app. Qed.

Lemma extract_option_reads radio h :
  Forall (fun ev => is_lookup ev = true) (snd (extract_option w radio h))
  /\ attribute_reads (snd (extract_option w radio h)) = [radio]
  /\ length (label_lookups (snd (extract_option w radio h))) <= 1.
Proof.
  unfold extract_option, try_except, driver_find_element, text_of, log, emit, call.
  simpl. unfold mbind, try_except. simpl.
  destruct (get_attribute w h radio "id") as [[id|]|e]; simpl;
    [|repeat constructor..].
  destruct (negb (id =? "")%string); simpl; [|repeat constructor].
  destruct (find_element w _ _ _) as [label|e]; simpl; [|repeat constructor].
  destruct (elem_text w _ _) as [t|e]; simpl; repeat constructor.
Qed.

(** X11. The extraction only reads: each of its calls is an attribute
    read, an element lookup, a text read or a log line, so that it
    never clicks, navigates or runs a script.  When it returns, it has
    read the [id] of each control once, in the order of the controls,
    and it has looked up at most one label per control. *)
Theorem extraction_only_reads (option_inputs : list elem) (h : trace) :
  Forall (fun ev => is_lookup ev = true) (snd (extract_options w option_inputs h))
  /\ length (label_lookups (snd (extract_options w option_inputs h)))
     <= length option_inputs
  /\ (forall options_list,
        fst (extract_options w option_inputs h) = Ok options_list ->
        attribute_reads (snd (extract_options w option_inputs h)) = option_inputs).
Proof.
  revert h. induction option_inputs as [|radio rest IH]; intros h.
  - simpl. repeat split; auto.
  - simpl extract_options. rewrite run_bind.
    destruct (extract_option_reads radio h) as (H1 & H2 & H3).
    destruct (extract_option w radio h) as [[o|e] d1]; simpl in H1, H2, H3.
    + specialize (IH (h ++ d1)). destruct IH as (I1 & I2 & I3). rewrite run_bind.
      destruct (extract_options w rest (h ++ d1)) as [[l|e] d2]; simpl in *.
      * rewrite app_nil_r. split; [apply Forall_app; now split|].
        unfold label_lookups in *. rewrite flat_map_app, length_app.
        split; [lia|]. intros _ _. rewrite attribute_reads_app, H2.
        simpl. f_equal. now apply (I3 l).
      * split; [apply Forall_app; now split|].
        unfold label_lookups in *. rewrite flat_map_app, length_app.
        split; [lia|discriminate].
    + simpl. split; [exact H1|]. split; [lia|discriminate].
Qed.

End Trimmed.

(** ** The overlay element in the page *)

Section OverlayElement.

Import JS.

Lemma first_some_none {A B} (f : A -> option B) l :
  first_some f l = None <-> Forall (fun x => f x = None) l.
Proof.
  induction l as [|x l IH]; simpl; [split; constructor|].
  destruct (f x) eqn:E; split.
  - discriminate.
  - intros H. inversion H as [|? ? Hx _]. congruence.
  - intros H. constructor; [exact E|now apply IH].
  - intros H. inversion H. now apply IH.
Qed.

Lemma first_some_skip {A B} (f : A -> option B) pre rest :
  Forall (fun x => f x = None) pre -> first_some f (pre ++ rest) = first_some f rest.
Proof. induction 1 as [|x pre Hx _ IH]; simpl; [reflexivity|now rewrite Hx]. Qed.

Lemma rewrite_first_spec {A} (f : A -> option A) l l' :
  rewrite_first f l = Some l' ->
  exists pre x x' post,
    l = pre ++ x :: post /\ l' = pre ++ x' :: post /\ f x = Some x'
    /\ Forall (fun y => f y = None) pre.
Proof.
  revert l'. induction l as [|a l IH]; simpl; intros l'; [discriminate|].
  destruct (f a) as [a'|] eqn:E.
  - intros [= <-]. exists [], a, a', l. repeat split; [exact E|constructor].
  - destruct (rewrite_first f l) as [r|]; [|discriminate]. intros [= <-].
    destruct (IH r eq_refl) as (pre & x & x' & post & -> & -> & Hx & Hpre).
    exists (a :: pre), x, x', post. repeat split; [exact Hx|now constructor].
Qed.

Lemma rewrite_first_skip {A} (f : A -> option A) pre rest :
  Forall (fun y => f y = None) pre ->
  rewrite_first f (pre ++ rest) = option_map (app pre) (rewrite_first f rest).
Proof.
  induction 1 as [|x pre Hx _ IH]; simpl.
  - now destruct (rewrite_first f rest).
  - rewrite Hx, IH. now destruct (rewrite_first f rest).
Qed.

Lemma remove_among_skip i below pre rest :
  Forall (fun y => has_id i y = false /\ below y = None) pre ->
  remove_among i below (pre ++ rest) = option_map (app pre) (remove_among i below rest).
Proof.
  induction 1 as [|x pre [Hi Hb] _ IH]; simpl.
  - now destruct (remove_among i below rest).
  - rewrite Hi, Hb, IH. now destruct (remove_among i below rest).
Qed.

(** A node without the identifier below it is left alone by the removal
    and by the update. *)
Lemma absent_in_node i n :
  find_in_node i n = None ->
  has_id i n = false /\ remove_below i n = None
  /\ forall new, set_children_in_node i new n = None.
Proof.
  induction n as [data|tag id style children IH] using node_induction; simpl.
  - auto.
  - destruct (id =? i)%string; [discriminate|]. intros Hc.
    apply first_some_none in Hc. split; [reflexivity|].
    assert (Hall : Forall (fun y => has_id i y = false /\ remove_below i y = None
                                   /\ forall new, set_children_in_node i new y = None)
                     children).
    { rewrite Forall_forall in *. intros y Hy. apply IH; [exact Hy|now apply Hc]. }
    split.
    + replace (remove_among i (remove_below i) children) with (@None (list node));
        [reflexivity|].
      symmetry. rewrite <- (app_nil_r children), remove_among_skip; [reflexivity|].
      eapply Forall_impl; [|exact Hall]. intros y (H1 & H2 & _). now split.
    + intros new.
      replace (rewrite_first (set_children_in_node i new) children)
        with (@None (list node)); [reflexivity|].
      symmetry. rewrite <- (app_nil_r children), rewrite_first_skip; [reflexivity|].
      eapply Forall_impl; [|exact Hall]. intros y (_ & _ & H). apply H.
Qed.

Lemma absent_in_forest i (l : list node) :
  first_some (find_in_node i) l = None ->
  Forall (fun y => has_id i y = false /\ remove_below i y = None
                   /\ forall new, set_children_in_node i new y = None) l.
Proof.
  intros H. apply first_some_none in H. eapply Forall_impl; [|exact H].
  intros y Hy. now apply absent_in_node.
Qed.

(** The update applies to a node exactly when the lookup finds the
    identifier in it. *)
Lemma set_children_defined i new n :
  find_in_node i n <> None -> set_children_in_node i new n <> None.
Proof.
  induction n as [data|tag id style children IH] using node_induction; simpl.
  - auto.
  - destruct (id =? i)%string; [discriminate|]. intros Hc.
    induction children as [|x children IHc]; simpl in *; [now elim Hc|].
    inversion IH as [|? ? Hx Hrest]. subst.
    destruct (find_in_node i x) eqn:Ex.
    + assert (Hs : set_children_in_node i new x <> None) by (apply Hx; discriminate).
      destruct (set_children_in_node i new x); [discriminate|now elim Hs].
    + destruct (absent_in_node i x Ex) as (_ & _ & Hn). rewrite Hn.
      specialize (IHc Hrest Hc).
      destruct (rewrite_first (set_children_in_node i new) children);
        [discriminate|now elim IHc].
Qed.

Lemma set_children_last_in_node i new1 new2 n n1 :
  set_children_in_node i new1 n = Some n1 ->
  set_children_in_node i new2 n1 = set_children_in_node i new2 n.
Proof.
  revert n1. induction n as [data|tag id style children IH] using node_induction;
    simpl; intros n1; [discriminate|].
  destruct (id =? i)%string eqn:Eid.
  - intros [= <-]. simpl. now rewrite Eid.
  - destruct (rewrite_first (set_children_in_node i new1) children) as [c1|] eqn:E;
      [|discriminate].
    intros [= <-]. simpl. rewrite Eid. f_equal.
    apply rewrite_first_spec in E.
    destruct E as (pre & x & x1 & post & -> & -> & Hx & Hpre).
    apply Forall_app in IH. destruct IH as [_ IH]. inversion IH as [|? ? IHx _]. subst.
    assert (Hpre2 : Forall (fun y => set_children_in_node i new2 y = None) pre).
    { eapply Forall_impl; [|exact Hpre]. intros y Hy.
      destruct (find_in_node i y) eqn:Ey.
      - exfalso. apply (set_children_defined i new1 y); [congruence|exact Hy].
      - now apply absent_in_node. }
    rewrite !rewrite_first_skip by exact Hpre2. simpl.
    rewrite (IHx _ Hx).
    assert (Hd : set_children_in_node i new2 x <> None).
    { apply set_children_defined. intros Ex.
      destruct (absent_in_node i x Ex) as (_ & _ & Hn). congruence. }
    destruct (set_children_in_node i new2 x); [reflexivity|now elim Hd].
Qed.

Lemma set_children_last i new1 new2 (d d1 : document) :
  set_children i new1 d = Some d1 ->
  set_children i new2 d1 = set_children i new2 d.
Proof.
  unfold set_children. intros E. apply rewrite_first_spec in E.
  destruct E as (pre & x & x1 & post & -> & -> & Hx & Hpre).
  assert (Hpre2 : Forall (fun y => set_children_in_node i new2 y = None) pre).
  { eapply Forall_impl; [|exact Hpre]. intros y Hy.
    destruct (find_in_node i y) eqn:Ey.
    - exfalso. apply (set_children_defined i new1 y); [congruence|exact Hy].
    - now apply absent_in_node. }
  rewrite !rewrite_first_skip by exact Hpre2. simpl.
  rewrite (set_children_last_in_node _ _ _ _ _ Hx).
  assert (Hd : set_children_in_node i new2 x <> None).
  { apply set_children_defined. intros Ex.
    destruct (absent_in_node i x Ex) as (_ & _ & Hn). congruence. }
  destruct (set_children_in_node i new2 x); [reflexivity|now elim Hd].
Qed.

Lemma set_children_keeps_element i new (d d1 : document) :
  set_children i new d = Some d1 -> getElementById d1 i <> None.
Proof.
  intros E Hn. unfold getElementById in Hn.
  pose proof (set_children_last i new new d d1 E) as H. rewrite E in H.
  unfold set_children in H. apply absent_in_forest in Hn.
  rewrite <- (app_nil_r d1), rewrite_first_skip in H; [discriminate|].
  eapply Forall_impl; [|exact Hn]. intros y (_ & _ & Hy). apply Hy.
Qed.

Lemma set_children_absent i new (d : document) :
  getElementById d i = None -> set_children i new d = None.
Proof.
  intros Hn. apply absent_in_forest in Hn. unfold set_children.
  rewrite <- (app_nil_r d), rewrite_first_skip; [reflexivity|].
  eapply Forall_impl; [|exact Hn]. intros y (_ & _ & Hy). apply Hy.
Qed.

Lemma set_children_present i new (d : document) :
  getElementById d i <> None -> set_children i new d <> None.
Proof.
  unfold getElementById, set_children.
  induction d as [|x d IH]; simpl; [auto|].
  destruct (find_in_node i x) eqn:Ex.
  - intros _. assert (Hs : set_children_in_node i new x <> None)
      by (apply set_children_defined; congruence).
    destruct (set_children_in_node i new x); [discriminate|now elim Hs].
  - destruct (absent_in_node i x Ex) as (_ & _ & Hn). rewrite Hn. intros H.
    specialize (IH H).
    destruct (rewrite_first (set_children_in_node i new) d); [discriminate|now elim IH].
Qed.

(** The two pages around [document.body.appendChild(child)]. *)
Lemma append_to_body_spec child (d d' : document) :
  append_to_body child d = Some d' ->
  exists pre rid rst cpre btag bid bst bch cpost post,
    d = pre ++ Element "html" rid rst (cpre ++ Element btag bid bst bch :: cpost) :: post
    /\ d' = pre ++ Element "html" rid rst
                     (cpre ++ Element btag bid bst (bch ++ [child]) :: cpost) :: post.
Proof.
  unfold append_to_body. intros E. apply rewrite_first_spec in E.
  destruct E as (pre & root & root' & post & -> & -> & Hroot & _).
  destruct root as [data|tag rid rst rch]; [discriminate Hroot|].
  destruct tag as [|[[] [] [] [] [] [] [] []] tag]; try discriminate Hroot.
  destruct tag as [|[[] [] [] [] [] [] [] []] tag]; try discriminate Hroot.
  destruct tag as [|[[] [] [] [] [] [] [] []] tag]; try discriminate Hroot.
  destruct tag as [|[[] [] [] [] [] [] [] []] tag]; try discriminate Hroot.
  destruct tag as [|a tag]; [|destruct a as [[] [] [] [] [] [] [] []]; discriminate Hroot].
  destruct (rewrite_first _ rch) as [rch'|] eqn:E; [|discriminate Hroot].
  injection Hroot as <-. apply rewrite_first_spec in E.
  destruct E as (cpre & b & b' & cpost & -> & -> & Hb & _).
  destruct (is_body b); [|discriminate Hb].
  destruct b as [data|btag bid bst bch]; [discriminate Hb|]. injection Hb as <-.
  now exists pre, rid, rst, cpre, btag, bid, bst, bch, cpost, post.
Qed.

Lemma appended_overlay (d d' : document) :
  getElementById d overlay_id = None ->
  append_to_body overlay_element d = Some d' ->
  getElementById d' overlay_id = Some overlay_element
  /\ remove_element overlay_id d' = Some d.
Proof.
  intros Habs E. apply append_to_body_spec in E.
  destruct E as (pre & rid & rst & cpre & btag & bid & bst & bch & cpost & post & -> & ->).
  unfold getElementById in Habs. pose proof Habs as Hall.
  apply first_some_none in Hall. apply Forall_app in Hall. destruct Hall as [Hpre Hroot].
  inversion Hroot as [|? ? Hr _]. subst. simpl in Hr.
  destruct (rid =? overlay_id)%string eqn:Erid; [discriminate|].
  apply first_some_none in Hr. apply Forall_app in Hr. destruct Hr as [Hcpre Hb].
  inversion Hb as [|? ? Hbody _]. subst. simpl in Hbody.
  destruct (bid =? overlay_id)%string eqn:Ebid; [discriminate|].
  apply first_some_none in Hbody. split.
  - unfold getElementById. rewrite (first_some_skip _ _ _ Hpre). simpl. rewrite Erid.
    rewrite (first_some_skip _ _ _ Hcpre). simpl. rewrite Ebid.
    rewrite (first_some_skip _ _ _ Hbody). reflexivity.
  - assert (Hskip : forall l, Forall (fun x => find_in_node overlay_id x = None) l ->
              Forall (fun y => has_id overlay_id y = false
                               /\ remove_below overlay_id y = None) l).
    { intros l Hl. eapply Forall_impl; [|exact Hl]. intros y Hy.
      destruct (absent_in_node _ _ Hy) as (H1 & H2 & _). now split. }
    unfold remove_element. rewrite (remove_among_skip _ _ _ _ (Hskip _ Hpre)).
    simpl. rewrite Erid. rewrite (remove_among_skip _ _ _ _ (Hskip _ Hcpre)).
    simpl. rewrite Ebid. rewrite (remove_among_skip _ _ _ _ (Hskip _ Hbody)).
    simpl. now rewrite app_nil_r.
Qed.

Lemma injected_page_has_overlay (d d' : document) :
  inject_overlay_js d = Normal d' -> exists n, getElementById d' overlay_id = Some n.
Proof.
  unfold inject_overlay_js. destruct (getElementById d overlay_id) as [n|] eqn:E.
  - intros [= <-]. now exists n.
  - destruct (append_to_body overlay_element d) as [d1|] eqn:Ea; [|discriminate].
    intros [= <-]. destruct (appended_overlay _ _ E Ea) as [Hp _].
    now exists overlay_element.
Qed.

(** X12. The script of [inject_overlay] is idempotent: when it ends
    normally the page has an element with the identifier of the
    overlay, and a second run leaves that page as it is; a page that
    already has such an element is not changed at all. *)
Theorem inject_overlay_idempotent (d d' : document) :
  inject_overlay_js d = Normal d' ->
  (exists n, getElementById d' overlay_id = Some n)
  /\ inject_overlay_js d' = Normal d'
  /\ (getElementById d overlay_id <> None -> d' = d).
Proof.
  unfold inject_overlay_js at 1. destruct (getElementById d overlay_id) as [n|] eqn:E.
  - intros [= <-]. split; [now exists n|]. split; [|reflexivity].
    unfold inject_overlay_js. now rewrite E.
  - destruct (append_to_body overlay_element d) as [d1|] eqn:Ea; [|discriminate].
    intros [= <-]. destruct (appended_overlay _ _ E Ea) as [Hp _].
    split; [exists overlay_element; exact Hp|]. split; [|intros H; now elim H].
    unfold inject_overlay_js. now rewrite Hp.
Qed.

(** X13. On a page without overlay, the script of [remove_overlay]
    undoes the script of [inject_overlay]: it gives the page back as it
    was. *)
Theorem remove_undoes_inject (d d' : document) :
  getElementById d overlay_id = None ->
  inject_overlay_js d = Normal d' ->
  remove_overlay_js d' = Normal d.
Proof.
  intros E. unfold inject_overlay_js. rewrite E.
  destruct (append_to_body overlay_element d) as [d1|] eqn:Ea; [|discriminate].
  intros [= <-]. destruct (appended_overlay _ _ E Ea) as [Hp Hr].
  unfold remove_overlay_js. now rewrite Hp, Hr.
Qed.

Section Updates.

Variable parse_html : string -> list node.

Lemma update_keeps_presence (html : string) (d d1 : document) :
  update_overlay_js parse_html html d = Normal d1 ->
  (getElementById d1 overlay_id = None <-> getElementById d overlay_id = None).
Proof.
  unfold update_overlay_js.
  destruct (getElementById d overlay_id) as [n|] eqn:E; [|intros [= <-]; tauto].
  destruct (set_children overlay_id (parse_html html) d) as [dd|] eqn:E1.
  - intros [= <-]. pose proof (set_children_keeps_element _ _ _ _ E1) as Hk.
    split; intros H; [now elim Hk|discriminate].
  - intros [= <-]. rewrite E. tauto.
Qed.

(** X14. The overlay shows the last update only: after the script of
    [update_overlay] has run with one markup, running it with a second
    markup gives the page that the second alone would give; and an
    update neither creates nor removes the overlay element. *)
Theorem update_overlay_last_wins (html1 html2 : string) (d d1 : document) :
  update_overlay_js parse_html html1 d = Normal d1 ->
  update_overlay_js parse_html html2 d1 = update_overlay_js parse_html html2 d
  /\ (getElementById d1 overlay_id = None <-> getElementById d overlay_id = None).
Proof.
  unfold update_overlay_js at 1.
  destruct (getElementById d overlay_id) as [n|] eqn:E; [|intros [= <-]; tauto].
  assert (Hp : getElementById d overlay_id <> None) by congruence.
  pose proof (set_children_present overlay_id (parse_html html1) d Hp) as Hs1.
  destruct (set_children overlay_id (parse_html html1) d) as [dd|] eqn:E1;
    [|now elim Hs1].
  intros [= <-]. pose proof (set_children_keeps_element _ _ _ _ E1) as Hk.
  split; [|split; intros H; [now elim Hk|congruence]].
  unfold update_overlay_js. rewrite E.
  destruct (getElementById dd overlay_id) as [n'|]; [|now elim Hk].
  rewrite (set_children_last _ _ (parse_html html2) _ _ E1).
  pose proof (set_children_present overlay_id (parse_html html2) d Hp) as Hs2.
  destruct (set_children overlay_id (parse_html html2) d); [reflexivity|now elim Hs2].
Qed.

Lemma append_assoc (a b c : string) : ((a ++ b) ++ c = a ++ b ++ c)%string.
Proof. induction a as [|x a IH]; simpl; [reflexivity|now rewrite IH]. Qed.

Lemma scan_literal_line_break s c rest :
  literal_safe s = true ->
  ((c =? "010") || (c =? "013"))%char = true ->
  scan_literal (s ++ String c rest)%string = LineBreak.
Proof.
  intros Hs Hc. induction s as [|a s IH]; simpl.
  - destruct (c =? "034")%char eqn:Eq; [|now rewrite Hc].
    apply Ascii.eqb_eq in Eq. subst c. discriminate Hc.
  - simpl in Hs. apply andb_prop in Hs. destruct Hs as [Ha Hs].
    apply negb_true_iff in Ha.
    repeat (apply orb_false_elim in Ha; destruct Ha as [Ha ?]).
    rewrite Ha. replace ((a =? "010") || (a =? "013"))%char with false
      by (symmetry; apply orb_false_intro; assumption).
    replace (a =? "092")%char with false by (symmetry; assumption).
    now rewrite (IH Hs).
Qed.

(** X15. A text in which a line feed or a carriage return comes before
    any double quote or backslash makes the script of [update_overlay]
    a syntax error, on every page, with or without overlay: the text is
    pasted as it is into a string literal. *)
Theorem line_break_breaks_update (before after : string) (c : ascii) (d : document) :
  literal_safe before = true ->
  ((c =? "010") || (c =? "013"))%char = true ->
  run_script parse_html (update_overlay_script (before ++ String c after)) d
  = Some (Throw "SyntaxError").
Proof.
  intros Hs Hc. unfold run_script.
  replace (update_overlay_script (before ++ String c after) =? inject_overlay_script)%string
    with false by reflexivity.
  replace (update_overlay_script (before ++ String c after) =? remove_overlay_script)%string
    with false by reflexivity.
  change (update_overlay_script (before ++ String c after))
    with ((update_overlay_head ++ dquote)
          ++ ((div_open ++ (before ++ String c after) ++ div_close)
              ++ String "034" update_overlay_tail))%string.
  replace ((div_open ++ (before ++ String c after) ++ div_close)
           ++ String "034" update_overlay_tail)%string
    with ((div_open ++ before)
          ++ String c (after ++ div_close ++ String "034" update_overlay_tail))%string.
  - rewrite strip_prefix_app, scan_literal_line_break; [reflexivity| |exact Hc].
    rewrite literal_safe_app, Hs. reflexivity.
  - rewrite !append_assoc. reflexivity.
Qed.

End Updates.

End OverlayElement.

(** ** The overlay functions in a browser that runs their scripts *)

Section ScriptedBrowser.

Variable parse_html : string -> list JS.node.
Variable base : World.
Variable d0 : JS.document.

Lemma update_overlay_js_normal html d :
  exists d2, JS.update_overlay_js parse_html html d = JS.Normal d2.
Proof.
  unfold JS.update_overlay_js. destruct (JS.getElementById d overlay_id); [|now eexists].
  destruct (JS.set_children _ _ d); now eexists.
Qed.

Lemma run_script_inject d :
  JS.run_script parse_html inject_overlay_script d = Some (JS.inject_overlay_js d).
Proof. reflexivity. Qed.

Lemma literal_safe_answer chosen_option :
  JS.literal_safe ("AI Chose: " ++ chosen_option) = JS.literal_safe chosen_option.
Proof. reflexivity. Qed.

(** X16. In a browser that runs the overlay scripts, [update_overlay]
    does not raise for a text without double quote, backslash or line
    terminator, whatever the page; so it does not raise for the text
    that shows the answer when the answer is such a text.
    [inject_overlay] with such a text raises only when the page has
    neither an overlay nor a body, with the error of the script, after
    one call; otherwise it makes its two calls and leaves a page with
    the overlay. *)
Theorem scripted_overlay_calls (text : string) (h : trace) :
  JS.literal_safe text = true ->
  let w := JS.with_page parse_html base d0 in
  let page := JS.page_after parse_html d0 h in
  update_overlay w text h = (Ok tt, [EvScript (update_overlay_script text) []])
  /\ update_overlay w ("AI Chose: " ++ text) h
     = (Ok tt, [EvScript (update_overlay_script ("AI Chose: " ++ text)) []])
  /\ (forall d1,
        JS.inject_overlay_js page = JS.Normal d1 ->
        inject_overlay w text h
        = (Ok tt, [ EvScript inject_overlay_script [];
                    EvScript (update_overlay_script text) [] ])
        /\ JS.getElementById
             (JS.page_after parse_html d0 (h ++ snd (inject_overlay w text h)))
             overlay_id <> None)
  /\ (forall error,
        JS.inject_overlay_js page = JS.Throw error ->
        error = "TypeError"%string
        /\ JS.getElementById page overlay_id = None
        /\ inject_overlay w text h
           = (Raised (Exn "JavascriptException" error), [EvScript inject_overlay_script []])).
Proof.
  intros Hsafe w page.
  assert (Hupd : forall t h', JS.literal_safe t = true ->
            update_overlay w t h' = (Ok tt, [EvScript (update_overlay_script t) []])).
  { intros t h' Ht. rewrite update_overlay_run. unfold w.
    cbn [execute_script JS.with_page]. rewrite (run_script_update parse_html _ _ Ht).
    destruct (update_overlay_js_normal (div_open ++ t ++ div_close)
                (JS.page_after parse_html d0 h')) as (d2 & ->).
    reflexivity. }
  split; [now apply Hupd|]. split; [apply Hupd; now rewrite literal_safe_answer|].
  split.
  - intros d1 Hinj.
    assert (E : inject_overlay w text h
                = (Ok tt, [ EvScript inject_overlay_script [];
                            EvScript (update_overlay_script text) [] ])).
    { unfold inject_overlay, exec_script, call. rewrite run_bind.
      unfold w at 1. cbn [execute_script JS.with_page].
      rewrite run_script_inject. fold page. rewrite Hinj.
      now rewrite (Hupd _ _ Hsafe). }
    split; [exact E|]. rewrite E. cbn [snd].
    change (h ++ [EvScript inject_overlay_script []; EvScript (update_overlay_script text) []])
      with (h ++ [EvScript inject_overlay_script []] ++ [EvScript (update_overlay_script text) []]).
    rewrite app_assoc, !page_after_snoc, run_script_inject. fold page. rewrite Hinj.
    rewrite (run_script_update parse_html _ _ Hsafe).
    destruct (injected_page_has_overlay _ _ Hinj) as (n & Hn).
    destruct (update_overlay_js_normal (div_open ++ text ++ div_close) d1) as (d2 & E2).
    rewrite E2. intros Habs.
    apply (update_keeps_presence parse_html _ _ _ E2) in Habs.
    congruence.
  - intros error Hinj.
    assert (Herr : error = "TypeError"%string
                   /\ JS.getElementById page overlay_id = None).
    { unfold JS.inject_overlay_js in Hinj.
      destruct (JS.getElementById page overlay_id); [discriminate|].
      destruct (JS.append_to_body _ page); [discriminate|]. now injection Hinj as <-. }
    destruct Herr as [-> Habs]. split; [reflexivity|]. split; [exact Habs|].
    unfold inject_overlay, exec_script, call. rewrite run_bind.
    unfold w at 1. cbn [execute_script JS.with_page].
    rewrite run_script_inject. fold page. now rewrite Hinj.
Qed.

End ScriptedBrowser.

(** ** A run without failure *)

Section Cooperative.

Variable w : World.
Hypothesis coop : cooperates w.

Lemma returns_ret {A} (a : A) : returns (ret a).
Proof. intros h. now exists a, []. Qed.

Lemma returns_emit ev : returns (emit ev).
Proof. intros h. now exists tt, [ev]. Qed.

Lemma returns_call {A} ev (f : trace -> outcome A) :
  (forall h, exists a, f h = Ok a) -> returns (call ev f).
Proof. intros H h. destruct (H h) as (a & E). exists a, [ev]. unfold call. now rewrite E. Qed.

Lemma returns_bind {A B} (m : M A) (k : A -> M B) :
  returns m -> (forall a, returns (k a)) -> returns (x <- m ;; k x).
Proof.
  intros Hm Hk h. rewrite run_bind. destruct (Hm h) as (a & d1 & ->).
  destruct (Hk a (h ++ d1)) as (b & d2 & ->). now exists b, (d1 ++ d2).
Qed.

Lemma returns_try_except {A} (m : M A) (handler : exn -> M A) :
  (forall e, returns (handler e)) -> returns (try_except m handler).
Proof.
  intros Hk h. unfold try_except. destruct (m h) as [[a|e] d1]; [now exists a, d1|].
  destruct (Hk e (h ++ d1)) as (b & d2 & ->). now exists b, (d1 ++ d2).
Qed.

Lemma bind_run {A B} (m : M A) (k : A -> M B) h a d1 r d2 :
  m h = (Ok a, d1) -> k a (h ++ d1) = (r, d2) -> (x <- m ;; k x) h = (r, d1 ++ d2).
Proof. intros E1 E2. now rewrite run_bind, E1, E2. Qed.

(** Reduces [returns m], for an [m] without loops, to the answers of
    the world. *)
Ltac returns_tac :=
  repeat first
    [ apply returns_ret | apply returns_emit
    | apply returns_bind; [| intros ?]
    | apply returns_try_except; intros ?
    | apply returns_call; intros ?
    | match goal with
      | |- returns (if ?b then _ else _) => destruct b
      | |- returns (match ?x with _ => _ end) => destruct x
      end
    | progress autounfold with script ].

Ltac coop_answer :=
  first
    [ eexists; reflexivity
    | eexists; apply (coop_makedirs w coop)
    | eexists; apply (coop_file_handler w coop)
    | eexists; apply (coop_chrome w coop)
    | eexists; apply (coop_maximize w coop)
    | eexists; apply (coop_get w coop)
    | eexists; apply (coop_click w coop)
    | eexists; apply (coop_quit w coop)
    | apply (coop_script w coop)
    | apply (coop_question w coop)
    | apply (coop_next w coop)
    | apply (coop_controls w coop)
    | apply (coop_attribute w coop)
    | apply (coop_text w coop)
    | apply (coop_screenshot w coop) ].

Lemma returns_extract_options option_inputs : returns (extract_options w option_inputs).
Proof.
  induction option_inputs as [|radio rest IH]; simpl; [apply returns_ret|].
  apply returns_bind; [|intros o; apply returns_bind; [exact IH|intros l; apply returns_ret]].
  intros h. destruct (coop_attribute w coop h radio "id") as (v & Hv).
  destruct (extract_option_returns w radio h v Hv) as (text & d & E).
  now exists (radio, text), d.
Qed.

Lemma returns_report_options options_list : forall idx,
  returns (report_options w options_list idx).
Proof.
  induction options_list as [|[radio text] rest IH]; intros idx; simpl;
    [apply returns_ret|].
  apply returns_bind; [returns_tac; coop_answer|intros ?; apply IH].
Qed.

Lemma returns_match_option options_list chosen_option :
  returns (match_option w options_list chosen_option).
Proof.
  induction options_list as [|[radio text] rest IH]; simpl; [apply returns_ret|].
  destruct (text =? chosen_option)%string; [|exact IH]. returns_tac; coop_answer.
Qed.

Lemma returns_decision_client rendered_html question_text options_list h :
  let prompt := build_prompt rendered_html question_text options_list in
  let started := [ EvLog INFO "Sending prompt to OpenAI.";
                   EvLog DEBUG ("Prompt: " ++ prompt)%string;
                   EvScript (update_overlay_script "Processing Survey Question...") [] ] in
  exists content rest,
    chat_create w (h ++ started) chat_model (chat_messages prompt)
    = Ok (Some content :: rest)
    /\ decision_client w rendered_html question_text options_list h
       = (Ok (strip content), started ++ [EvChat chat_model (chat_messages prompt)]).
Proof.
  intros prompt started. rewrite decision_client_run. fold prompt.
  destruct (coop_script w coop
              (h ++ [ EvLog INFO "Sending prompt to OpenAI.";
                      EvLog DEBUG ("Prompt: " ++ prompt)%string ])
              (update_overlay_script "Processing Survey Question...") []) as (v & ->).
  fold started.
  destruct (coop_chat w coop (h ++ started) chat_model (chat_messages prompt))
    as (content & rest & E).
  exists content, rest. split; [exact E|]. rewrite E. reflexivity.
Qed.

Lemma quiet_no_click ev :
  is_chat ev = false -> is_get ev = false -> is_quit ev = false ->
  is_click ev = false -> no_click ev.
Proof. intros _ _ _ H e ->. discriminate H. Qed.

(** A stage that returns and does not click. *)
Lemma quiet_stage {A} (m : M A) h :
  returns m -> emits no_click m ->
  exists a d, m h = (Ok a, d) /\ clicked d = [].
Proof.
  intros Hr He. destruct (Hr h) as (a & d & E). exists a, d. split; [exact E|].
  apply no_click_clicked. specialize (He h). now rewrite E in He.
Qed.

Lemma step5_clicks options_list chosen_option h :
  exists d,
    step5_click_option w options_list chosen_option h = (Ok tt, d)
    /\ ((exists pre radio post,
            options_list = pre ++ (radio, chosen_option) :: post
            /\ Forall (fun o : elem * string => snd o <> chosen_option) pre
            /\ clicked d = [radio])
        \/ (~ In chosen_option (map snd options_list) /\ clicked d = [])).
Proof.
  assert (Hr : returns (step5_click_option w options_list chosen_option)).
  { unfold step5_click_option. apply returns_bind; [apply returns_match_option|intros ?].
    returns_tac; coop_answer. }
  destruct (Hr h) as ([] & d & E). exists d. split; [exact E|].
  unfold step5_click_option in E. rewrite run_bind in E.
  assert (Hrest : forall found, emits no_click
            (if negb found
             then log WARNING not_found_warning ;;
                  update_overlay w "Chosen option not found!"
             else ret tt))
    by (intros found; emits_tac; intros e; discriminate).
  destruct (in_dec string_dec chosen_option (map snd options_list)) as [Hin|Hno].
  - left. destruct (first_occurrence _ _ Hin) as (pre & radio & post & Eo & Hpre).
    exists pre, radio, post. split; [exact Eo|]. split; [exact Hpre|].
    assert (Hq : returns (highlight w radio "green" ;;
                          capture_screenshot w "chosen_option_highlighted"))
      by (returns_tac; coop_answer).
    destruct (Hq h) as ([] & dq & Eq).
    pose proof (choose_option_clicks w radio h dq Eq) as Hclick.
    subst options_list. rewrite (match_option_first w _ _ _ _ Hpre) in E.
    destruct (choose_option w radio h) as [[found|e] dm]; [|discriminate E].
    simpl in Hclick. specialize (Hrest found (h ++ dm)).
    match type of E with
    | (let (_, _) := ?x in _) = _ => destruct x as [r d2]
    end.
    injection E as _ <-. simpl in Hrest.
    now rewrite clicked_app, Hclick, (no_click_clicked _ Hrest).
  - right. split; [exact Hno|].
    rewrite (match_option_none w _ _ Hno) in E. simpl in E.
    specialize (Hrest false (h ++ [])). simpl in Hrest.
    match type of E with
    | (let (_, _) := ?x in _) = _ => destruct x as [r d2]
    end.
    injection E as _ <-. simpl in Hrest. simpl. now apply no_click_clicked.
Qed.

Lemma step6_clicks h :
  exists next d,
    find_element w h XPATH next_xpath = Ok next
    /\ step6_click_next w h = (Ok tt, EvFindElement XPATH next_xpath :: d)
    /\ clicked (EvFindElement XPATH next_xpath :: d) = [next].
Proof.
  destruct (coop_next w coop h) as (next & Hn). exists next.
  unfold step6_click_next, try_except. rewrite run_bind.
  unfold driver_find_element at 1, call. rewrite Hn.
  assert (Hb : returns (highlight w next "purple" ;;
                        capture_screenshot w "next_button_highlighted" ;;
                        update_overlay w "Clicking Next..."))
    by (returns_tac; coop_answer).
  assert (Hq : emits no_click (highlight w next "purple" ;;
                               capture_screenshot w "next_button_highlighted" ;;
                               update_overlay w "Clicking Next..."))
    by (emits_tac; intros e; discriminate).
  destruct (Hb (h ++ [EvFindElement XPATH next_xpath])) as ([] & d1 & E1).
  specialize (Hq (h ++ [EvFindElement XPATH next_xpath])). rewrite E1 in Hq.
  simpl in Hq.
  assert (E : (highlight w next "purple" ;;
               capture_screenshot w "next_button_highlighted" ;;
               update_overlay w "Clicking Next..." ;;
               click w next ;;
               log INFO "Clicked the Next button.")
                (h ++ [EvFindElement XPATH next_xpath])
              = (Ok tt, d1 ++ [EvClick next; EvLog INFO "Clicked the Next button."])).
  { revert E1. rewrite !run_bind.
    destruct (highlight w next "purple" _) as [[[]|e] da]; [|discriminate].
    rewrite !run_bind.
    destruct (capture_screenshot w _ _) as [[[]|e] db]; [|discriminate].
    rewrite !run_bind.
    destruct (update_overlay w _ _) as [[[]|e] dc]; [|discriminate].
    intros [= <-]. unfold click, log, call, emit. rewrite run_bind.
    rewrite (coop_click w coop). simpl. now rewrite <- !app_assoc. }
  rewrite E. eexists. split; [reflexivity|]. split; [reflexivity|].
  change (clicked ([EvFindElement XPATH next_xpath]
                   ++ d1 ++ [EvClick next; EvLog INFO "Clicked the Next button."])
          = [next]).
  rewrite !clicked_app, (no_click_clicked _ Hq). reflexivity.
Qed.

Lemma returns_value_bind {A B} (m : M A) (k : A -> M B) (b : B) :
  returns m -> (forall a, returns_value b (k a)) -> returns_value b (x <- m ;; k x).
Proof.
  intros Hm Hk h. rewrite run_bind. destruct (Hm h) as (a & d1 & ->).
  destruct (Hk a (h ++ d1)) as (d2 & ->). now exists (d1 ++ d2).
Qed.

Lemma step4_answer rendered_html question_text options_list h :
  exists content rest started messages dt,
    chat_create w (h ++ started) chat_model messages = Ok (Some content :: rest)
    /\ step4_decide w rendered_html question_text options_list h
       = (Ok (strip content), started ++ EvChat chat_model messages :: dt)
    /\ clicked (started ++ EvChat chat_model messages :: dt) = [].
Proof.
  destruct (returns_decision_client rendered_html question_text options_list h)
    as (content & rest & Hc & Ed).
  exists content, rest. eexists. eexists.
  assert (Ht : returns_value (strip content)
            (log INFO ("AI Chose: " ++ strip content) ;;
             update_overlay w ("AI Chose: " ++ strip content) ;;
             capture_screenshot w "ai_choice_received" ;;
             sleep 2 ;;
             ret (strip content))).
  { do 4 (apply returns_value_bind; [returns_tac; coop_answer|intros ?]).
    intros h'. now exists []. }
  assert (Hq : emits no_click
            (log INFO ("AI Chose: " ++ strip content) ;;
             update_overlay w ("AI Chose: " ++ strip content) ;;
             capture_screenshot w "ai_choice_received" ;;
             sleep 2 ;;
             ret (strip content)))
    by (emits_tac; intros e; discriminate).
  match type of Ed with
  | _ = (_, ?dd) => destruct (Ht (h ++ dd)) as (dt & Et); specialize (Hq (h ++ dd))
  end.
  rewrite Et in Hq. simpl in Hq. exists dt. split; [exact Hc|]. split.
  - unfold step4_decide. rewrite run_bind, Ed, Et. now rewrite <- app_assoc.
  - rewrite clicked_app.
    match goal with
    | |- _ ++ clicked (?ev :: dt) = _ => change (ev :: dt) with ([ev] ++ dt)
    end.
    now rewrite clicked_app, (no_click_clicked _ Hq).
Qed.

(** The body of the [try] in a cooperating world: where in its trace the
    controls are looked up, the request is sent and the Next control is
    looked up, what the world answers there, and the clicks. *)
(** Brings a trace to the form [a ++ b ++ ...]. *)
Ltac flatten :=
  repeat (rewrite <- app_assoc || rewrite <- app_comm_cons); cbn [app].

Lemma workflow_cooperative h :
  exists he options_list de dr messages content rest dk next tn,
    find_elements w (h ++ he) CSS_SELECTOR radio_selector = Ok (map fst options_list)
    /\ extract_options w (map fst options_list)
         ((h ++ he) ++ [EvFindElements CSS_SELECTOR radio_selector])
       = (Ok options_list, de)
    /\ chat_create w
         (h ++ he ++ EvFindElements CSS_SELECTOR radio_selector :: de ++ dr)
         chat_model messages
       = Ok (Some content :: rest)
    /\ find_element w
         (h ++ (he ++ EvFindElements CSS_SELECTOR radio_selector :: de ++ dr)
            ++ EvChat chat_model messages :: dk)
         XPATH next_xpath
       = Ok next
    /\ workflow w h
       = (Ok tt,
          ((he ++ EvFindElements CSS_SELECTOR radio_selector :: de ++ dr)
             ++ EvChat chat_model messages :: dk)
            ++ EvFindElement XPATH next_xpath :: tn)
    /\ ((exists pre radio post,
            options_list = pre ++ (radio, strip content) :: post
            /\ Forall (fun o : elem * string => snd o <> strip content) pre
            /\ clicked (snd (workflow w h)) = [radio; next])
        \/ (~ In (strip content) (map snd options_list)
            /\ clicked (snd (workflow w h)) = [next])).
Proof.
  destruct (quiet_stage (step1_open_page w) h) as ([] & d1 & E1 & C1);
    [returns_tac; coop_answer|emits_tac; intros e; discriminate|].
  destruct (quiet_stage (step2_rendered_html w) (h ++ d1)) as (html & d2 & E2 & C2);
    [returns_tac; coop_answer|emits_tac; intros e; discriminate|].
  destruct (quiet_stage (step3_question w) ((h ++ d1) ++ d2)) as (q & d3 & E3 & C3);
    [returns_tac; coop_answer|emits_tac; intros e; discriminate|].
  set (controls := EvFindElements CSS_SELECTOR radio_selector).
  destruct (coop_controls w coop (((h ++ d1) ++ d2) ++ d3) CSS_SELECTOR radio_selector)
    as (inputs & Hf).
  assert (E4 : driver_find_elements w CSS_SELECTOR radio_selector (((h ++ d1) ++ d2) ++ d3)
               = (Ok inputs, [controls]))
    by (unfold driver_find_elements, call; now rewrite Hf).
  destruct (quiet_stage (extract_options w inputs)
              ((((h ++ d1) ++ d2) ++ d3) ++ [controls]))
    as (options_list & d5 & E5 & C5);
    [apply returns_extract_options
    |apply quiet_extract_options; exact quiet_no_click|].
  destruct (quiet_stage (report_options w options_list 1)
              (((((h ++ d1) ++ d2) ++ d3) ++ [controls]) ++ d5)) as ([] & d6 & E6 & C6);
    [apply returns_report_options
    |apply quiet_report_options; exact quiet_no_click|].
  destruct (step4_answer html q options_list
              ((((((h ++ d1) ++ d2) ++ d3) ++ [controls]) ++ d5) ++ d6))
    as (content & rest & started & messages & dt & Hchat & E7 & C7).
  set (request := EvChat chat_model messages) in *.
  destruct (step5_clicks options_list (strip content)
              (((((((h ++ d1) ++ d2) ++ d3) ++ [controls]) ++ d5) ++ d6)
                 ++ started ++ request :: dt))
    as (d8 & E8 & C8).
  destruct (step6_clicks
              ((((((((h ++ d1) ++ d2) ++ d3) ++ [controls]) ++ d5) ++ d6)
                  ++ started ++ request :: dt) ++ d8))
    as (next & d9 & Hnext & E9 & C9).
  set (lookup := EvFindElement XPATH next_xpath) in *.
  destruct (quiet_stage (sleep 3 ;; capture_screenshot w "final_state" ;;
                         update_overlay w "Process Completed")
              ((((((((h ++ d1) ++ d2) ++ d3) ++ [controls]) ++ d5) ++ d6)
                  ++ started ++ request :: dt) ++ d8 ++ lookup :: d9))
    as ([] & d10 & E10 & C10);
    [returns_tac; coop_answer|emits_tac; intros e; discriminate|].
  pose proof (extract_options_controls w _ _ _ _ E5) as Hmap.
  assert (Ew : workflow w h
               = (Ok tt,
                  d1 ++ d2 ++ d3 ++ [controls] ++ d5 ++ d6
                     ++ (started ++ request :: dt) ++ (d8 ++ lookup :: d9) ++ d10)).
  { unfold workflow.
    eapply bind_run; [exact E1|]. eapply bind_run; [exact E2|].
    eapply bind_run; [exact E3|]. eapply bind_run; [exact E4|].
    eapply bind_run; [exact E5|]. eapply bind_run; [exact E6|].
    eapply bind_run; [exact E7|].
    eapply bind_run; [|exact E10].
    unfold action_executor. eapply bind_run; [exact E8|exact E9]. }
  assert (Hclicks : clicked (snd (workflow w h)) = clicked d8 ++ [next]).
  { rewrite Ew. cbn [snd]. rewrite clicked_app in C7.
    rewrite !clicked_app, C1, C2, C3, C5, C6, C7, C9, C10.
    change (clicked [controls]) with (@nil elem).
    simpl. now rewrite app_nil_r. }
  exists ((d1 ++ d2) ++ d3), options_list, d5, (d6 ++ started), messages, content, rest,
    (dt ++ d8), next, (d9 ++ d10).
  split; [rewrite Hmap, <- Hf; f_equal; flatten; reflexivity|].
  split; [rewrite Hmap, <- E5; f_equal; flatten; reflexivity|].
  split.
  { rewrite <- Hchat. f_equal. flatten. reflexivity. }
  split.
  { rewrite <- Hnext. f_equal. flatten. reflexivity. }
  split.
  { rewrite Ew. f_equal. flatten. reflexivity. }
  rewrite Hclicks.
  destruct C8 as [(pre & radio & post & Eo & Hpre & Hc)|[Hno Hc]]; rewrite Hc.
  - left. now exists pre, radio, post.
  - right. now split.
Qed.

(** X17. In a world in which no call of the run fails, a run with an
    API key finishes with exit code 0 after [driver.quit()].  Its trace
    has, in this order, the lookup of the option controls, the request
    to the service and the lookup of the Next control; with
    [options_list] the options extracted from the controls that the
    first lookup returned, [content] the first choice of the answer to
    that request, and [next] the control that the last lookup returned,
    the clicks of the run are exactly these: the control of the first
    option in [options_list] whose text is [content] trimmed, when there
    is one, and then [next]. *)
Theorem cooperative_run :
  truthy (getenv w "OPENAI_API_KEY") = true ->
  fst (run w) = Finished
  /\ exit_code (fst (run w)) = 0
  /\ quits (snd (run w)) = 1
  /\ exists he options_list de dr messages content rest dk next tn,
       let controls := EvFindElements CSS_SELECTOR radio_selector in
       let hc := he ++ controls :: de ++ dr in
       let hn := hc ++ EvChat chat_model messages :: dk in
       snd (run w) = hn ++ EvFindElement XPATH next_xpath :: tn
       /\ find_elements w he CSS_SELECTOR radio_selector = Ok (map fst options_list)
       /\ extract_options w (map fst options_list) (he ++ [controls])
          = (Ok options_list, de)
       /\ chat_create w hc chat_model messages = Ok (Some content :: rest)
       /\ find_element w hn XPATH next_xpath = Ok next
       /\ ((exists pre radio post,
               options_list = pre ++ (radio, strip content) :: post
               /\ Forall (fun o : elem * string => snd o <> strip content) pre
               /\ clicked (snd (run w)) = [radio; next])
           \/ (~ In (strip content) (map snd options_list)
               /\ clicked (snd (run w)) = [next])).
Proof.
  intros Hk.
  destruct (quiet_stage (logging_setup w ;; load_api_key w) []) as (key & d0 & E0 & C0);
    [returns_tac; coop_answer|emits_tac; intros e; discriminate|].
  assert (Hkey : key = getenv w "OPENAI_API_KEY").
  { rewrite run_bind in E0. destruct (logging_setup w []) as [[[]|e] d]; [|discriminate].
    rewrite load_api_key_run in E0. now injection E0 as <- _. }
  subst key.
  destruct (quiet_stage (launch_browser w) d0) as ([] & dl & El & Cl);
    [returns_tac; coop_answer|emits_tac; intros e; discriminate|].
  destruct (run_with_session w _ _ _ E0 Hk El) as (_ & Hfst & Hsnd).
  destruct (workflow_cooperative (d0 ++ dl))
    as (he & options_list & de & dr & messages & content & rest & dk & next & tn
        & Hf & Hex & Hchat & Hnext & Ew & Hclicks).
  rewrite Ew in Hclicks. cbn [snd] in Hclicks.
  assert (Es : session w (d0 ++ dl)
               = (Ok tt,
                  (((he ++ EvFindElements CSS_SELECTOR radio_selector :: de ++ dr)
                      ++ EvChat chat_model messages :: dk)
                     ++ EvFindElement XPATH next_xpath :: tn)
                    ++ [EvLog INFO "Closing browser..."; EvQuit])).
  { destruct (session_run w (d0 ++ dl)) as (r & d1 & Ht & _ & ->).
    unfold try_except in Ht. rewrite Ew in Ht. injection Ht as <- <-.
    now rewrite (coop_quit w coop). }
  assert (Hq : quits (snd (run w)) = 1).
  { rewrite Hsnd, !quits_app, session_quits.
    pose proof (setup_no_quit w) as H0. rewrite E0 in H0.
    pose proof (launch_browser_emits_no_quit w d0) as H1. rewrite El in H1.
    simpl in H0, H1. now rewrite (no_quit_quits _ H0), (no_quit_quits _ H1). }
  rewrite Es in Hfst, Hsnd. cbn [fst snd] in Hfst, Hsnd.
  split; [exact Hfst|]. split; [now rewrite Hfst|]. split; [exact Hq|].
  exists ((d0 ++ dl) ++ he), options_list, de, dr, messages, content, rest, dk, next,
    (tn ++ [EvLog INFO "Closing browser..."; EvQuit]).
  cbv zeta.
  split.
  { rewrite Hsnd. flatten. reflexivity. }
  split; [exact Hf|]. split; [exact Hex|].
  split; [rewrite <- Hchat; f_equal; flatten; reflexivity|].
  split; [rewrite <- Hnext; f_equal; flatten; reflexivity|].
  assert (Hc : clicked (snd (run w))
               = clicked (((he ++ EvFindElements CSS_SELECTOR radio_selector :: de ++ dr)
                             ++ EvChat chat_model messages :: dk)
                            ++ EvFindElement XPATH next_xpath :: tn)).
  { rewrite Hsnd, !clicked_app, C0, Cl. simpl. now rewrite app_nil_r. }
  rewrite Hc. exact Hclicks.
Qed.

End Cooperative.

(** ** The further properties on concrete worlds *)

(** Without key the browser is never closed, because it is never
    opened; on the survey page it is closed once. *)
Lemma quit_is_final_witness :
  workflow_result no_key = None
  /\ quits (snd (run no_key)) = 0
  /\ workflow_result colors <> None
  /\ quits (snd (run colors)) = 1
  /\ snd (run colors) = removelast (snd (run colors)) ++ EvQuit :: [].
Proof.
  assert (H1 : workflow_result no_key = None) by reflexivity.
  assert (H2 : workflow_result colors <> None) by (vm_compute; discriminate).
  assert (H3 : snd (run colors) = removelast (snd (run colors)) ++ EvQuit :: [])
    by (vm_compute; reflexivity).
  destruct (quit_is_final no_key) as (Hn & _ & _).
  destruct (quit_is_final colors) as (_ & Hc & Hlast).
  pose proof (Hlast _ _ H3) as _.
  repeat split; auto.
Defined.

(** A window that cannot be maximized: exit code 1, Chrome launched and
    left open. *)
Lemma maximize_failure_leaves_browser_witness :
  truthy (getenv stuck_window "OPENAI_API_KEY") = true
  /\ logging_starts stuck_window
  /\ maximize_fails stuck_window webdriver_exception
  /\ fst (run stuck_window) = Uncaught webdriver_exception
  /\ exit_code (fst (run stuck_window)) = 1
  /\ In EvChrome (snd (run stuck_window))
  /\ quits (snd (run stuck_window)) = 0.
Proof.
  assert (Hm : maximize_fails stuck_window webdriver_exception)
    by (split; intros h; reflexivity).
  split; [reflexivity|]. split; [reflexivity|]. split; [exact Hm|].
  exact (maximize_failure_leaves_browser stuck_window webdriver_exception
           eq_refl eq_refl Hm).
Defined.

(** A page without question: the workflow raises, without request and
    without click. *)
Lemma missing_question_is_fatal_witness :
  question_missing no_question
  /\ (exists e, fst (workflow no_question []) = Raised e)
  /\ chats (snd (workflow no_question [])) = []
  /\ clicked (snd (workflow no_question [])) = [].
Proof.
  assert (H : question_missing no_question) by (intros h; eexists; reflexivity).
  split; [exact H|]. exact (missing_question_is_fatal no_question [] H).
Defined.

(** A service that returns no choice: the workflow raises and clicks
    nothing. *)
Lemma unusable_answer_is_fatal_witness :
  no_usable_choice silent_model
  /\ (exists e, fst (workflow silent_model []) = Raised e)
  /\ clicked (snd (workflow silent_model [])) = [].
Proof.
  assert (H : no_usable_choice silent_model) by (intros h m ms c r; discriminate).
  split; [exact H|]. exact (unusable_answer_is_fatal silent_model [] H).
Defined.

(** A page without Next control: step 6 returns after three calls. *)
Lemma next_button_is_optional_witness :
  next_banner_succeeds no_next
  /\ find_element no_next [] XPATH next_xpath = Raised no_such_element
  /\ fst (step6_click_next no_next []) = Ok tt
  /\ snd (step6_click_next no_next [])
     = [ EvFindElement XPATH next_xpath;
         EvLog WARNING ("Could not find the Next button: " ++ str_of_exn no_such_element)%string;
         EvScript (update_overlay_script "Next button not found!") [] ].
Proof.
  assert (H : next_banner_succeeds no_next) by (intros h; eexists; reflexivity).
  destruct (next_button_is_optional no_next []) as [Hok Hmiss].
  split; [exact H|]. split; [reflexivity|]. split; [exact (Hok H)|].
  exact (Hmiss no_such_element eq_refl).
Defined.


(** The label of the second option is read with spaces around it and
    compared without them. *)
Lemma compared_texts_are_trimmed_witness :
  elem_text colors [] 12 = Ok " Green "%string
  /\ extract_options colors [1; 2; 3] []
     = (Ok [(1, "Red"%string); (2, "Green"%string); (3, "Blue"%string)],
        snd (extract_options colors [1; 2; 3] []))
  /\ strip "Green" = "Green"%string
  /\ fst (decision_client colors "<html></html>" "Pick a color" palette []) = Ok "Green"%string
  /\ strip (strip ("Green" ++ nl)) = strip ("Green" ++ nl).
Proof.
  destruct (compared_texts_are_trimmed colors) as (Hidem & Hex & Hdec).
  assert (E : extract_options colors [1; 2; 3] []
              = (Ok [(1, "Red"%string); (2, "Green"%string); (3, "Blue"%string)],
                 snd (extract_options colors [1; 2; 3] [])))
    by (vm_compute; reflexivity).
  split; [reflexivity|]. split; [exact E|].
  split; [exact (Hex _ _ _ _ E 2 "Green"%string (or_intror (or_introl eq_refl)))|].
  split; [reflexivity|]. apply Hidem.
Defined.

(** The extraction on the page with an unlabeled control reads the
    three identifiers and looks two labels up. *)
Lemma extraction_only_reads_witness :
  fst (extract_options unlabeled [1; 2; 3] [])
  = Ok [(1, "Red"%string); (2, "(no label)"%string); (3, "(no id/label)"%string)]
  /\ attribute_reads (snd (extract_options unlabeled [1; 2; 3] [])) = [1; 2; 3]
  /\ length (label_lookups (snd (extract_options unlabeled [1; 2; 3] []))) <= 3.
Proof.
  destruct (extraction_only_reads unlabeled [1; 2; 3] []) as (_ & Hl & Hr).
  split; [reflexivity|]. split; [exact (Hr _ eq_refl)|exact Hl].
Defined.

(** On the survey page the script of [inject_overlay] adds the overlay,
    and a second run changes nothing. *)
Lemma inject_overlay_idempotent_witness :
  JS.inject_overlay_js survey_page = JS.Normal survey_page_with_overlay
  /\ (exists n, JS.getElementById survey_page_with_overlay overlay_id = Some n)
  /\ JS.inject_overlay_js survey_page_with_overlay = JS.Normal survey_page_with_overlay.
Proof.
  assert (E : JS.inject_overlay_js survey_page = JS.Normal survey_page_with_overlay)
    by reflexivity.
  destruct (inject_overlay_idempotent _ _ E) as (Hp & Hi & _).
  split; [exact E|]. split; assumption.
Defined.

(** Removing the overlay from the survey page gives the page back. *)
Lemma remove_undoes_inject_witness :
  JS.getElementById survey_page overlay_id = None
  /\ JS.inject_overlay_js survey_page = JS.Normal survey_page_with_overlay
  /\ JS.remove_overlay_js survey_page_with_overlay = JS.Normal survey_page.
Proof.
  split; [reflexivity|]. split; [reflexivity|].
  exact (remove_undoes_inject survey_page survey_page_with_overlay eq_refl eq_refl).
Defined.

(** Two updates of the overlay of the survey page. *)
Lemma update_overlay_last_wins_witness :
  let d1 := match JS.update_overlay_js text_only "first" survey_page_with_overlay with
            | JS.Normal d => d
            | JS.Throw _ => survey_page_with_overlay
            end in
  JS.update_overlay_js text_only "first" survey_page_with_overlay = JS.Normal d1
  /\ JS.update_overlay_js text_only "second" d1
     = JS.update_overlay_js text_only "second" survey_page_with_overlay
  /\ (JS.getElementById d1 overlay_id = None
      <-> JS.getElementById survey_page_with_overlay overlay_id = None).
Proof.
  intros d1.
  assert (E : JS.update_overlay_js text_only "first" survey_page_with_overlay = JS.Normal d1)
    by reflexivity.
  split; [exact E|].
  exact (update_overlay_last_wins text_only "first" "second" _ _ E).
Defined.

(** The two-line answer of the model. *)
Lemma line_break_breaks_update_witness :
  JS.literal_safe "AI Chose: Green" = true
  /\ (("010" =? "010") || ("010" =? "013"))%char = true
  /\ JS.run_script text_only
       (update_overlay_script ("AI Chose: Green" ++ String "010" "It is the calmest color."))
       survey_page_with_overlay
     = Some (JS.Throw "SyntaxError").
Proof.
  split; [reflexivity|]. split; [reflexivity|].
  exact (line_break_breaks_update text_only "AI Chose: Green" "It is the calmest color."
           "010"%char survey_page_with_overlay eq_refl eq_refl).
Defined.

(** The first overlay call of the workflow, on the survey page. *)
Lemma scripted_overlay_calls_witness :
  JS.literal_safe "Page Loaded" = true
  /\ JS.inject_overlay_js (JS.page_after text_only survey_page [])
     = JS.Normal survey_page_with_overlay
  /\ inject_overlay scripted "Page Loaded" []
     = (Ok tt, [ EvScript inject_overlay_script [];
                 EvScript (update_overlay_script "Page Loaded") [] ])
  /\ update_overlay scripted "Page Loaded" []
     = (Ok tt, [EvScript (update_overlay_script "Page Loaded") []])
  /\ JS.inject_overlay_js (JS.page_after text_only [] []) = JS.Throw "TypeError"
  /\ inject_overlay (JS.with_page text_only colors []) "Page Loaded" []
     = (Raised (Exn "JavascriptException" "TypeError"), [EvScript inject_overlay_script []]).
Proof.
  destruct (scripted_overlay_calls text_only colors survey_page "Page Loaded" [] eq_refl)
    as (Hu & _ & Hi & _).
  destruct (scripted_overlay_calls text_only colors [] "Page Loaded" [] eq_refl)
    as (_ & _ & _ & Ht).
  split; [reflexivity|]. split; [reflexivity|].
  split; [exact (proj1 (Hi survey_page_with_overlay eq_refl))|].
  split; [exact Hu|]. split; [reflexivity|].
  exact (proj2 (proj2 (Ht "TypeError"%string eq_refl))).
Defined.

Lemma colors_cooperates : cooperates colors.
Proof.
  constructor; intros; try reflexivity; try (eexists; reflexivity).
  eexists. eexists. reflexivity.
Defined.

(** The end-to-end scenario: the three controls are extracted as Red,
    Green and Blue, the service answers Green, and the second control
    and then the Next control are clicked. *)
Lemma cooperative_run_witness :
  cooperates colors
  /\ truthy (getenv colors "OPENAI_API_KEY") = true
  /\ fst (run colors) = Finished
  /\ exit_code (fst (run colors)) = 0
  /\ quits (snd (run colors)) = 1
  /\ clicked (snd (run colors)) = [2; 200].
Proof.
  destruct (cooperative_run colors colors_cooperates eq_refl)
    as (Hf & He & Hq & he & options_list & de & dr & messages & content & rest & dk
        & next & tn & _ & Hcontrols & Hex & Hchat & Hnext & Hclicks).
  split; [exact colors_cooperates|]. split; [reflexivity|].
  split; [exact Hf|]. split; [exact He|]. split; [exact Hq|].
  assert (Hinputs : map fst options_list = [1; 2; 3])
    by (injection Hcontrols as <-; reflexivity).
  rewrite Hinputs in Hex.
  assert (Hoptions : options_list
                     = [(1, "Red"%string); (2, "Green"%string); (3, "Blue"%string)])
    by (injection Hex as <- _; reflexivity).
  assert (Hcontent : strip content = "Green"%string)
    by (injection Hchat as <- _; reflexivity).
  assert (Hn : next = 200) by (injection Hnext as <-; reflexivity).
  rewrite Hcontent in Hclicks. subst options_list next.
  destruct Hclicks as [(pre & radio & post & E & Hpre & Hc)|[Hno _]].
  - destruct pre as [|p1 pre]; [discriminate E|].
    injection E as <- E. destruct pre as [|p2 pre].
    + injection E as <- _. exact Hc.
    + injection E as <- _. inversion Hpre as [|? ? _ Hpre'].
      inversion Hpre' as [|? ? Hne _]. now elim Hne.
  - elim Hno. simpl. tauto.
Defined.
